(** * Word-frequency pipeline of text_processor.py and main.py

    A shallow embedding of the tokenizer, the word counter, the three
    file-processing strategies and the statistics engine, followed by the
    properties of the specification that were checked against it.

    Python values are modelled as follows.
    - [int] is [Z]; [len] returns [Z.of_nat (length _)].
    - [str] is [string], its 8-bit characters read as the code points
      U+0000 to U+00FF; the builtins [lower], [split], [isalpha] and the
      table [string.punctuation] are written out for that range.
    - a [dict] from words to counts is an association list in insertion
      order: iteration ([items], [values], [sorted]) follows that order,
      as it does in Python, and keys are unique.
    - indices into lists and chunk sizes, which the code never makes
      negative, are [nat].
    - a raised exception is the [Raise] result of [result].
    - [time.time()] and [print] act on an explicit [World]; code is a
      program of atomic actions on it, so that threads and pool workers
      can be interleaved.
    - [print] raises when the [Console] does not take the line. *)

From stdpp Require Import base list strings sorting gmap.
From Stdlib Require Import ZArith Lia Ascii.

Local Open Scope Z_scope.

(** ** Python builtins *)

Module Py.

(** Exceptions, the classes derived from [Exception], kept by class name
    and message. *)
Record exn := Exn { exn_class : string; exn_msg : string }.

Inductive result (A : Type) :=
| Return (a : A)
| Raise (e : exn).
Arguments Return {A} a.
Arguments Raise {A} e.

Definition ValueError (msg : string) : exn := Exn "ValueError" msg.

Definition len {A} (l : list A) : Z := Z.of_nat (length l).

(** [sum(xs)]: starts from 0 and adds from the left. *)
Definition sum (xs : list Z) : Z := fold_left Z.add xs 0.

(** [l[:n]]: a negative bound counts from the end, a bound past the
    end is clamped. *)
Definition slice_to {A} (l : list A) (n : Z) : list A :=
  if 0 <=? n then take (Z.to_nat n) l
  else take (Z.to_nat (len l + n)) l.

(** [l[i:j]] and [l[i:]] for non-negative bounds. *)
Definition slice {A} (l : list A) (i j : nat) : list A :=
  take (j - i) (drop i l).
Definition slice_from {A} (l : list A) (i : nat) : list A := drop i l.

(** [range(start, stop, step)] for a step that is not negative: the
    values start, start+step, ... below stop; a zero step raises
    ValueError, also when the range would be empty. *)
Fixpoint range_up (fuel start stop step : nat) : list nat :=
  match fuel with
  | O => []
  | S fuel' =>
      if (start <? stop)%nat
      then start :: range_up fuel' (start + step) stop step
      else []
  end.

Definition range (start stop step : nat) : result (list nat) :=
  match step with
  | O => Raise (ValueError "range() arg 3 must not be zero")
  | S _ => Return (range_up (stop - start) start stop step)
  end.

(** *** dict, as an insertion-ordered association list *)

Definition dict := list (string * Z).

Definition items (d : dict) : list (string * Z) := d.
Definition keys (d : dict) : list string := map fst d.
Definition values (d : dict) : list Z := map snd d.

(** [d.get(k, default)] *)
Fixpoint get (d : dict) (k : string) (default : Z) : Z :=
  match d with
  | [] => default
  | (k', v) :: d' => if String.eqb k' k then v else get d' k default
  end.

(** [d[k] = v]: an existing key keeps its position, a new key goes last. *)
Fixpoint setitem (d : dict) (k : string) (v : Z) : dict :=
  match d with
  | [] => [(k, v)]
  | (k', v') :: d' =>
      if String.eqb k' k then (k', v) :: d' else (k', v') :: setitem d' k v
  end.

(** [d[k]] as an option, for stating map equality. *)
Fixpoint lookup (d : dict) (k : string) : option Z :=
  match d with
  | [] => None
  | (k', v) :: d' => if String.eqb k' k then Some v else lookup d' k
  end.

(** [d1 == d2] on dicts: same number of keys, and every key of [d1] is
    in [d2] with the same value; the order of insertion is ignored. *)
Definition dict_eqb (d1 d2 : dict) : bool :=
  (length d1 =? length d2)%nat
  && forallb (fun kv => match lookup d2 (fst kv) with
                        | Some v => (v =? snd kv)
                        | None => false
                        end) d1.

(** [sorted(l, key=lambda x: x[1], reverse=True)]: a stable sort, so
    entries of equal count keep their relative order. *)
Fixpoint insert_desc (x : string * Z) (l : list (string * Z)) :=
  match l with
  | [] => [x]
  | y :: l' => if (snd y <=? snd x) then x :: y :: l' else y :: insert_desc x l'
  end.

Definition sorted_by_count_desc (l : list (string * Z)) : list (string * Z) :=
  foldr insert_desc [] l.

(** *** str *)

Definition in_range (lo hi : nat) (c : ascii) : bool :=
  let n := nat_of_ascii c in ((lo <=? n) && (n <=? hi))%nat.

(** [c.isspace()] *)
Definition isspace (c : ascii) : bool :=
  in_range 9 13 c || in_range 28 32 c || in_range 133 133 c
  || in_range 160 160 c.

(** [c.isalpha()] for one character *)
Definition isalpha_char (c : ascii) : bool :=
  in_range 65 90 c || in_range 97 122 c || in_range 170 170 c
  || in_range 181 181 c || in_range 186 186 c || in_range 192 214 c
  || in_range 216 246 c || in_range 248 255 c.

Definition lower_char (c : ascii) : ascii :=
  if in_range 65 90 c || in_range 192 214 c || in_range 216 222 c
  then ascii_of_nat (nat_of_ascii c + 32)
  else c.

(** [s.lower()] *)
Fixpoint lower (s : string) : string :=
  match s with
  | EmptyString => EmptyString
  | String c s' => String (lower_char c) (lower s')
  end.

(** [c in s] for a character *)
Fixpoint contains (s : string) (c : ascii) : bool :=
  match s with
  | EmptyString => false
  | String c' s' => Ascii.eqb c' c || contains s' c
  end.

(** [string.punctuation]; the double quote is character 34. *)
Definition punctuation : string :=
  String "!" (String "034" "#$%&'()*+,-./:;<=>?@[\]^_`{|}~").

(** [s.translate(str.maketrans('', '', deletechars))] *)
Fixpoint translate_delete (deletechars : string) (s : string) : string :=
  match s with
  | EmptyString => EmptyString
  | String c s' =>
      if contains deletechars c then translate_delete deletechars s'
      else String c (translate_delete deletechars s')
  end.

(** [s.split()]: [cur] is the token being read. *)
Fixpoint split_from (cur : string) (s : string) : list string :=
  match s with
  | EmptyString => match cur with EmptyString => [] | _ => [cur] end
  | String c s' =>
      if isspace c
      then match cur with
           | EmptyString => split_from EmptyString s'
           | _ => cur :: split_from EmptyString s'
           end
      else split_from (cur +:+ String c EmptyString) s'
  end.

Definition split (s : string) : list string := split_from EmptyString s.

Fixpoint all_chars (f : ascii -> bool) (s : string) : bool :=
  match s with
  | EmptyString => true
  | String c s' => f c && all_chars f s'
  end.

(** [s.isalpha()]: false on the empty string. *)
Definition isalpha (s : string) : bool :=
  match s with
  | EmptyString => false
  | _ => all_chars isalpha_char s
  end.

(** [s.endswith(suffix)] *)
Definition endswith (s suffix : string) : bool :=
  let n := String.length s in
  let m := String.length suffix in
  (m <=? n)%nat && String.eqb (String.substring (n - m) m s) suffix.

Definition startswith (s pre : string) : bool := String.prefix pre s.

(** [os.path.join(a, b)] on POSIX paths *)
Definition path_join (a b : string) : string :=
  if startswith b "/" then b
  else if String.eqb a "" || endswith a "/" then a +:+ b
  else a +:+ "/" +:+ b.

(** [os.path.basename(p)]: what follows the last slash. *)
Fixpoint basename (p : string) : string :=
  match p with
  | EmptyString => EmptyString
  | String c p' => if contains p "/" then basename p' else p
  end.

End Py.

Import Py.

(** ** Word counter (text_processor.py, lines 8-26) *)

Definition count_words_simple (words : list string) : dict :=
  fold_left (fun counter word => setitem counter word (get counter word 0 + 1))
            words [].

Definition merge_counters (counter_list : list dict) : dict :=
  fold_left
    (fun result counter =>
       fold_left (fun result '(word, count) =>
                    setitem result word (get result word 0 + count))
                 (items counter) result)
    counter_list [].

Definition get_top_words (counter : dict) (n : Z) : list (string * Z) :=
  let sorted_words := sorted_by_count_desc (items counter) in
  slice_to sorted_words n.

(** ** The world: clock, standard output, files *)

(** A reading of [time.time()], and a difference of two readings.  The
    clock is any sequence of readings; nothing below computes with them
    beyond subtracting and adding. *)
Definition Time := Z.

(** A printed line, as the pieces of its f-string. *)
Inductive frag :=
| Lit (s : string)
| Int (z : Z)
| Seconds4 (t : Time)     (* {t:.4f} *)
| Err (e : exn).          (* {e} *)

Definition line := list frag.

Record World := mkWorld {
  clock : nat -> Time;    (* the k-th reading of the clock *)
  reads : nat;            (* readings taken so far *)
  stdout : list line      (* lines printed so far, oldest first *)
}.

(** A directory snapshot: what [os.listdir] returns for a folder and what
    [open(path, 'r', encoding='utf-8', errors='ignore')] followed by
    [f.read()] returns for a path, or the exception either raises. *)
Record FileSystem := mkFS {
  listdir : string -> result (list string);
  read_text : string -> result string
}.

(** What stands between [print] and the console: for a line, the
    exception that writing it to [sys.stdout] raises (UnicodeEncodeError
    when the encoding of the stream has no code for one of its
    characters, OSError when the stream is closed), or none.  It is a
    matter of the line and of the stream the program was started with. *)
Record Console := mkConsole {
  write_error : line -> option exn
}.

(** ** Programs as sequences of atomic actions

    A program over a state [S] either has returned or performs one atomic
    action on the state and continues.  Threads and pool workers
    interleave at the boundaries between actions.  The actions are the
    reads of the clock, the reading of a file, the printing of a line and
    the write into a shared list; what a worker computes between two of
    them touches no shared state, so a finer interleaving shows nothing
    more. *)
Inductive prog (S R : Type) : Type :=
| Ret (r : R)
| Act {X : Type} (act : S -> X * S) (k : X -> prog S R).
Arguments Ret {S R} r.
Arguments Act {S R X} act k.

(** Running a program alone, with nothing interleaved. *)
Fixpoint run {S R} (p : prog S R) (s : S) : R * S :=
  match p with
  | Ret r => (r, s)
  | Act act k => let '(x, s') := act s in run (k x) s'
  end.

Fixpoint bind {S A B} (p : prog S A) (f : A -> prog S B) : prog S B :=
  match p with
  | Ret a => f a
  | Act act k => Act act (fun x => bind (k x) f)
  end.

#[global] Instance prog_ret {S} : MRet (prog S) := fun R r => Ret r.
#[global] Instance prog_bind {S} : MBind (prog S) := fun A B f p => bind p f.

Definition atomic {S X} (act : S -> X * S) : prog S X := Act act Ret.

(** A program on one component of the state. *)
Fixpoint zoom {S T R} (p : prog S R) : prog (S * T) R :=
  match p with
  | Ret r => Ret r
  | Act act k =>
      Act (fun st : S * T => let '(x, s') := act st.1 in (x, (s', st.2)))
          (fun x => zoom (k x))
  end.

(** [try: body / except Exception as e: handler e] *)
Definition try_except {S A} (body : prog S (result A))
    (handler : exn -> prog S (result A)) : prog S (result A) :=
  r ← body;
  match r with
  | Return a => mret (Return a)
  | Raise e => handler e
  end.

(** Sequencing that lets an exception through. *)
Definition and_then {S A B} (p : prog S (result A))
    (f : A -> prog S (result B)) : prog S (result B) :=
  r ← p;
  match r with
  | Return a => f a
  | Raise e => mret (Raise e)
  end.

Notation "'let!' x := p 'in' k" := (and_then p (fun x => k))
  (at level 10, x pattern, p at level 100, k at level 200,
   format "'let!'  x  :=  p  'in'  '/' k").

(** [for x in xs: acc = body x acc] *)
Fixpoint for_loop {S A B} (xs : list A) (body : A -> B -> prog S (result B))
    (acc : B) : prog S (result B) :=
  match xs with
  | [] => mret (Return acc)
  | x :: xs' => and_then (body x acc) (for_loop xs' body)
  end.

Definition time_time : prog World Time :=
  atomic (fun w => (clock w (reads w),
                    mkWorld (clock w) (S (reads w)) (stdout w))).

(** [print(l)]: the line is written, or the exception the console has
    for it is raised and nothing is written. *)
Definition print (out : Console) (l : line) : prog World (result unit) :=
  atomic (fun w => match write_error out l with
                   | Some e => (Raise e, w)
                   | None =>
                       (Return tt,
                        mkWorld (clock w) (reads w) (stdout w ++ [l]))
                   end).

(** ** Concurrent execution

    A schedule names, action after action, the thread that moves.  Once
    the schedule is used up the threads are joined in order, each one
    running to its end; a schedule after which every thread has returned
    is a complete interleaving, and every interleaving is such a
    schedule. *)
Definition schedule := list nat.

Definition thread_step {S R} (i : nat) (st : list (prog S R) * S)
  : list (prog S R) * S :=
  match st.1 !! i with
  | Some (Act act k) =>
      let '(x, s') := act st.2 in (<[i := k x]> st.1, s')
  | _ => st
  end.

Definition run_schedule {S R} (sched : schedule) (st : list (prog S R) * S)
  : list (prog S R) * S :=
  fold_left (fun st i => thread_step i st) sched st.

Fixpoint join_all {S R} (ts : list (prog S R)) (s : S) : list R * S :=
  match ts with
  | [] => ([], s)
  | p :: ts' =>
      let '(r, s1) := run p s in
      let '(rs, s2) := join_all ts' s1 in
      (r :: rs, s2)
  end.

(** Start the threads, let them interleave, join them: the value each
    returned, in thread order, and the final state. *)
Definition concurrently {S R} (ts : list (prog S R)) (sched : schedule) (s : S)
  : list R * S :=
  let st := run_schedule sched (ts, s) in
  join_all st.1 st.2.

(** [pool.map(f, xs)]: the tasks run in worker processes, here under
    any interleaving, that of a pool of four among them; the results come
    back in task order.  An exception raised by a task is raised by [map]
    in the parent; when several tasks raise, the first in task order
    stands for the one the library reports.  A task of this program
    raises when a [print] of it does. *)
Fixpoint first_raise {R} (rs : list (result R)) : result (list R) :=
  match rs with
  | [] => Return []
  | Raise e :: _ => Raise e
  | Return r :: rs' =>
      match first_raise rs' with
      | Return l => Return (r :: l)
      | Raise e => Raise e
      end
  end.

Definition pool_map {A R} (f : A -> prog World (result R)) (xs : list A)
    (sched : schedule) : prog World (result (list R)) :=
  atomic (fun w => let '(rs, w') := concurrently (map f xs) sched w in
                   (first_raise rs, w')).

(** ** Tokenizer (text_processor.py, lines 29-50 and 62-83) *)

(** The statements between lowering the text and timing it. *)
Definition clean_words (text : string) : list string :=
  let cleaned_text := translate_delete punctuation text in
  List.filter isalpha (split cleaned_text).

Definition FileResult : Type := string * list string * Time.

Definition read_and_clean_file_standalone (out : Console) (fs : FileSystem)
    (filepath : string) : prog World (result FileResult) :=
  start_time ← time_time;
  try_except
    (and_then (atomic (fun w => (read_text fs filepath, w))) (fun contents =>
       let text := lower contents in
       let words := clean_words text in
       now ← time_time;
       let processing_time := now - start_time in
       let! _ := print out [Lit "[INFO] Processed "; Lit (basename filepath);
                            Lit ": "; Int (len words); Lit " words in ";
                            Seconds4 processing_time; Lit " seconds"] in
       mret (Return (filepath, words, processing_time))))
    (fun e =>
       now ← time_time;
       let processing_time := now - start_time in
       let! _ := print out [Lit "[ERROR] Error reading "; Lit filepath;
                            Lit ": "; Err e] in
       mret (Return (filepath, [], processing_time))).

Definition count_chunk_standalone (chunk : list string)
  : prog World (result dict) :=
  mret (Return (count_words_simple chunk)).

(** The method of [TextProcessor]; its body is the same text. *)
Definition read_and_clean_file (out : Console) (fs : FileSystem)
    (filepath : string) : prog World (result FileResult) :=
  start_time ← time_time;
  try_except
    (and_then (atomic (fun w => (read_text fs filepath, w))) (fun contents =>
       let text := lower contents in
       let words := clean_words text in
       now ← time_time;
       let processing_time := now - start_time in
       let! _ := print out [Lit "[INFO] Processed "; Lit (basename filepath);
                            Lit ": "; Int (len words); Lit " words in ";
                            Seconds4 processing_time; Lit " seconds"] in
       mret (Return (filepath, words, processing_time))))
    (fun e =>
       now ← time_time;
       let processing_time := now - start_time in
       let! _ := print out [Lit "[ERROR] Error reading "; Lit filepath;
                            Lit ": "; Err e] in
       mret (Return (filepath, [], processing_time))).

(** ** File processor (text_processor.py, lines 85-195) *)

Record BatchResult := mkBatch {
  words : list string;
  method : string;
  total_time : Time;
  processing_time : Time
}.

(** The comprehension that opens each strategy. *)
Definition discover (fs : FileSystem) (folder_path : string)
  : result (list string) :=
  match listdir fs folder_path with
  | Raise e => Raise e
  | Return names =>
      Return (map (path_join folder_path)
                  (List.filter (fun filename => endswith filename ".txt") names))
  end.

Definition process_with_multiprocessing (out : Console) (fs : FileSystem)
    (folder_path : string) (sched : schedule) : prog World (result BatchResult) :=
  let! _ := print out [Lit "[INFO] Starting multiprocessing approach..."] in
  start_time ← time_time;
  and_then (mret (discover fs folder_path)) (fun filepaths =>
  and_then (pool_map (read_and_clean_file_standalone out fs) filepaths sched)
    (fun results =>
  and_then
    (for_loop results
       (fun '(filepath, words, proc_time) '(all_words, total_processing_time) =>
          mret (Return (all_words ++ words, total_processing_time + proc_time)))
       ([], 0))
    (fun '(all_words, total_processing_time) =>
  now ← time_time;
  let total_time := now - start_time in
  let! _ := print out [Lit "[INFO] Multiprocessing completed in "; Seconds4 total_time;
                       Lit " seconds"] in
  mret (Return (mkBatch all_words "multiprocessing" total_time
                        total_processing_time))))).

(** The worker of [process_with_threading]: the state it acts on is the
    world and the [results] list it shares with the other workers; the
    write under [self.lock] is one action.  An index past the end cannot
    occur, the list having one slot per file.  When the call raises, the
    thread ends there and its slot keeps [None]. *)
Definition worker (out : Console) (fs : FileSystem) (filepath : string)
    (index : nat)
  : prog (World * list (option FileResult)) (result unit) :=
  and_then (zoom (read_and_clean_file out fs filepath)) (fun result =>
    atomic (fun st : World * list (option FileResult) =>
              (Return tt, (st.1, <[index := Some result]> st.2)))).

Definition process_with_threading (out : Console) (fs : FileSystem)
    (folder_path : string) (sched : schedule) : prog World (result BatchResult) :=
  let! _ := print out [Lit "[INFO] Starting threading approach..."] in
  start_time ← time_time;
  and_then (mret (discover fs folder_path)) (fun filepaths =>
  let results := replicate (length filepaths) None in
  let threads := imap (fun i filepath => worker out fs filepath i) filepaths in
  results ← atomic (fun w =>
               let '(_, (w', results)) := concurrently threads sched (w, results) in
               (results, w'));
  and_then
    (for_loop results
       (fun result '(all_words, total_processing_time) =>
          match result with
          | Some (filepath, words, proc_time) =>
              mret (Return (all_words ++ words, total_processing_time + proc_time))
          | None => mret (Return (all_words, total_processing_time))
          end)
       ([], 0))
    (fun '(all_words, total_processing_time) =>
  now ← time_time;
  let total_time := now - start_time in
  let! _ := print out [Lit "[INFO] Threading completed in "; Seconds4 total_time;
                       Lit " seconds"] in
  mret (Return (mkBatch all_words "threading" total_time
                        total_processing_time)))).

Definition process_with_sequential (out : Console) (fs : FileSystem)
    (folder_path : string) : prog World (result BatchResult) :=
  let! _ := print out [Lit "[INFO] Starting sequential approach..."] in
  start_time ← time_time;
  and_then (mret (discover fs folder_path)) (fun filepaths =>
  and_then
    (for_loop filepaths
       (fun filepath '(all_words, total_processing_time) =>
          and_then (read_and_clean_file out fs filepath)
            (fun '(filepath_result, words, proc_time) =>
               mret (Return (all_words ++ words,
                             total_processing_time + proc_time))))
       ([], 0))
    (fun '(all_words, total_processing_time) =>
  now ← time_time;
  let total_time := now - start_time in
  let! _ := print out [Lit "[INFO] Sequential processing completed in ";
                       Seconds4 total_time; Lit " seconds"] in
  mret (Return (mkBatch all_words "sequential" total_time
                        total_processing_time)))).

(** ** Statistics engine (text_processor.py, lines 197-296) *)

Record Statistics := mkStats {
  total_words : Z;
  unique_words : Z;
  frequencies : dict;
  top_10 : list (string * Z);
  computation_time : Time
}.

Definition compute_word_statistics_simple (out : Console)
    (words : list string) (method : string) : prog World (result Statistics) :=
  let! _ := print out [Lit "[INFO] Computing statistics using "; Lit method;
                       Lit "..."] in
  start_time ← time_time;
  let total_counter := count_words_simple words in
  now ← time_time;
  let computation_time := now - start_time in
  let! _ := print out [Lit "[INFO] Statistics computation completed in ";
                       Seconds4 computation_time; Lit " seconds"] in
  mret (Return (mkStats (sum (values total_counter))
                        (len total_counter)
                        total_counter
                        (get_top_words total_counter 10)
                        computation_time)).

(** The chunking loop, the same text in both chunked functions
    (lines 221-231 and 269-279): [indices] is what is left of the range,
    the else branch is the one that breaks. *)
Fixpoint chunk_loop (words : list string) (chunk_size : nat)
    (indices : list nat) (word_chunks : list (list string))
  : list (list string) :=
  match indices with
  | [] => word_chunks
  | i :: rest =>
      if (i + chunk_size <? length words)%nat
      then chunk_loop words chunk_size rest
             (word_chunks ++ [slice words i (i + chunk_size)])
      else word_chunks ++ [slice_from words i]
  end.

Definition make_chunks (words : list string) : result (list (list string)) :=
  let chunk_size := (length words / 4)%nat in
  match range 0 (length words) chunk_size with
  | Raise e => Raise e
  | Return indices => Return (chunk_loop words chunk_size indices [])
  end.

(** The thread body of [_compute_stats_threading_simple]. *)
Definition count_words (chunk : list string) (index : nat)
  : prog (World * list (option dict)) (result unit) :=
  let counter := count_words_simple chunk in
  atomic (fun st : World * list (option dict) =>
            (Return tt, (st.1, <[index := Some counter]> st.2))).

Definition _compute_stats_threading_simple (out : Console)
    (words : list string) (sched : schedule) : prog World (result Statistics) :=
  let! _ := print out [Lit "[INFO] Computing statistics using threading..."] in
  start_time ← time_time;
  and_then (mret (make_chunks words)) (fun word_chunks =>
  let results := replicate (length word_chunks) None in
  let threads := imap (fun i chunk => count_words chunk i) word_chunks in
  results ← atomic (fun w =>
               let '(_, (w', results)) := concurrently threads sched (w, results) in
               (results, w'));
  let total_counter := merge_counters (omap id results) in
  now ← time_time;
  let computation_time := now - start_time in
  let! _ := print out [Lit "[INFO] Threading statistics computation completed in ";
                       Seconds4 computation_time; Lit " seconds"] in
  mret (Return (mkStats (sum (values total_counter))
                        (len total_counter)
                        total_counter
                        (get_top_words total_counter 10)
                        computation_time))).

Definition _compute_stats_multiprocessing_simple (out : Console)
    (words : list string) (sched : schedule)
  : prog World (result Statistics) :=
  let! _ := print out
              [Lit "[INFO] Computing statistics using multiprocessing..."] in
  start_time ← time_time;
  and_then (mret (make_chunks words)) (fun word_chunks =>
  and_then (pool_map count_chunk_standalone word_chunks sched) (fun counters =>
  let total_counter := merge_counters counters in
  now ← time_time;
  let computation_time := now - start_time in
  let! _ := print out [Lit "[INFO] Multiprocessing statistics computation completed in ";
                       Seconds4 computation_time; Lit " seconds"] in
  mret (Return (mkStats (sum (values total_counter))
                        (len total_counter)
                        total_counter
                        (get_top_words total_counter 10)
                        computation_time)))).

(** ** main.py, lines 20-61

    The part of [main] that computes: the three strategies on the data
    folder, then the statistics of the sequential words under the two
    labels.  The lines [main] itself prints, banners and summaries, are
    left out: on a console that takes every line they change none of
    these values, and the properties of [main] below are stated for such
    a console. *)
Record MainValues := mkMain {
  all_results : list (string * BatchResult);
  stats_threading : Statistics;
  stats_multiprocessing : Statistics
}.

Definition main (out : Console) (fs : FileSystem)
    (sched_pool sched_threads : schedule)
  : prog World (result MainValues) :=
  let data_folder := "data" in
  and_then (process_with_sequential out fs data_folder) (fun result_sequential =>
  and_then (process_with_multiprocessing out fs data_folder sched_pool) (fun result1 =>
  and_then (process_with_threading out fs data_folder sched_threads) (fun result2 =>
  let all_results := [("sequential", result_sequential);
                      ("multiprocessing", result1);
                      ("threading", result2)] in
  let best_words := words result_sequential in
  and_then (compute_word_statistics_simple out best_words "threading")
    (fun stats_threading =>
  and_then (compute_word_statistics_simple out best_words "multiprocessing")
    (fun stats_multiprocessing =>
  mret (Return (mkMain all_results stats_threading stats_multiprocessing))))))).

(** ** Definitions used to state and prove the properties *)

(** The update both counting loops make: [d[k] = d.get(k, 0) + n]. *)
Definition add_count (d : dict) (k : string) (n : Z) : dict :=
  setitem d k (get d k 0 + n).

(** [count_words_simple] and the inner loop of [merge_counters], started
    from any dict. *)
Definition count_into (acc : dict) (words : list string) : dict :=
  fold_left (fun counter word => add_count counter word 1) words acc.

Definition merge_into (acc : dict) (counter : dict) : dict :=
  fold_left (fun result '(word, count) => add_count result word count)
            counter acc.

(** A dict has each key once. *)
Definition wf_dict (d : dict) : Prop := NoDup (keys d).

(** Map equality, as [==] on dicts decides it. *)
Definition dict_equiv (d1 d2 : dict) : Prop :=
  forall k, lookup d1 k = lookup d2 k.

Definition distinct_words (W : list string) : nat := length (remove_dups W).

(** How often [w] occurs in [W]. *)
Definition occurrences (w : string) (W : list string) : Z :=
  len (List.filter (String.eqb w) W).

Definition by_count_desc (a b : string * Z) : Prop := snd b <= snd a.

(** The words a file contributes under a snapshot. *)
Definition words_of_file (fs : FileSystem) (filepath : string) : list string :=
  match read_text fs filepath with
  | Return contents => clean_words (lower contents)
  | Raise _ => []
  end.

(** [in_order ws text]: the words of [ws] occur in [text] one after the
    other, without overlap, in the order of the list. *)
Inductive in_order : list string -> string -> Prop :=
| in_order_nil text : in_order [] text
| in_order_cons gap word ws text :
    in_order ws text -> in_order (word :: ws) (gap +:+ word +:+ text).

(** Every value the program can return satisfies [P], whatever the state
    its actions find. *)
Fixpoint returns_only {S R} (P : R -> Prop) (p : prog S R) : Prop :=
  match p with
  | Ret r => P r
  | Act act k => forall s, returns_only P (k (act s).1)
  end.

(** A worker that computes with [p] on the world and then writes what [p]
    returned into slot [index] of the shared list. *)
Definition slot_worker {R} (p : prog World (result R)) (index : nat)
  : prog (World * list (option R)) (result unit) :=
  and_then (zoom p) (fun r =>
    atomic (fun st : World * list (option R) =>
              (Return tt, (st.1, <[index := Some r]> st.2)))).

(** What a slot holds once its worker is through: the value returned, or
    nothing when the worker ended on an exception. *)
Definition slot_final {R} (Q : result R -> Prop) (slot : option R) : Prop :=
  match slot with
  | Some r => Q (Return r)
  | None => exists e, Q (Raise e)
  end.

(** The two states of worker [i] of a pool of slot workers: still
    computing, its slot empty, or through, its slot written. *)
Inductive thread_inv {R} (Q : result R -> Prop) (i : nat)
    (slots : list (option R))
  : prog (World * list (option R)) (result unit) -> Prop :=
| thread_pending p :
    returns_only Q p -> slots !! i = Some None ->
    thread_inv Q i slots (slot_worker p i)
| thread_done r u :
    slots !! i = Some (Some r) -> Q (Return r) ->
    thread_inv Q i slots (Ret u).

(** The result of reading [filepath] under the snapshot: its words, and
    some elapsed time. *)
Definition file_result_of (fs : FileSystem) (filepath : string)
    (r : result FileResult) : Prop :=
  exists t, r = Return (filepath, words_of_file fs filepath, t).

(** A batch over [filepaths]: the words of the files, file after file in
    the order of the list. *)
Definition batch_of (fs : FileSystem) (filepaths : list string) (label : string)
    (r : result BatchResult) : Prop :=
  exists b, r = Return b
            /\ words b = concat (map (words_of_file fs) filepaths)
            /\ method b = label.

(** The statistics of a word list, as the direct count gives them, with
    some computation time. *)
Definition stats_of (W : list string) (r : result Statistics) : Prop :=
  exists t,
    r = Return (mkStats (sum (values (count_words_simple W)))
                        (len (count_words_simple W))
                        (count_words_simple W)
                        (get_top_words (count_words_simple W) 10)
                        t).

(** A console that takes every line: no [print] raises. *)
Definition accepts_every_line (out : Console) : Prop :=
  forall l, write_error out l = None.

(** A world, two consoles and three snapshots for the examples. *)
Definition world0 : World := mkWorld (fun k => Z.of_nat k * 10) 0 [].

(** A console with an encoding that has every character. *)
Definition console0 : Console := mkConsole (fun _ => None).

(** A console whose encoding is ASCII: a line with a character from
    U+0080 on raises UnicodeEncodeError.  The numbers and the seconds of
    a line are digits, signs and points. *)
Definition is_ascii (s : string) : bool :=
  all_chars (fun c => (nat_of_ascii c <? 128)%nat) s.

Definition frag_is_ascii (f : frag) : bool :=
  match f with
  | Lit s => is_ascii s
  | Int _ | Seconds4 _ => true
  | Err e => is_ascii (exn_msg e)
  end.

Definition UnicodeEncodeError : exn :=
  Exn "UnicodeEncodeError" "'ascii' codec can't encode character".

Definition console_ascii : Console :=
  mkConsole (fun l => if forallb frag_is_ascii l then None
                      else Some UnicodeEncodeError).

Definition fs_demo : FileSystem :=
  mkFS (fun folder => if String.eqb folder "data"
                      then Return ["a.txt"; "notes.md"; "b.txt"; "gone.txt"]
                      else Raise (Exn "FileNotFoundError" folder))
       (fun p => if String.eqb p "data/a.txt" then Return "Hello, World! 123 foo-bar"
                 else if String.eqb p "data/b.txt" then Return "To be, or not to be"
                 else Raise (Exn "FileNotFoundError" p)).

Definition fs_empty : FileSystem :=
  mkFS (fun folder => if String.eqb folder "data"
                      then Return ["notes.md"]
                      else Raise (Exn "FileNotFoundError" folder))
       (fun p => Raise (Exn "FileNotFoundError" p)).

(** A folder with a file whose name has a character beyond ASCII,
    U+00E9; both files can be read. *)
Definition cafe_txt : string := "caf" +:+ String "233" ".txt".

Definition fs_accent : FileSystem :=
  mkFS (fun folder => if String.eqb folder "data"
                      then Return ["a.txt"; cafe_txt]
                      else Raise (Exn "FileNotFoundError" folder))
       (fun p => if String.eqb p "data/a.txt" then Return "Hello, World!"
                 else if String.eqb p ("data/" +:+ cafe_txt)
                      then Return "To be, or not to be"
                      else Raise (Exn "FileNotFoundError" p)).

(** The same folder when the second file cannot be read. *)
Definition fs_unreadable : FileSystem :=
  mkFS (listdir fs_accent)
       (fun p => if String.eqb p "data/a.txt" then Return "Hello, World!"
                 else Raise (Exn "FileNotFoundError" "No such file")).

(** ** Report writer (text_processor.py, lines 298-356; main.py, lines
    63-64, 79-84 and 129-144) *)

(** A piece of a string that is written to a file: text, a formatted
    number, or a character beyond the 8-bit range, by its code point. *)
Inductive wfrag :=
| WLit (s : string)
| WInt (z : Z)
| WSeconds4 (t : Time)    (* {t:.4f} *)
| WChar (codepoint : Z).

(** One string passed to [f.write]. *)
Definition written := list wfrag.

Definition newline : string := String "010" "".

(** The en dash of the ranking lines. *)
Definition en_dash : wfrag := WChar 8211.

(** The output side of the file system: the exception, if any, that
    [os.makedirs(path, exist_ok=True)] and [open(path, 'w',
    encoding='utf-8')] raise for a path, and the contents of the files
    written, each the list of the strings written to it.  A write to an
    open file is taken to succeed. *)
Record Disk := mkDisk {
  makedirs_error : string -> option exn;
  open_error : string -> option exn;
  files : gmap string (list written)
}.

Definition os_makedirs (path : string) : prog (World * Disk) (result unit) :=
  atomic (fun st : World * Disk =>
            (match makedirs_error st.2 path with
             | Some e => Raise e
             | None => Return tt
             end, st)).

(** [open(path, 'w', encoding='utf-8')]: the file is created or emptied. *)
Definition open_w (path : string) : prog (World * Disk) (result unit) :=
  atomic (fun st : World * Disk =>
            match open_error st.2 path with
            | Some e => (Raise e, st)
            | None =>
                (Return tt,
                 (st.1, mkDisk (makedirs_error st.2) (open_error st.2)
                               (<[path := []]> (files st.2))))
            end).

(** [f.write(s)] on the file opened at [path]. *)
Definition f_write (path : string) (s : written)
  : prog (World * Disk) (result unit) :=
  atomic (fun st : World * Disk =>
            (Return tt,
             (st.1, mkDisk (makedirs_error st.2) (open_error st.2)
                           (alter (fun content => content ++ [s]) path
                                  (files st.2))))).

(** [print] from code that also writes files. *)
Definition print_out (out : Console) (l : line)
  : prog (World * Disk) (result unit) :=
  zoom (print out l).

(** [for x in xs: body x], for a body that keeps no state. *)
Definition for_each {S A} (xs : list A) (body : A -> prog S (result unit))
  : prog S (result unit) :=
  for_loop xs (fun x _ => body x) tt.

Definition IndexError (msg : string) : exn := Exn "IndexError" msg.
Definition KeyError (key : string) : exn := Exn "KeyError" key.

(** [sorted(l)] on strings: ascending by code point, a proper prefix
    first. *)
Fixpoint insert_str (x : string) (l : list string) : list string :=
  match l with
  | [] => [x]
  | y :: l' => if String.leb x y then x :: y :: l' else y :: insert_str x l'
  end.

Definition sorted_str (l : list string) : list string := foldr insert_str [] l.

(** [s * n] on strings *)
Fixpoint str_repeat (s : string) (n : nat) : string :=
  match n with
  | O => ""
  | S n' => s +:+ str_repeat s n'
  end.

(** [enumerate(l, start=1)] *)
Definition enumerate1 {A} (l : list A) : list (Z * A) :=
  imap (fun i x => (Z.of_nat i + 1, x)) l.

(** A result dict as [write_output_files] reads it: a key it looks up may
    be missing. *)
Record ResultDict := mkResult {
  get_words : option (list string);
  get_total_time : option Time;
  get_computation_time : option Time
}.

(** The dict a strategy returns: it has 'words' and 'total_time', and no
    'computation_time'. *)
Definition result_dict (b : BatchResult) : ResultDict :=
  mkResult (Some (words b)) (Some (total_time b)) None.

(** [result['words']] *)
Definition getitem_words (r : ResultDict) : result (list string) :=
  match get_words r with
  | Some ws => Return ws
  | None => Raise (KeyError "words")
  end.

(** [list(all_results.keys())[0]] *)
Definition first_key {V} (d : list (string * V)) : result string :=
  match d with
  | [] => Raise (IndexError "list index out of range")
  | (k, _) :: _ => Return k
  end.

(** [d[k]] on a dict with string keys *)
Fixpoint getitem {V} (d : list (string * V)) (k : string) : result V :=
  match d with
  | [] => Raise (KeyError k)
  | (k', v) :: d' => if String.eqb k' k then Return v else getitem d' k
  end.

(** [sorted(all_results.items(), key=lambda x: x[1].get('total_time',
    float('inf')))]: ascending and stable; [None] is the default, which
    no time exceeds. *)
Definition time_leb (a b : option Time) : bool :=
  match a, b with
  | _, None => true
  | None, Some _ => false
  | Some x, Some y => x <=? y
  end.

Fixpoint insert_by_time (x : string * ResultDict)
    (l : list (string * ResultDict)) : list (string * ResultDict) :=
  match l with
  | [] => [x]
  | y :: l' =>
      if time_leb (get_total_time x.2) (get_total_time y.2)
      then x :: y :: l'
      else y :: insert_by_time x l'
  end.

Definition sorted_by_time (l : list (string * ResultDict))
  : list (string * ResultDict) :=
  foldr insert_by_time [] l.

Definition write_output_files (out : Console)
    (all_results : list (string * ResultDict))
    (output_folder : string) : prog (World * Disk) (result unit) :=
  let! _ := os_makedirs output_folder in
  let! primary_method := mret (first_key all_results) in
  let! primary := mret (getitem all_results primary_method) in
  let! words := mret (getitem_words primary) in
  let word_counter := count_words_simple words in
  let top_words := get_top_words word_counter 10 in
  let unique_words := sorted_str (keys word_counter) in
  let vocab_path := path_join output_folder "vocabulary.txt" in
  let! _ := open_w vocab_path in
  let! _ := for_each unique_words
            (fun word => f_write vocab_path [WLit word; WLit newline]) in
  let stats_path := path_join output_folder "vocabulary_stats.txt" in
  let! _ := open_w stats_path in
  let! _ := f_write stats_path [WLit "Total words: "; WInt (len words); WLit newline] in
  let! _ := f_write stats_path [WLit "Unique words: "; WInt (len unique_words);
                              WLit newline; WLit newline] in
  let! _ := f_write stats_path [WLit "Top 10 most common words:"; WLit newline] in
  let! _ := for_each (enumerate1 top_words)
            (fun '(i, (word, count)) =>
               f_write stats_path [WInt i; WLit ". "; WLit word; WLit " ";
                                   en_dash; WLit " "; WInt count; WLit newline]) in
  let! _ := f_write stats_path [WLit newline] in
  let comparison_path := path_join output_folder "performance_comparison.txt" in
  let! _ := open_w comparison_path in
  let! _ := f_write comparison_path
            [WLit "CONCURRENCY PERFORMANCE COMPARISON REPORT"; WLit newline] in
  let! _ := f_write comparison_path
            [WLit (str_repeat "=" 50); WLit newline; WLit newline] in
  let! _ := f_write comparison_path [WLit "System Information:"; WLit newline] in
  let! _ := f_write comparison_path
            [WLit "- CPU Cores: 4 (fixed pool size)"; WLit newline; WLit newline] in
  let! _ := f_write comparison_path
            [WLit "Processing Method Performance:"; WLit newline] in
  let! _ := f_write comparison_path [WLit (str_repeat "-" 40); WLit newline] in
  let sorted_methods := sorted_by_time all_results in
  let! _ := for_each sorted_methods
            (fun '(method, result) =>
               let! _ := f_write comparison_path
                         [WLit "Method: "; WLit method; WLit newline] in
               let! result_words := mret (getitem_words result) in
               let! _ := f_write comparison_path
                         [WLit "  Words Processed: "; WInt (len result_words);
                          WLit newline] in
               let! _ := match get_total_time result with
                       | Some total_time =>
                           f_write comparison_path
                             [WLit "  Total Time: "; WSeconds4 total_time;
                              WLit " seconds"; WLit newline]
                       | None => mret (Return tt)
                       end in
               let! _ := match get_computation_time result with
                       | Some computation_time =>
                           f_write comparison_path
                             [WLit "  Statistics Computation Time: ";
                              WSeconds4 computation_time;
                              WLit " seconds"; WLit newline]
                       | None => mret (Return tt)
                       end in
               f_write comparison_path [WLit newline]) in
  let! _ := print_out out [Lit newline; Lit "[INFO] Output files written to '";
                     Lit output_folder; Lit "' folder"] in
  let! _ := print_out out [Lit "Files created:"] in
  let! _ := print_out out [Lit "  - vocabulary.txt (sorted unique words)"] in
  let! _ := print_out out [Lit "  - vocabulary_stats.txt (traditional format)"] in
  print_out out
    [Lit "  - performance_comparison.txt (detailed timing analysis)"].

(** main.py, lines 129-144; [stats] is the dict that
    [compute_word_statistics_simple] returns. *)
Definition write_traditional_output_files (stats : Statistics)
    (output_folder : string) : prog (World * Disk) (result unit) :=
  let vocab_path := path_join output_folder "vocabulary.txt" in
  let! _ := open_w vocab_path in
  let! _ := for_each (sorted_str (keys (frequencies stats)))
            (fun word => f_write vocab_path [WLit word; WLit newline]) in
  let stats_path := path_join output_folder "vocabulary_stats.txt" in
  let! _ := open_w stats_path in
  let! _ := f_write stats_path
            [WLit "Total words: "; WInt (total_words stats); WLit newline] in
  let! _ := f_write stats_path
            [WLit "Unique words: "; WInt (unique_words stats);
             WLit newline; WLit newline] in
  let! _ := f_write stats_path [WLit "Top 10 most common words:"; WLit newline] in
  for_each (enumerate1 (top_10 stats))
    (fun '(i, (word, count)) =>
       f_write stats_path [WInt i; WLit ". "; WLit word; WLit " ";
                           WInt count; WLit newline]).

(** main.py, lines 63-64 and 79-84: the two calls of [main] that write the
    files, on the values [main] has computed.  The lines [main] prints
    before and between them (66-78) are left out, as they are in
    [main]. *)
Definition main_write_outputs (out : Console) (v : MainValues)
  : prog (World * Disk) (result unit) :=
  let output_folder := "output" in
  let final_stats := stats_threading v in
  let! _ := write_output_files out
            (map (fun kb : string * BatchResult => (kb.1, result_dict kb.2))
                 (all_results v))
            output_folder in
  write_traditional_output_files final_stats output_folder.

(** A disk on which everything may be written and nothing is yet. *)
Definition disk0 : Disk := mkDisk (fun _ => None) (fun _ => None) ∅.


(** ** Definitions used to state the properties of the report writer *)

(** The state after [path] has been opened for writing and the strings
    [ss] have been written to it. *)
Definition write_file (path : string) (ss : list written) (st : World * Disk)
  : World * Disk :=
  (st.1, mkDisk (makedirs_error st.2) (open_error st.2)
                (<[path := ss]> (files st.2))).

(** The state after the lines [ls] have been printed. *)
Definition printed (ls : list line) (st : World * Disk) : World * Disk :=
  (mkWorld (clock st.1) (reads st.1) (stdout st.1 ++ ls), st.2).

(** One string per word, the word and a line break. *)
Definition vocabulary_lines (vocabulary : list string) : list written :=
  map (fun word => [WLit word; WLit newline]) vocabulary.

(** The strings of vocabulary_stats.txt: with the en dash and a closing
    line break as [write_output_files] writes them, without as
    [write_traditional_output_files] does. *)
Definition ranking_line (dash : bool) (entry : Z * (string * Z)) : written :=
  let '(i, (word, count)) := entry in
  if dash
  then [WInt i; WLit ". "; WLit word; WLit " "; en_dash; WLit " "; WInt count;
        WLit newline]
  else [WInt i; WLit ". "; WLit word; WLit " "; WInt count; WLit newline].

Definition stats_lines (dash : bool) (total unique : Z)
    (top : list (string * Z)) : list written :=
  [[WLit "Total words: "; WInt total; WLit newline];
   [WLit "Unique words: "; WInt unique; WLit newline; WLit newline];
   [WLit "Top 10 most common words:"; WLit newline]]
  ++ map (ranking_line dash) (enumerate1 top)
  ++ (if dash then [[WLit newline]] else []).

(** The strings of performance_comparison.txt: the heading, and the block
    of one method. *)
Definition performance_heading : list written :=
  [[WLit "CONCURRENCY PERFORMANCE COMPARISON REPORT"; WLit newline];
   [WLit (str_repeat "=" 50); WLit newline; WLit newline];
   [WLit "System Information:"; WLit newline];
   [WLit "- CPU Cores: 4 (fixed pool size)"; WLit newline; WLit newline];
   [WLit "Processing Method Performance:"; WLit newline];
   [WLit (str_repeat "-" 40); WLit newline]].

Definition method_block (entry : string * ResultDict) : list written :=
  match get_words entry.2 with
  | None => [[WLit "Method: "; WLit entry.1; WLit newline]]
  | Some ws =>
      [[WLit "Method: "; WLit entry.1; WLit newline];
       [WLit "  Words Processed: "; WInt (len ws); WLit newline]]
      ++ match get_total_time entry.2 with
         | Some t => [[WLit "  Total Time: "; WSeconds4 t; WLit " seconds";
                       WLit newline]]
         | None => []
         end
      ++ match get_computation_time entry.2 with
         | Some t => [[WLit "  Statistics Computation Time: "; WSeconds4 t;
                       WLit " seconds"; WLit newline]]
         | None => []
         end
      ++ [[WLit newline]]
  end.

(** The five lines [write_output_files] prints when it is through. *)
Definition closing_lines (output_folder : string) : list line :=
  [[Lit newline; Lit "[INFO] Output files written to '"; Lit output_folder;
    Lit "' folder"];
   [Lit "Files created:"];
   [Lit "  - vocabulary.txt (sorted unique words)"];
   [Lit "  - vocabulary_stats.txt (traditional format)"];
   [Lit "  - performance_comparison.txt (detailed timing analysis)"]].

(** Results for the examples. *)
Definition demo_results : list (string * ResultDict) :=
  [("sequential", mkResult (Some ["to"; "be"; "or"; "not"; "to"; "be"]) (Some 70) None);
   ("multiprocessing", mkResult (Some ["to"; "be"]) (Some 30) None);
   ("threading", mkResult (Some ["be"]) (Some 30) (Some 5))].

(** Nothing stands in the way of writing the three files under
    [output_folder] and of printing the closing lines. *)
Definition can_write_outputs (out : Console) (st : World * Disk)
    (output_folder : string) : Prop :=
  makedirs_error st.2 output_folder = None
  /\ open_error st.2 (path_join output_folder "vocabulary.txt") = None
  /\ open_error st.2 (path_join output_folder "vocabulary_stats.txt") = None
  /\ open_error st.2 (path_join output_folder "performance_comparison.txt") = None
  /\ Forall (fun l => write_error out l = None) (closing_lines output_folder).

(** Every result has its 'words', and the first one has [ws]. *)
Definition results_with_words (all_results : list (string * ResultDict))
    (ws : list string) : Prop :=
  (exists k r rest, all_results = (k, r) :: rest /\ get_words r = Some ws)
  /\ Forall (fun entry => get_words entry.2 <> None) all_results.

(** The ways in which [write_output_files] fails with [e] before it has
    opened a file: the folder cannot be made; there is no result; the
    first result has no 'words'; vocabulary.txt cannot be opened. *)
Definition fails_early (all_results : list (string * ResultDict))
    (output_folder : string) (st : World * Disk) (e : exn) : Prop :=
  makedirs_error st.2 output_folder = Some e
  \/ (makedirs_error st.2 output_folder = None
      /\ ((all_results = [] /\ e = IndexError "list index out of range")
          \/ (exists k r rest, all_results = (k, r) :: rest
                /\ ((get_words r = None /\ e = KeyError "words")
                    \/ ((exists ws, get_words r = Some ws)
                        /\ open_error st.2 (path_join output_folder "vocabulary.txt")
                           = Some e))))).


(** A disk on which vocabulary_stats.txt cannot be opened. *)
Definition disk_no_stats : Disk :=
  mkDisk (fun _ => None)
         (fun p => if String.eqb p "output/vocabulary_stats.txt"
                   then Some (Exn "PermissionError" p) else None)
         ∅.

(** Statistics for the examples. *)
Definition demo_stats : Statistics :=
  mkStats 6 4 [("to", 2); ("be", 2); ("or", 1); ("not", 1)]
          [("to", 2); ("be", 2); ("or", 1); ("not", 1)] 10.

(** * Properties *)

(** ** Facts about dicts *)

Section DictFacts.

Implicit Types (d acc : dict) (k w : string) (v n : Z).

Lemma add_count_nil k n : add_count [] k n = [(k, n)].
Proof. reflexivity. Qed.

Lemma add_count_cons_eq d k v n :
  add_count ((k, v) :: d) k n = (k, v + n) :: d.
Proof. unfold add_count; simpl. rewrite String.eqb_refl. reflexivity. Qed.

Lemma add_count_cons_ne d k k' v n :
  k' <> k -> add_count ((k', v) :: d) k n = (k', v) :: add_count d k n.
Proof.
  intros Hne. apply String.eqb_neq in Hne.
  unfold add_count; simpl. rewrite Hne. reflexivity.
Qed.

Lemma get_lookup d k v : get d k v = default v (lookup d k).
Proof.
  induction d as [|[k' v'] d IH]; simpl; [reflexivity|].
  destruct (String.eqb k' k); [reflexivity|exact IH].
Qed.

Lemma lookup_None_keys d k : lookup d k = None <-> k ∉ keys d.
Proof.
  induction d as [|[k' v'] d IH]; simpl.
  - split; [intros _; apply not_elem_of_nil | reflexivity].
  - rewrite not_elem_of_cons.
    destruct (String.eqb_spec k' k) as [->|Hne]; split.
    + discriminate.
    + intros [Hk _]. congruence.
    + intros H. split; [congruence | apply IH, H].
    + intros [_ H]. apply IH, H.
Qed.

Lemma lookup_Some_keys d k v : lookup d k = Some v -> k ∈ keys d.
Proof.
  intros H. destruct (decide (k ∈ keys d)) as [|Hn]; [assumption|].
  apply lookup_None_keys in Hn. congruence.
Qed.

Lemma lookup_add_count d k n k' :
  lookup (add_count d k n) k'
  = if String.eqb k k' then Some (get d k 0 + n) else lookup d k'.
Proof.
  induction d as [|[k0 v0] d IH].
  - rewrite add_count_nil. simpl. reflexivity.
  - destruct (String.eqb_spec k0 k) as [->|Hne].
    + rewrite add_count_cons_eq. simpl. rewrite String.eqb_refl.
      destruct (String.eqb k k'); reflexivity.
    + rewrite add_count_cons_ne by assumption. simpl. rewrite IH.
      apply String.eqb_neq in Hne as Hb. rewrite Hb.
      destruct (String.eqb_spec k0 k') as [->|Hne'];
        destruct (String.eqb_spec k k') as [->|Hne'']; congruence.
Qed.

Lemma keys_add_count d k n :
  keys (add_count d k n) = if decide (k ∈ keys d) then keys d else keys d ++ [k].
Proof.
  induction d as [|[k0 v0] d IH].
  - reflexivity.
  - destruct (String.eqb_spec k0 k) as [->|Hne].
    + rewrite add_count_cons_eq. simpl.
      rewrite decide_True by apply list_elem_of_here. reflexivity.
    + rewrite add_count_cons_ne by assumption. simpl. rewrite IH.
      destruct (decide (k ∈ keys d)) as [H|H].
      * rewrite decide_True by (apply list_elem_of_further, H). reflexivity.
      * rewrite decide_False; [reflexivity|].
        rewrite elem_of_cons. intros [?|?]; congruence.
Qed.

Lemma elem_of_keys_add_count d k n k' :
  k' ∈ keys (add_count d k n) <-> k' = k \/ k' ∈ keys d.
Proof.
  rewrite keys_add_count. destruct (decide (k ∈ keys d)) as [H|H].
  - split; [auto|]. intros [->|?]; assumption.
  - rewrite elem_of_app, list_elem_of_singleton. tauto.
Qed.

Lemma wf_add_count d k n : wf_dict d -> wf_dict (add_count d k n).
Proof.
  unfold wf_dict. intros Hd. rewrite keys_add_count.
  destruct (decide (k ∈ keys d)) as [H|H]; [assumption|].
  apply NoDup_app. split; [assumption|]. split.
  - intros x Hx Hk. apply list_elem_of_singleton in Hk as ->. contradiction.
  - apply NoDup_singleton.
Qed.

Lemma wf_nil : wf_dict [].
Proof. apply NoDup_nil_2. Qed.

Lemma wf_cons_inv k v d : wf_dict ((k, v) :: d) -> (k ∉ keys d) /\ wf_dict d.
Proof. unfold wf_dict; simpl. apply NoDup_cons. Qed.

(** *** Sums of values *)

Lemma fold_add_shift (xs : list Z) (a : Z) :
  fold_left Z.add xs a = a + fold_left Z.add xs 0.
Proof.
  revert a. induction xs as [|x xs IH]; intros a; simpl; [lia|].
  rewrite (IH (a + x)), (IH (0 + x)). lia.
Qed.

Lemma sum_cons (x : Z) (xs : list Z) : sum (x :: xs) = x + sum xs.
Proof. unfold sum; simpl. apply fold_add_shift. Qed.

Lemma sum_values_add_count d k n :
  sum (values (add_count d k n)) = sum (values d) + n.
Proof.
  induction d as [|[k0 v0] d IH].
  - rewrite add_count_nil. unfold sum; simpl. lia.
  - destruct (String.eqb_spec k0 k) as [->|Hne].
    + rewrite add_count_cons_eq. simpl. rewrite !sum_cons. lia.
    + rewrite add_count_cons_ne by assumption. simpl.
      rewrite !sum_cons, IH. lia.
Qed.

(** *** Counting *)

Lemma count_words_simple_count_into W :
  count_words_simple W = count_into [] W.
Proof. reflexivity. Qed.

Lemma count_into_cons acc w W :
  count_into acc (w :: W) = count_into (add_count acc w 1) W.
Proof. reflexivity. Qed.

Lemma count_into_app acc W1 W2 :
  count_into acc (W1 ++ W2) = count_into (count_into acc W1) W2.
Proof. unfold count_into. apply fold_left_app. Qed.

Lemma sum_values_count_into acc W :
  sum (values (count_into acc W)) = sum (values acc) + len W.
Proof.
  revert acc. induction W as [|w W IH]; intros acc.
  - unfold len; simpl. lia.
  - rewrite count_into_cons, IH, sum_values_add_count.
    unfold len; simpl length. lia.
Qed.

Lemma wf_count_into acc W : wf_dict acc -> wf_dict (count_into acc W).
Proof.
  revert acc. induction W as [|w W IH]; intros acc Hacc; [assumption|].
  rewrite count_into_cons. apply IH, wf_add_count, Hacc.
Qed.

Lemma elem_of_keys_count_into acc W w :
  w ∈ keys (count_into acc W) <-> w ∈ keys acc \/ w ∈ W.
Proof.
  revert acc. induction W as [|w' W IH]; intros acc.
  - simpl. rewrite elem_of_nil. tauto.
  - rewrite count_into_cons, IH, elem_of_keys_add_count, elem_of_cons. tauto.
Qed.

Lemma length_count_words_simple W :
  length (count_words_simple W) = distinct_words W.
Proof.
  unfold distinct_words.
  rewrite <- (length_map fst (count_words_simple W)).
  apply Permutation_length, NoDup_Permutation.
  - apply (wf_count_into [] W), wf_nil.
  - apply NoDup_remove_dups.
  - intros w. rewrite elem_of_remove_dups.
    change (map fst (count_words_simple W)) with (keys (count_into [] W)).
    rewrite elem_of_keys_count_into, elem_of_nil. tauto.
Qed.

Lemma lookup_count_into acc W w :
  get (count_into acc W) w 0 = get acc w 0 + occurrences w W.
Proof.
  revert acc. induction W as [|w' W IH]; intros acc.
  - unfold occurrences, len; simpl. lia.
  - rewrite count_into_cons, IH.
    rewrite (get_lookup (add_count _ _ _)), lookup_add_count.
    unfold occurrences, len. simpl List.filter.
    rewrite (String.eqb_sym w w').
    destruct (String.eqb_spec w' w) as [->|Hne]; simpl.
    + lia.
    + rewrite <- get_lookup. lia.
Qed.

End DictFacts.

(** ** Merging *)

Section MergeFacts.

Implicit Types (d acc A B C : dict) (k w : string) (v n : Z).

Lemma merge_counters_fold cs : merge_counters cs = fold_left merge_into cs [].
Proof. reflexivity. Qed.

Lemma merge_into_cons acc k v d :
  merge_into acc ((k, v) :: d) = merge_into (add_count acc k v) d.
Proof. reflexivity. Qed.

Lemma wf_merge_into acc d : wf_dict acc -> wf_dict (merge_into acc d).
Proof.
  revert acc. induction d as [|[k v] d IH]; intros acc Hacc; [assumption|].
  rewrite merge_into_cons. apply IH, wf_add_count, Hacc.
Qed.

Lemma wf_fold_merge cs acc : wf_dict acc -> wf_dict (fold_left merge_into cs acc).
Proof.
  revert acc. induction cs as [|c cs IH]; intros acc Hacc; [assumption|].
  simpl. apply IH, wf_merge_into, Hacc.
Qed.

Lemma wf_merge_counters cs : wf_dict (merge_counters cs).
Proof. rewrite merge_counters_fold. apply wf_fold_merge, wf_nil. Qed.

(** What a key holds after merging a dict into another. *)
Lemma lookup_merge_into acc d k :
  wf_dict d ->
  lookup (merge_into acc d) k
  = match lookup d k with
    | Some v => Some (get acc k 0 + v)
    | None => lookup acc k
    end.
Proof.
  revert acc. induction d as [|[k0 v0] d IH]; intros acc Hd; [reflexivity|].
  apply wf_cons_inv in Hd as [Hk0 Hd].
  rewrite merge_into_cons, IH by assumption. simpl.
  destruct (String.eqb_spec k0 k) as [->|Hne].
  - apply lookup_None_keys in Hk0. rewrite Hk0.
    rewrite lookup_add_count, String.eqb_refl. reflexivity.
  - rewrite (get_lookup (add_count _ _ _)), lookup_add_count.
    apply String.eqb_neq in Hne. rewrite Hne, <- get_lookup. reflexivity.
Qed.

Lemma lookup_merge_nil d k : wf_dict d -> lookup (merge_into [] d) k = lookup d k.
Proof.
  intros Hd. rewrite lookup_merge_into by assumption. simpl.
  destruct (lookup d k); [f_equal; lia | reflexivity].
Qed.

Lemma lookup_merge_two A B k :
  wf_dict A -> wf_dict B ->
  lookup (merge_counters [A; B]) k
  = match lookup A k, lookup B k with
    | Some a, Some b => Some (a + b)
    | Some a, None => Some a
    | None, Some b => Some b
    | None, None => None
    end.
Proof.
  intros HA HB. rewrite merge_counters_fold. simpl.
  rewrite lookup_merge_into, get_lookup, lookup_merge_nil by assumption.
  destruct (lookup A k), (lookup B k); reflexivity.
Qed.

(** *** Map equality *)

Lemma dict_equiv_keys d1 d2 k : dict_equiv d1 d2 -> k ∈ keys d1 -> k ∈ keys d2.
Proof.
  intros He Hk. destruct (decide (k ∈ keys d2)) as [|Hn]; [assumption|].
  apply lookup_None_keys in Hn. rewrite <- He in Hn.
  apply lookup_None_keys in Hn. contradiction.
Qed.

Lemma dict_equiv_length d1 d2 :
  wf_dict d1 -> wf_dict d2 -> dict_equiv d1 d2 -> length d1 = length d2.
Proof.
  intros H1 H2 He.
  rewrite <- (length_map fst d1), <- (length_map fst d2).
  apply Permutation_length, NoDup_Permutation; [exact H1|exact H2|].
  intros k; split; apply dict_equiv_keys; [assumption|].
  intros k'; symmetry; apply He.
Qed.

Lemma lookup_elem_of d k v : wf_dict d -> (k, v) ∈ d -> lookup d k = Some v.
Proof.
  induction d as [|[k0 v0] d IH]; intros Hd Hin.
  - apply elem_of_nil in Hin as [].
  - apply wf_cons_inv in Hd as [Hk0 Hd]. simpl.
    apply elem_of_cons in Hin as [Heq|Hin].
    + inversion Heq; subst. rewrite String.eqb_refl. reflexivity.
    + destruct (String.eqb_spec k0 k) as [->|Hne]; [|apply IH; assumption].
      exfalso. apply Hk0. unfold keys.
      apply (list_elem_of_fmap_2 fst) in Hin. exact Hin.
Qed.

Lemma dict_eqb_equiv d1 d2 :
  wf_dict d1 -> wf_dict d2 -> dict_equiv d1 d2 -> dict_eqb d1 d2 = true.
Proof.
  intros H1 H2 He. unfold dict_eqb. apply andb_true_iff; split.
  - apply Nat.eqb_eq, dict_equiv_length; assumption.
  - apply forallb_forall. intros [k v] Hin. simpl.
    apply list_elem_of_In in Hin.
    rewrite <- He, (lookup_elem_of d1 k v) by assumption.
    apply Z.eqb_refl.
Qed.

(** *** Counting chunk by chunk *)

Lemma add_count_twice d k n m :
  add_count (add_count d k n) k m = add_count d k (n + m).
Proof.
  induction d as [|[k0 v0] d IH].
  - rewrite add_count_nil, add_count_cons_eq, add_count_nil. reflexivity.
  - destruct (String.eqb_spec k0 k) as [->|Hne].
    + rewrite !add_count_cons_eq. do 2 f_equal. lia.
    + rewrite !add_count_cons_ne by assumption. f_equal. exact IH.
Qed.

(** Updates of two keys commute once the first key is in the dict:
    neither moves an entry. *)
Lemma add_count_swap d w n k v :
  w ∈ keys d -> k <> w ->
  add_count (add_count d w n) k v = add_count (add_count d k v) w n.
Proof.
  induction d as [|[k0 v0] d IH]; intros Hw Hne.
  - apply elem_of_nil in Hw as [].
  - destruct (String.eqb_spec k0 w) as [->|Hw0].
    + rewrite add_count_cons_eq, !add_count_cons_ne by congruence.
      rewrite add_count_cons_eq. reflexivity.
    + simpl in Hw. apply elem_of_cons in Hw as [?|Hw]; [congruence|].
      rewrite (add_count_cons_ne d w) by assumption.
      destruct (String.eqb_spec k0 k) as [->|Hk0].
      * rewrite !add_count_cons_eq, add_count_cons_ne by assumption.
        reflexivity.
      * rewrite !add_count_cons_ne by assumption. f_equal.
        apply IH; assumption.
Qed.

Lemma merge_into_add_present d c w n :
  w ∈ keys d -> w ∉ keys c ->
  merge_into (add_count d w n) c = add_count (merge_into d c) w n.
Proof.
  revert d. induction c as [|[k v] c IH]; intros d Hd Hc; [reflexivity|].
  simpl in Hc. apply not_elem_of_cons in Hc as [Hne Hc].
  rewrite !merge_into_cons, add_count_swap by congruence.
  apply IH; [|assumption].
  apply elem_of_keys_add_count. right; assumption.
Qed.

Lemma merge_into_add_count acc c w n :
  wf_dict c ->
  merge_into acc (add_count c w n) = add_count (merge_into acc c) w n.
Proof.
  revert acc. induction c as [|[k v] c IH]; intros acc Hc.
  - rewrite add_count_nil. reflexivity.
  - apply wf_cons_inv in Hc as [Hk Hc].
    destruct (String.eqb_spec k w) as [->|Hne].
    + rewrite add_count_cons_eq, !merge_into_cons.
      rewrite <- add_count_twice.
      apply merge_into_add_present; [|assumption].
      apply elem_of_keys_add_count. left; reflexivity.
    + rewrite add_count_cons_ne by assumption.
      rewrite !merge_into_cons. apply IH, Hc.
Qed.

Lemma merge_into_count_into acc c W :
  wf_dict c ->
  merge_into acc (count_into c W) = count_into (merge_into acc c) W.
Proof.
  revert c. induction W as [|w W IH]; intros c Hc; [reflexivity|].
  rewrite !count_into_cons, IH by (apply wf_add_count, Hc).
  rewrite merge_into_add_count by assumption. reflexivity.
Qed.

Lemma fold_merge_count_chunks acc chunks :
  fold_left merge_into (map count_words_simple chunks) acc
  = count_into acc (concat chunks).
Proof.
  revert acc. induction chunks as [|c chunks IH]; intros acc; [reflexivity|].
  simpl. rewrite IH, count_into_app. f_equal.
  apply (merge_into_count_into acc [] c), wf_nil.
Qed.

(** Merging the counts of consecutive chunks is counting the whole
    list, entry for entry and in the same insertion order. *)
Lemma merge_count_chunks chunks :
  merge_counters (map count_words_simple chunks)
  = count_words_simple (concat chunks).
Proof. rewrite merge_counters_fold. apply fold_merge_count_chunks. Qed.

End MergeFacts.

(** ** Ranking *)

Section SortFacts.

Implicit Types (x y : string * Z) (l : list (string * Z)).

Lemma insert_desc_perm x l : insert_desc x l ≡ₚ x :: l.
Proof.
  induction l as [|y l IH]; simpl; [reflexivity|].
  destruct (snd y <=? snd x); [reflexivity|].
  rewrite IH. apply Permutation_swap.
Qed.

Lemma sorted_by_count_desc_perm l : sorted_by_count_desc l ≡ₚ l.
Proof.
  induction l as [|x l IH]; simpl; [reflexivity|].
  rewrite insert_desc_perm, IH. reflexivity.
Qed.

Lemma length_sorted_by_count_desc l :
  length (sorted_by_count_desc l) = length l.
Proof. apply Permutation_length, sorted_by_count_desc_perm. Qed.

Lemma insert_desc_sorted x l :
  StronglySorted by_count_desc l -> StronglySorted by_count_desc (insert_desc x l).
Proof.
  induction 1 as [|y l Hl IH Hy]; simpl.
  - repeat constructor.
  - destruct (Z.leb_spec (snd y) (snd x)) as [Hle|Hgt].
    + constructor; [constructor; assumption|].
      constructor; [exact Hle|].
      eapply Forall_impl; [exact Hy|].
      unfold by_count_desc. intros z Hz. lia.
    + constructor; [exact IH|].
      rewrite insert_desc_perm. constructor; [|exact Hy].
      unfold by_count_desc. lia.
Qed.

Lemma sorted_by_count_desc_sorted l :
  StronglySorted by_count_desc (sorted_by_count_desc l).
Proof.
  induction l as [|x l IH]; simpl; [constructor|].
  apply insert_desc_sorted, IH.
Qed.

(** The sort is stable: the entries of one count keep their order. *)
Lemma insert_desc_stable (c : Z) x l :
  List.filter (fun y => snd y =? c) (insert_desc x l)
  = List.filter (fun y => snd y =? c) (x :: l).
Proof.
  induction l as [|y l IH]; [reflexivity|].
  simpl insert_desc. destruct (Z.leb_spec (snd y) (snd x)) as [Hle|Hgt];
    [reflexivity|].
  simpl in *. rewrite IH.
  destruct (Z.eqb_spec (snd x) c) as [Hx|Hx]; [|reflexivity].
  destruct (Z.eqb_spec (snd y) c) as [Hy|Hy]; [lia|reflexivity].
Qed.

Lemma sorted_by_count_desc_stable (c : Z) l :
  List.filter (fun y => snd y =? c) (sorted_by_count_desc l)
  = List.filter (fun y => snd y =? c) l.
Proof.
  induction l as [|x l IH]; [reflexivity|].
  simpl sorted_by_count_desc. rewrite insert_desc_stable.
  simpl. rewrite IH. reflexivity.
Qed.

Lemma StronglySorted_take {A} (R : A -> A -> Prop) (l : list A) n :
  StronglySorted R l -> StronglySorted R (take n l).
Proof.
  intros Hl. revert n. induction Hl as [|x l Hl IH Hx]; intros [|n]; simpl;
    try constructor.
  - apply IH.
  - apply Forall_take, Hx.
Qed.

Lemma slice_to_nat {A} (l : list A) (n : nat) :
  slice_to l (Z.of_nat n) = take n l.
Proof.
  unfold slice_to. rewrite (proj2 (Z.leb_le 0 (Z.of_nat n))) by lia.
  rewrite Nat2Z.id. reflexivity.
Qed.

Lemma get_top_words_nat counter (n : nat) :
  get_top_words counter (Z.of_nat n)
  = take n (sorted_by_count_desc (items counter)).
Proof. unfold get_top_words. apply slice_to_nat. Qed.

End SortFacts.

(** ** Chunking *)

Section ChunkFacts.

Implicit Types (W : list string) (acc : list (list string)).

Lemma chunk_loop_concat W cs fuel i acc :
  (0 < cs)%nat -> (length W - i <= fuel)%nat ->
  concat (chunk_loop W cs (range_up fuel i (length W) cs) acc)
  = concat acc ++ drop i W.
Proof.
  intros Hcs. revert i acc. induction fuel as [|fuel IH]; intros i acc Hfuel.
  - simpl. rewrite drop_ge by lia. rewrite app_nil_r. reflexivity.
  - simpl. destruct (Nat.ltb_spec i (length W)) as [Hi|Hi].
    + simpl. destruct (Nat.ltb_spec (i + cs) (length W)) as [Hlt|Hge].
      * rewrite IH by lia. rewrite concat_app. simpl.
        rewrite app_nil_r, <- app_assoc. f_equal.
        unfold slice. replace (i + cs - i)%nat with cs by lia.
        rewrite <- (take_drop cs (drop i W)) at 2.
        rewrite drop_drop. reflexivity.
      * rewrite concat_app. simpl. rewrite app_nil_r. reflexivity.
    + simpl. rewrite drop_ge by lia. rewrite app_nil_r. reflexivity.
Qed.

Lemma make_chunks_small W :
  (length W < 4)%nat ->
  make_chunks W = Raise (ValueError "range() arg 3 must not be zero").
Proof.
  intros H. unfold make_chunks.
  rewrite (Nat.div_small (length W) 4) by assumption. reflexivity.
Qed.

Lemma make_chunks_large W :
  (4 <= length W)%nat ->
  exists chunks, make_chunks W = Return chunks /\ concat chunks = W.
Proof.
  intros H. unfold make_chunks.
  assert (Hcs : (0 < length W / 4)%nat).
  { apply Nat.div_str_pos. lia. }
  destruct (length W / 4)%nat as [|cs] eqn:E; [lia|].
  unfold range. eexists; split; [reflexivity|].
  rewrite Nat.sub_0_r, chunk_loop_concat by lia.
  reflexivity.
Qed.

End ChunkFacts.

(** ** Programs *)

Section ProgFacts.

Context {S : Type}.

Lemma run_bind {A B} (p : prog S A) (f : A -> prog S B) s :
  run (p ≫= f) s = let '(a, s') := run p s in run (f a) s'.
Proof.
  revert s. induction p as [a|X act k IH]; intros s; [reflexivity|].
  simpl. destruct (act s) as [x s']. apply IH.
Qed.

Lemma run_and_then {A B} (p : prog S (result A)) (f : A -> prog S (result B)) s :
  run (and_then p f) s
  = match run p s with
    | (Return a, s') => run (f a) s'
    | (Raise e, s') => (Raise e, s')
    end.
Proof.
  unfold and_then. rewrite run_bind.
  destruct (run p s) as [[a|e] s']; reflexivity.
Qed.

Lemma run_zoom {T R} (p : prog S R) (s : S) (t : T) :
  run (zoom p) (s, t) = let '(r, s') := run p s in (r, (s', t)).
Proof.
  revert s. induction p as [r|X act k IH]; intros s; [reflexivity|].
  simpl. destruct (act s) as [x s']. apply IH.
Qed.

Lemma returns_only_run {R} (P : R -> Prop) (p : prog S R) s :
  returns_only P p -> P (run p s).1.
Proof.
  revert s. induction p as [r|X act k IH]; intros s Hp.
  - exact Hp.
  - simpl in *. specialize (Hp s). destruct (act s) as [x s'].
    apply IH, Hp.
Qed.

Lemma returns_only_bind {A B} (P : A -> Prop) (Q : B -> Prop)
    (p : prog S A) (f : A -> prog S B) :
  returns_only P p -> (forall a, P a -> returns_only Q (f a)) ->
  returns_only Q (p ≫= f).
Proof.
  intros Hp Hf. induction p as [r|X act k IH].
  - apply Hf, Hp.
  - intros s. apply IH, Hp.
Qed.

Lemma returns_only_atomic {X} (P : X -> Prop) (act : S -> X * S) :
  (forall s, P (act s).1) -> returns_only P (atomic act).
Proof. intros H s. apply H. Qed.

Lemma returns_only_impl {R} (P Q : R -> Prop) (p : prog S R) :
  (forall r, P r -> Q r) -> returns_only P p -> returns_only Q p.
Proof.
  intros HPQ Hp. induction p as [r|X act k IH].
  - apply HPQ, Hp.
  - intros s. apply IH, Hp.
Qed.

(** A loop whose body cannot raise returns. *)
Lemma returns_only_for_loop {A B} (I : B -> Prop) (xs : list A)
    (body : A -> B -> prog S (result B)) (acc : B) :
  (forall x b, I b -> returns_only (fun r => exists b', r = Return b' /\ I b') (body x b)) ->
  I acc ->
  returns_only (fun r => exists b', r = Return b' /\ I b') (for_loop xs body acc).
Proof.
  intros Hbody. revert acc. induction xs as [|x xs IH]; intros acc Hacc.
  - simpl. eauto.
  - simpl. eapply returns_only_bind; [apply Hbody, Hacc|].
    intros r (b' & -> & Hb'). apply IH, Hb'.
Qed.

End ProgFacts.

(** ** Interleaved workers *)

Section PoolFacts.

Context {S R : Type}.
Implicit Types (ts : list (prog S R)) (Qs : list (R -> Prop)) (s : S).

(** A program stays within its postcondition at every step of every
    schedule. *)
Lemma thread_step_returns Qs i ts s :
  Forall2 returns_only Qs ts ->
  Forall2 returns_only Qs (thread_step i (ts, s)).1.
Proof.
  intros H. unfold thread_step; simpl.
  destruct (ts !! i) as [[r|X act k]|] eqn:Ei; simpl; try exact H.
  destruct (act s) as [x s'] eqn:Ea; simpl.
  destruct (Forall2_lookup_r _ _ _ _ _ H Ei) as (Q & HQ & Hret).
  rewrite <- (list_insert_id Qs i Q HQ).
  apply Forall2_insert; [exact H|].
  simpl in Hret. specialize (Hret s). rewrite Ea in Hret. exact Hret.
Qed.

Lemma run_schedule_returns Qs sched ts s :
  Forall2 returns_only Qs ts ->
  Forall2 returns_only Qs (run_schedule sched (ts, s)).1.
Proof.
  revert ts s. induction sched as [|i sched IH]; intros ts s H; [exact H|].
  unfold run_schedule; simpl.
  pose proof (thread_step_returns Qs i ts s H) as H'.
  destruct (thread_step i (ts, s)) as [ts' s']. apply IH, H'.
Qed.

Lemma join_all_returns Qs ts s :
  Forall2 returns_only Qs ts ->
  Forall2 (fun Q r => Q r) Qs (join_all ts s).1.
Proof.
  intros H. revert s. induction H as [|Q t Qs ts HQ H IH]; intros s; simpl;
    [constructor|].
  pose proof (returns_only_run Q t s HQ) as Hr.
  destruct (run t s) as [r s1]. specialize (IH s1).
  destruct (join_all ts s1) as [rs s2]. constructor; assumption.
Qed.

(** Whatever the schedule, each worker's value is one it can return. *)
Lemma concurrently_returns Qs ts sched s :
  Forall2 returns_only Qs ts ->
  Forall2 (fun Q r => Q r) Qs (concurrently ts sched s).1.
Proof.
  intros H. unfold concurrently.
  pose proof (run_schedule_returns Qs sched ts s H) as H'.
  destruct (run_schedule sched (ts, s)) as [ts' s'].
  apply join_all_returns, H'.
Qed.

End PoolFacts.

(** ** Workers writing into slots *)

Section SlotFacts.

Context {R : Type}.
Implicit Types (specs : list (nat * (result R -> Prop)))
               (slots : list (option R)) (w : World)
               (ts : list (prog (World * list (option R)) (result unit))).

Lemma thread_inv_ext Q i slots slots' t :
  slots' !! i = slots !! i -> thread_inv Q i slots t -> thread_inv Q i slots' t.
Proof.
  intros He [p Hp Hs | r u Hs HQ].
  - apply thread_pending; [exact Hp|]. rewrite He. exact Hs.
  - apply (thread_done Q i slots' r u); [|exact HQ]. rewrite He. exact Hs.
Qed.

Lemma specs_index_inj specs i j spec spec' :
  NoDup specs.*1 -> specs !! i = Some spec -> specs !! j = Some spec' ->
  spec.1 = spec'.1 -> i = j.
Proof.
  intros Hnd Hi Hj He.
  apply (proj1 (NoDup_alt _) Hnd i j spec.1).
  - rewrite list_lookup_fmap, Hi. reflexivity.
  - rewrite list_lookup_fmap, Hj, He. reflexivity.
Qed.

Lemma run_slot_worker (p : prog World (result R)) i w slots :
  run (slot_worker p i) (w, slots)
  = match run p w with
    | (Return r, w') => (Return tt, (w', <[i := Some r]> slots))
    | (Raise e, w') => (Raise e, (w', slots))
    end.
Proof.
  unfold slot_worker. rewrite run_and_then, run_zoom.
  destruct (run p w) as [[r|e] w']; reflexivity.
Qed.

(** One step of any worker keeps every worker in one of its two states. *)
Lemma slot_step specs i ts w slots :
  NoDup specs.*1 ->
  Forall2 (fun spec t => thread_inv spec.2 spec.1 slots t) specs ts ->
  let st' := thread_step i (ts, (w, slots)) in
  length st'.2.2 = length slots /\
  Forall2 (fun spec t => thread_inv spec.2 spec.1 st'.2.2 t) specs st'.1.
Proof.
  intros Hnd H. unfold thread_step; simpl.
  destruct (ts !! i) as [t|] eqn:Ei; [|split; [reflexivity|exact H]].
  destruct (Forall2_lookup_r _ _ _ _ _ H Ei) as ([idx Q] & Hspec & Hinv).
  simpl in Hinv.
  destruct Hinv as [p Hp Hs | r u Hs HQ]; [|split; [reflexivity|exact H]].
  destruct p as [[r|e]|X act k]; simpl.
  - split; [apply length_insert|].
    apply Forall2_same_length_lookup. split.
    { rewrite length_insert. eapply Forall2_length, H. }
    intros j spec t' Hj Ht'.
    destruct (decide (i = j)) as [<-|Hne].
    + rewrite list_lookup_insert_eq in Ht' by (eapply lookup_lt_Some, Ei).
      injection Ht' as <-. rewrite Hspec in Hj. injection Hj as <-. simpl.
      apply (thread_done Q idx _ r); [|exact Hp].
      apply list_lookup_insert_eq. eapply lookup_lt_Some, Hs.
    + rewrite list_lookup_insert_ne in Ht' by assumption.
      apply (thread_inv_ext _ _ slots).
      * apply list_lookup_insert_ne. intros He. apply Hne.
        eapply (specs_index_inj specs i j (idx, Q) spec); eauto.
      * exact (Forall2_lookup_lr _ specs ts j spec t' H Hj Ht').
  - split; [reflexivity|exact H].
  - destruct (act w) as [x w'] eqn:Ea; simpl.
    split; [reflexivity|].
    rewrite <- (list_insert_id specs i (idx, Q) Hspec).
    apply Forall2_insert; [exact H|]. simpl.
    apply thread_pending; [|exact Hs].
    simpl in Hp. specialize (Hp w). rewrite Ea in Hp. exact Hp.
Qed.

Lemma slot_schedule specs sched ts w slots :
  NoDup specs.*1 ->
  Forall2 (fun spec t => thread_inv spec.2 spec.1 slots t) specs ts ->
  let st' := run_schedule sched (ts, (w, slots)) in
  length st'.2.2 = length slots /\
  Forall2 (fun spec t => thread_inv spec.2 spec.1 st'.2.2 t) specs st'.1.
Proof.
  intros Hnd. revert ts w slots.
  induction sched as [|i sched IH]; intros ts w slots H;
    [split; [reflexivity|exact H]|].
  unfold run_schedule; simpl.
  destruct (slot_step specs i ts w slots Hnd H) as [Hlen H'].
  destruct (thread_step i (ts, (w, slots))) as [ts' [w' slots']].
  simpl in *. rewrite <- Hlen. apply IH, H'.
Qed.

Lemma run_thread_inv Q i slots t w :
  thread_inv Q i slots t ->
  let slots' := (run t (w, slots)).2.2 in
  length slots' = length slots /\
  (forall j, j <> i -> slots' !! j = slots !! j) /\
  exists slot, slots' !! i = Some slot /\ slot_final Q slot.
Proof.
  intros [p Hp Hs | r u Hs HQ]; simpl.
  - rewrite run_slot_worker.
    pose proof (returns_only_run Q p w Hp) as Hr.
    destruct (run p w) as [[r|e] w']; simpl in *.
    + split; [apply length_insert|]. split.
      * intros j Hj. apply list_lookup_insert_ne. congruence.
      * exists (Some r). split; [|exact Hr].
        apply list_lookup_insert_eq. eapply lookup_lt_Some, Hs.
    + split; [reflexivity|]. split; [reflexivity|].
      exists None. split; [exact Hs|]. exists e. exact Hr.
  - split; [reflexivity|]. split; [reflexivity|].
    exists (Some r). split; [exact Hs|exact HQ].
Qed.

Lemma slot_join specs ts w slots :
  NoDup specs.*1 ->
  Forall2 (fun spec t => thread_inv spec.2 spec.1 slots t) specs ts ->
  let slots' := (join_all ts (w, slots)).2.2 in
  length slots' = length slots /\
  (forall j, j ∉ specs.*1 -> slots' !! j = slots !! j) /\
  Forall (fun spec => exists slot, slots' !! spec.1 = Some slot
                                   /\ slot_final spec.2 slot) specs.
Proof.
  intros Hnd H. revert w slots H.
  induction specs as [|[idx Q] specs IH] in ts, Hnd |- *; intros w slots H.
  - apply Forall2_nil_inv_l in H as ->. simpl. auto.
  - apply Forall2_cons_inv_l in H as (t & ts' & Hinv & H & ->).
    simpl in Hnd. apply NoDup_cons in Hnd as [Hidx Hnd].
    simpl in Hinv. simpl join_all.
    destruct (run_thread_inv Q idx slots t w Hinv) as (Hlen1 & Hframe1 & Hfin1).
    destruct (run t (w, slots)) as [r [w1 slots1]]. simpl in Hlen1, Hframe1, Hfin1.
    assert (H1 : Forall2 (fun spec t => thread_inv spec.2 spec.1 slots1 t) specs ts').
    { apply Forall2_same_length_lookup. split; [eapply Forall2_length, H|].
      intros j spec t' Hj Ht'. apply (thread_inv_ext _ _ slots).
      - apply Hframe1. intros He. apply Hidx. rewrite <- He.
        apply list_elem_of_lookup. exists j.
        rewrite list_lookup_fmap, Hj. reflexivity.
      - exact (Forall2_lookup_lr _ specs ts' j spec t' H Hj Ht'). }
    destruct (IH ts' Hnd w1 slots1 H1) as (Hlen2 & Hframe2 & Hfin2).
    destruct (join_all ts' (w1, slots1)) as [rs [w2 slots2]].
    simpl in *. split; [congruence|]. split.
    + intros j Hj. apply not_elem_of_cons in Hj as [Hne Hj].
      rewrite Hframe2 by assumption. apply Hframe1, Hne.
    + constructor; [|exact Hfin2]. simpl.
      rewrite Hframe2 by assumption. exact Hfin1.
Qed.

(** Whatever the schedule, once the workers are joined every slot holds
    what its own worker returned. *)
Lemma slot_workers_final (ps : list (prog World (result R)))
    (Qs : list (result R -> Prop)) sched w :
  Forall2 returns_only Qs ps ->
  Forall2 slot_final Qs
    (concurrently (imap (fun i p => slot_worker p i) ps) sched
                  (w, replicate (length ps) None)).2.2.
Proof.
  intros H. set (specs := imap (fun i Q => (i, Q)) Qs).
  assert (Hlk : forall i spec, specs !! i = Some spec ->
                               spec.1 = i /\ Qs !! i = Some spec.2).
  { intros i spec. unfold specs. rewrite list_lookup_imap.
    destruct (Qs !! i) as [Q|]; simpl; [|discriminate].
    intros [= <-]. auto. }
  assert (Hnd : NoDup specs.*1).
  { apply NoDup_alt. intros i j x. rewrite !list_lookup_fmap.
    destruct (specs !! i) as [si|] eqn:Ei; [|discriminate].
    destruct (specs !! j) as [sj|] eqn:Ej; [|discriminate].
    apply Hlk in Ei as [Ei _]. apply Hlk in Ej as [Ej _].
    simpl. intros [= <-] [= Hx]. congruence. }
  assert (H0 : Forall2 (fun spec t => thread_inv spec.2 spec.1
                                        (replicate (length ps) None) t)
                       specs (imap (fun i p => slot_worker p i) ps)).
  { apply Forall2_same_length_lookup. split.
    { unfold specs. rewrite !length_imap. eapply Forall2_length, H. }
    intros i spec t Hi Ht. apply Hlk in Hi as [<- HQ].
    rewrite list_lookup_imap in Ht.
    destruct (ps !! spec.1) as [p|] eqn:Ep; [|discriminate].
    injection Ht as <-. apply thread_pending.
    - exact (Forall2_lookup_lr _ Qs ps spec.1 spec.2 p H HQ Ep).
    - apply lookup_replicate_2. eapply lookup_lt_Some, Ep. }
  unfold concurrently.
  destruct (slot_schedule specs sched _ w _ Hnd H0) as [Hlen1 H1].
  destruct (run_schedule sched _) as [ts1 [w1 slots1]]. simpl in Hlen1, H1.
  destruct (slot_join specs ts1 w1 slots1 Hnd H1) as (Hlen2 & _ & Hfin).
  simpl. destruct (join_all ts1 (w1, slots1)) as [rs [w2 slots2]].
  simpl in *. rewrite length_replicate in Hlen1.
  apply Forall2_same_length_lookup. split.
  { rewrite Hlen2, Hlen1. eapply Forall2_length, H. }
  intros i Q slot HQ Hslot.
  assert (Hspec : specs !! i = Some (i, Q)).
  { unfold specs. rewrite list_lookup_imap, HQ. reflexivity. }
  apply (proj1 (Forall_lookup _ _) Hfin) in Hspec as (slot' & Hs' & Hf).
  simpl in *. congruence.
Qed.

End SlotFacts.

(** ** Tokenizer *)

Section TokenFacts.

Implicit Types (s text cur gap : string) (ws : list string).

Lemma append_nil_l s : "" +:+ s = s.
Proof. reflexivity. Qed.

Lemma append_cons c s1 s2 : String c s1 +:+ s2 = String c (s1 +:+ s2).
Proof. reflexivity. Qed.

Lemma append_assoc s1 s2 s3 : (s1 +:+ s2) +:+ s3 = s1 +:+ (s2 +:+ s3).
Proof.
  induction s1 as [|c s1 IH]; [reflexivity|].
  rewrite !append_cons, IH. reflexivity.
Qed.

Lemma append_chars s1 s2 :
  String.list_ascii_of_string (s1 +:+ s2)
  = String.list_ascii_of_string s1 ++ String.list_ascii_of_string s2.
Proof.
  induction s1 as [|c s1 IH]; [reflexivity|].
  rewrite append_cons. simpl. rewrite IH. reflexivity.
Qed.

Lemma translate_delete_filter chars s :
  String.list_ascii_of_string (translate_delete chars s)
  = List.filter (fun c => negb (contains chars c)) (String.list_ascii_of_string s).
Proof.
  induction s as [|c s IH]; simpl; [reflexivity|].
  destruct (contains chars c); simpl; rewrite IH; reflexivity.
Qed.

Lemma lower_chars s :
  String.list_ascii_of_string (lower s) = map lower_char (String.list_ascii_of_string s).
Proof. induction s as [|c s IH]; simpl; [reflexivity|]. rewrite IH. reflexivity. Qed.

Lemma in_order_gap gap ws text : in_order ws text -> in_order ws (gap +:+ text).
Proof.
  intros [text'|gap' word ws' text' H]; [constructor|].
  rewrite <- append_assoc. constructor. exact H.
Qed.

Lemma in_order_cons_here word ws text :
  in_order ws text -> in_order (word :: ws) (word +:+ text).
Proof. intros H. apply (in_order_cons "" word ws text H). Qed.

Lemma split_from_in_order cur s : in_order (split_from cur s) (cur +:+ s).
Proof.
  revert cur. induction s as [|c s IH]; intros cur; simpl.
  - destruct cur as [|c' cur']; [constructor|].
    apply (in_order_cons_here (String c' cur') [] ""). constructor.
  - destruct (isspace c).
    + pose proof (in_order_gap (String c "") _ _ (IH "")) as H.
      destruct cur as [|c' cur']; [exact H|].
      apply in_order_cons_here, H.
    + specialize (IH (cur +:+ String c "")).
      rewrite append_assoc in IH. exact IH.
Qed.

Lemma split_in_order s : in_order (split s) s.
Proof. apply (split_from_in_order "" s). Qed.

Lemma filter_in_order (f : string -> bool) ws text :
  in_order ws text -> in_order (List.filter f ws) text.
Proof.
  induction 1 as [text|gap word ws text H IH]; simpl; [constructor|].
  destruct (f word); [constructor; exact IH|].
  rewrite <- append_assoc. apply in_order_gap, IH.
Qed.

Lemma clean_words_in_order text :
  in_order (clean_words text) (translate_delete punctuation text).
Proof. apply filter_in_order, split_in_order. Qed.

(** The characters of the tokens are the characters that are not
    whitespace, none lost and none moved. *)
Lemma split_from_chars cur s :
  (forall c, c ∈ String.list_ascii_of_string cur -> isspace c = false) ->
  concat (map String.list_ascii_of_string (split_from cur s))
  = String.list_ascii_of_string cur
    ++ List.filter (fun c => negb (isspace c)) (String.list_ascii_of_string s).
Proof.
  revert cur. induction s as [|c s IH]; intros cur Hcur; simpl.
  - destruct cur; simpl; rewrite ?app_nil_r; reflexivity.
  - destruct (isspace c) eqn:Ec; simpl.
    + specialize (IH "" ltac:(intros c' Hc'; apply elem_of_nil in Hc' as [])).
      destruct cur; simpl in *; rewrite IH; reflexivity.
    + rewrite IH.
      * rewrite append_chars, <- app_assoc. reflexivity.
      * intros c' Hc'. rewrite append_chars in Hc'.
        apply elem_of_app in Hc' as [?|Hc']; [auto|].
        apply list_elem_of_singleton in Hc' as ->. exact Ec.
Qed.

Lemma split_chars s :
  concat (map String.list_ascii_of_string (split s))
  = List.filter (fun c => negb (isspace c)) (String.list_ascii_of_string s).
Proof.
  apply (split_from_chars "" s). intros c Hc. apply elem_of_nil in Hc as [].
Qed.

End TokenFacts.

(** ** Reading one file *)

Section ReadFacts.

Variable out : Console.
Variable fs : FileSystem.
Implicit Types (filepath : string) (w : World).

Lemma read_and_clean_file_standalone_eq filepath :
  read_and_clean_file_standalone out fs filepath
  = read_and_clean_file out fs filepath.
Proof. reflexivity. Qed.

(** What one call does to the world and what it returns.  The line about
    the file is printed inside the [try]: when the console refuses it the
    handler takes over, reads the clock once more and reports a readable
    file as an error; the line of the handler is printed outside any
    [try], and an exception of its [print] leaves the function. *)
Lemma run_read_and_clean_file filepath w :
  let elapsed := clock w (S (reads w)) - clock w (reads w) in
  let elapsed' := clock w (S (S (reads w))) - clock w (reads w) in
  let error_line e := [Lit "[ERROR] Error reading "; Lit filepath;
                       Lit ": "; Err e] in
  let handler n t e :=
    match write_error out (error_line e) with
    | None => (Return (filepath, [], t),
               mkWorld (clock w) n (stdout w ++ [error_line e]))
    | Some e' => (Raise e', mkWorld (clock w) n (stdout w))
    end in
  run (read_and_clean_file out fs filepath) w
  = match read_text fs filepath with
    | Return contents =>
        let words := clean_words (lower contents) in
        let info_line := [Lit "[INFO] Processed "; Lit (basename filepath);
                          Lit ": "; Int (len words); Lit " words in ";
                          Seconds4 elapsed; Lit " seconds"] in
        match write_error out info_line with
        | None => (Return (filepath, words, elapsed),
                   mkWorld (clock w) (S (S (reads w)))
                           (stdout w ++ [info_line]))
        | Some e => handler (S (S (S (reads w)))) elapsed' e
        end
    | Raise e => handler (S (S (reads w))) elapsed e
    end.
Proof.
  unfold read_and_clean_file; simpl.
  destruct (read_text fs filepath) as [contents|e]; simpl.
  - destruct (write_error out _) as [e|]; simpl; [|reflexivity].
    destruct (write_error out _) as [e'|]; reflexivity.
  - destruct (write_error out _) as [e'|]; reflexivity.
Qed.

Hypothesis Hout : accepts_every_line out.

Lemma read_and_clean_file_returns filepath :
  returns_only
    (fun r => exists t, r = Return (filepath, words_of_file fs filepath, t))
    (read_and_clean_file out fs filepath).
Proof.
  unfold read_and_clean_file, words_of_file; simpl. intros w w'.
  destruct (read_text fs filepath) as [contents|e]; simpl; intros;
    rewrite Hout; simpl; eauto.
Qed.

End ReadFacts.

(** ** The three strategies *)

Section StrategyFacts.

Variable out : Console.
Variable fs : FileSystem.
Hypothesis Hout : accepts_every_line out.
Implicit Types (filepaths : list string) (acc : list string) (tstart : Time).

Lemma returns_only_and_then {S A B} (P : result A -> Prop)
    (Q : result B -> Prop) (p : prog S (result A))
    (f : A -> prog S (result B)) :
  returns_only P p ->
  (forall a, P (Return a) -> returns_only Q (f a)) ->
  (forall e, P (Raise e) -> Q (Raise e)) ->
  returns_only Q (and_then p f).
Proof.
  intros Hp Hf He. unfold and_then.
  eapply returns_only_bind; [exact Hp|].
  intros [a|e] Hr; [apply Hf, Hr|apply He, Hr].
Qed.

Lemma and_then_return {S A B} (a : A) (f : A -> prog S (result B)) :
  and_then (mret (Return a)) f = f a.
Proof. reflexivity. Qed.

Lemma and_then_raise {S A B} (e : exn) (f : A -> prog S (result B)) :
  and_then (mret (Raise e)) f = mret (Raise e).
Proof. reflexivity. Qed.

Lemma sequential_loop_returns filepaths acc tstart :
  returns_only
    (fun r => exists t, r = Return (acc ++ concat (map (words_of_file fs) filepaths), t))
    (for_loop filepaths
       (fun filepath '(all_words, total_processing_time) =>
          and_then (read_and_clean_file out fs filepath)
            (fun '(filepath_result, words, proc_time) =>
               mret (Return (all_words ++ words,
                             total_processing_time + proc_time))))
       (acc, tstart)).
Proof.
  revert acc tstart. induction filepaths as [|filepath filepaths IH]; intros acc tstart.
  - simpl. rewrite app_nil_r. eauto.
  - simpl for_loop.
    apply (returns_only_and_then
             (fun r => exists t, r = Return (acc ++ words_of_file fs filepath, t))).
    + apply (returns_only_and_then (file_result_of fs filepath)).
      * apply read_and_clean_file_returns, Hout.
      * intros [[p ws] t] [t' [= -> -> ->]]. simpl. eauto.
      * intros e [t' [=]].
    + intros [ws t] [t' [= -> ->]]. simpl concat.
      rewrite app_assoc. apply IH.
    + intros e [t' [=]].
Qed.

Lemma collect_slots_returns {S} filepaths (slots : list (option FileResult)) acc tstart :
  Forall2 slot_final (map (file_result_of fs) filepaths) slots ->
  returns_only (S:=S)
    (fun r => exists t, r = Return (acc ++ concat (map (words_of_file fs) filepaths), t))
    (for_loop slots
       (fun result '(all_words, total_processing_time) =>
          match result with
          | Some (filepath, words, proc_time) =>
              mret (Return (all_words ++ words, total_processing_time + proc_time))
          | None => mret (Return (all_words, total_processing_time))
          end)
       (acc, tstart)).
Proof.
  revert slots acc tstart. induction filepaths as [|filepath filepaths IH];
    intros slots acc tstart H.
  - apply Forall2_nil_inv_l in H as ->. simpl. rewrite app_nil_r. eauto.
  - apply Forall2_cons_inv_l in H as (slot & slots' & Hslot & H & ->).
    destruct slot as [[[p ws] t]|]; simpl in Hslot.
    + destruct Hslot as [t' [= -> -> ->]]. simpl.
      rewrite app_assoc. apply IH, H.
    + destruct Hslot as (e & t' & [=]).
Qed.

Lemma collect_pool_returns {S} filepaths (results : list FileResult) acc tstart :
  Forall2 (fun filepath r => file_result_of fs filepath (Return r))
          filepaths results ->
  returns_only (S:=S)
    (fun r => exists t, r = Return (acc ++ concat (map (words_of_file fs) filepaths), t))
    (for_loop results
       (fun '(filepath, words, proc_time) '(all_words, total_processing_time) =>
          mret (Return (all_words ++ words, total_processing_time + proc_time)))
       (acc, tstart)).
Proof.
  intros H. revert acc tstart.
  induction H as [|filepath [[p ws] t] filepaths results Hr H IH]; intros acc tstart.
  - simpl. rewrite app_nil_r. eauto.
  - destruct Hr as [t' [= -> -> ->]]. simpl.
    rewrite app_assoc. apply IH.
Qed.

Lemma first_raise_files filepaths (rs : list (result FileResult)) :
  Forall2 (fun Q r => Q r) (map (file_result_of fs) filepaths) rs ->
  exists results,
    first_raise rs = Return results
    /\ Forall2 (fun filepath r => file_result_of fs filepath (Return r))
               filepaths results.
Proof.
  revert rs. induction filepaths as [|filepath filepaths IH]; intros rs H.
  - apply Forall2_nil_inv_l in H as ->. exists []. split; constructor.
  - apply Forall2_cons_inv_l in H as (r & rs' & Hr & H & ->).
    destruct (IH rs' H) as (results & E & Hres).
    destruct Hr as [t ->]. simpl. rewrite E.
    eexists; split; [reflexivity|]. constructor; [|exact Hres].
    exists t. reflexivity.
Qed.

Lemma process_with_sequential_returns folder_path filepaths :
  discover fs folder_path = Return filepaths ->
  returns_only (batch_of fs filepaths "sequential")
               (process_with_sequential out fs folder_path).
Proof.
  intros Hd. unfold process_with_sequential. rewrite Hd. simpl.
  rewrite Hout. simpl. intros w1 w2.
  rewrite ?and_then_return.
  eapply returns_only_bind; [apply (sequential_loop_returns filepaths [] 0)|].
  intros r [t ->]. simpl. intros w3. rewrite Hout. simpl. intros w4.
  eexists. split; [reflexivity|]. split; reflexivity.
Qed.

Lemma process_with_threading_returns folder_path sched filepaths :
  discover fs folder_path = Return filepaths ->
  returns_only (batch_of fs filepaths "threading")
               (process_with_threading out fs folder_path sched).
Proof.
  intros Hd. unfold process_with_threading. rewrite Hd. simpl.
  rewrite Hout. simpl. intros w1 w2 w3.
  assert (Hfinal : Forall2 slot_final (map (file_result_of fs) filepaths)
            (concurrently
               (imap (fun i filepath => worker out fs filepath i) filepaths) sched
               (w3, replicate (length filepaths) None)).2.2).
  { pose proof (slot_workers_final (map (read_and_clean_file out fs) filepaths)
                  (map (file_result_of fs) filepaths) sched w3) as H.
    rewrite imap_fmap, length_map in H. apply H.
    apply Forall2_fmap, Forall_Forall2_diag, Forall_forall.
    intros filepath _. apply read_and_clean_file_returns, Hout. }
  destruct (concurrently _ sched _) as [rs [w' slots]]. simpl in *.
  eapply returns_only_bind.
  - apply (collect_slots_returns filepaths slots [] 0), Hfinal.
  - intros r [t ->]. simpl. intros w4. rewrite Hout. simpl. intros w5.
    eexists. split; [reflexivity|]. split; reflexivity.
Qed.

Lemma process_with_multiprocessing_returns folder_path sched filepaths :
  discover fs folder_path = Return filepaths ->
  returns_only (batch_of fs filepaths "multiprocessing")
               (process_with_multiprocessing out fs folder_path sched).
Proof.
  intros Hd. unfold process_with_multiprocessing. rewrite Hd. simpl.
  rewrite Hout. simpl. intros w1 w2 w3.
  pose proof (concurrently_returns (map (file_result_of fs) filepaths)
                (map (read_and_clean_file_standalone out fs) filepaths) sched w3) as Hrs.
  destruct (concurrently _ sched w3) as [rs w']. simpl in *.
  destruct (first_raise_files filepaths rs) as (results & -> & Hres).
  { apply Hrs, Forall2_fmap, Forall_Forall2_diag, Forall_forall.
    intros filepath _. apply read_and_clean_file_returns, Hout. }
  simpl. eapply returns_only_bind.
  - apply (collect_pool_returns filepaths results [] 0), Hres.
  - intros r [t ->]. simpl. intros w4. rewrite Hout. simpl. intros w5.
    eexists. split; [reflexivity|]. split; reflexivity.
Qed.

Lemma process_raises folder_path sched1 sched2 e :
  discover fs folder_path = Raise e ->
  returns_only (fun r => r = Raise e) (process_with_sequential out fs folder_path)
  /\ returns_only (fun r => r = Raise e)
                  (process_with_threading out fs folder_path sched1)
  /\ returns_only (fun r => r = Raise e)
                  (process_with_multiprocessing out fs folder_path sched2).
Proof.
  intros Hd.
  unfold process_with_sequential, process_with_threading,
    process_with_multiprocessing.
  rewrite Hd. simpl. rewrite !Hout. simpl. repeat split; intros; reflexivity.
Qed.

End StrategyFacts.

(** ** The statistics engine *)

Section StatsFacts.

Variable out : Console.
Hypothesis Hout : accepts_every_line out.
Implicit Types (W : list string) (chunks : list (list string)).

Lemma compute_word_statistics_simple_returns W method :
  returns_only (stats_of W) (compute_word_statistics_simple out W method).
Proof.
  unfold compute_word_statistics_simple. simpl.
  rewrite Hout. simpl. intros w1 w2 w3. rewrite Hout. simpl. intros w4.
  eexists. reflexivity.
Qed.

Lemma slots_of_counts chunks (slots : list (option dict)) :
  Forall2 slot_final
    (map (fun chunk r => r = Return (count_words_simple chunk)) chunks) slots ->
  omap id slots = map count_words_simple chunks.
Proof.
  revert slots. induction chunks as [|chunk chunks IH]; intros slots H.
  - apply Forall2_nil_inv_l in H as ->. reflexivity.
  - apply Forall2_cons_inv_l in H as (slot & slots' & Hslot & H & ->).
    destruct slot as [c|]; simpl in Hslot.
    + injection Hslot as ->. simpl. f_equal. apply IH, H.
    + destruct Hslot as [e [=]].
Qed.

Lemma first_raise_counts chunks (rs : list (result dict)) :
  Forall2 (fun Q r => Q r)
    (map (fun chunk r => r = Return (count_words_simple chunk)) chunks) rs ->
  first_raise rs = Return (map count_words_simple chunks).
Proof.
  revert rs. induction chunks as [|chunk chunks IH]; intros rs H.
  - apply Forall2_nil_inv_l in H as ->. reflexivity.
  - apply Forall2_cons_inv_l in H as (r & rs' & -> & H & ->).
    simpl. rewrite (IH rs' H). reflexivity.
Qed.

Lemma compute_stats_threading_returns W sched chunks :
  make_chunks W = Return chunks -> concat chunks = W ->
  returns_only (stats_of W) (_compute_stats_threading_simple out W sched).
Proof.
  intros Hc HW. unfold _compute_stats_threading_simple. rewrite Hc. simpl.
  rewrite Hout. simpl. intros w1 w2 w3.
  assert (Hfinal : Forall2 slot_final
            (map (fun chunk r => r = Return (count_words_simple chunk)) chunks)
            (concurrently
               (imap (fun i chunk => count_words chunk i) chunks) sched
               (w3, replicate (length chunks) None)).2.2).
  { pose proof (slot_workers_final
                  (map (fun chunk => Ret (Return (count_words_simple chunk))) chunks)
                  (map (fun chunk r => r = Return (count_words_simple chunk)) chunks)
                  sched w3) as H.
    rewrite imap_fmap, length_map in H. apply H.
    apply Forall2_fmap, Forall_Forall2_diag, Forall_forall.
    intros chunk _. reflexivity. }
  destruct (concurrently _ sched _) as [rs [w' slots]]. simpl in *.
  intros w4. rewrite Hout. simpl. intros w5.
  rewrite (slots_of_counts chunks slots Hfinal), merge_count_chunks, HW.
  eexists. reflexivity.
Qed.

Lemma compute_stats_multiprocessing_returns W sched chunks :
  make_chunks W = Return chunks -> concat chunks = W ->
  returns_only (stats_of W) (_compute_stats_multiprocessing_simple out W sched).
Proof.
  intros Hc HW. unfold _compute_stats_multiprocessing_simple. rewrite Hc. simpl.
  rewrite Hout. simpl. intros w1 w2 w3.
  pose proof (concurrently_returns
                (map (fun chunk r => r = Return (count_words_simple chunk)) chunks)
                (map count_chunk_standalone chunks) sched w3) as Hrs.
  destruct (concurrently _ sched w3) as [rs w']. simpl in *.
  rewrite (first_raise_counts chunks rs).
  - simpl. intros w4. rewrite Hout. simpl. intros w5.
    rewrite merge_count_chunks, HW. eexists. reflexivity.
  - apply Hrs, Forall2_fmap, Forall_Forall2_diag, Forall_forall.
    intros chunk _. reflexivity.
Qed.

Lemma compute_stats_chunked_raise W sched1 sched2 e :
  make_chunks W = Raise e ->
  returns_only (fun r => r = Raise e) (_compute_stats_threading_simple out W sched1)
  /\ returns_only (fun r => r = Raise e)
                  (_compute_stats_multiprocessing_simple out W sched2).
Proof.
  intros Hc.
  unfold _compute_stats_threading_simple, _compute_stats_multiprocessing_simple.
  rewrite Hc. simpl. rewrite !Hout. simpl. split; intros; reflexivity.
Qed.

End StatsFacts.

(** * The properties of the specification *)

(** ** Word counter and statistics *)

Lemma console0_accepts : accepts_every_line console0.
Proof. intros l. reflexivity. Qed.

(** The fields of two statistics that do not depend on the clock. *)
Lemma stats_of_fields W r1 r2 :
  stats_of W r1 -> stats_of W r2 ->
  exists s1 s2, r1 = Return s1 /\ r2 = Return s2
    /\ total_words s1 = total_words s2
    /\ unique_words s1 = unique_words s2
    /\ frequencies s1 = frequencies s2
    /\ top_10 s1 = top_10 s2.
Proof.
  intros [t1 ->] [t2 ->]. do 2 eexists. repeat split; reflexivity.
Qed.

(** X21: from four words on, and on a console that takes their lines,
    the chunked computations return and agree with the direct count on
    every field but the time, under every schedule:
    the same frequency map, entry for entry and in the same insertion
    order, hence the same top-10 list. *)
Lemma chunked_statistics_agree out W method sched1 sched2 w1 w2 w3 :
  accepts_every_line out ->
  (4 <= length W)%nat ->
  exists s s1 s2,
    (run (compute_word_statistics_simple out W method) w1).1 = Return s
    /\ (run (_compute_stats_threading_simple out W sched1) w2).1 = Return s1
    /\ (run (_compute_stats_multiprocessing_simple out W sched2) w3).1 = Return s2
    /\ frequencies s1 = frequencies s /\ top_10 s1 = top_10 s
    /\ total_words s1 = total_words s /\ unique_words s1 = unique_words s
    /\ frequencies s2 = frequencies s /\ top_10 s2 = top_10 s
    /\ total_words s2 = total_words s /\ unique_words s2 = unique_words s.
Proof.
  intros Hout Hlen. destruct (make_chunks_large W Hlen) as (chunks & Hc & HW).
  pose proof (returns_only_run _ _ w1
                (compute_word_statistics_simple_returns out Hout W method))
    as [t ->].
  pose proof (returns_only_run _ _ w2
                (compute_stats_threading_returns out Hout W sched1 chunks Hc HW))
    as [t1 ->].
  pose proof (returns_only_run _ _ w3
                (compute_stats_multiprocessing_returns out Hout W sched2 chunks
                   Hc HW)) as [t2 ->].
  do 3 eexists. repeat split; reflexivity.
Qed.

(** C1: the direct count and the chunked count-then-merge are to give the
    same frequency map and the same top-10 list for every word list.  On
    the empty word list, the lines of the three functions being printed,
    the direct count returns the zero statistics, while both chunked
    computations raise ValueError, under every schedule: the chunk size
    is 0 and [range] refuses a zero step. *)
Theorem chunked_statistics_fail_on_empty_input out sched1 sched2 w1 w2 w3 :
  accepts_every_line out ->
  (exists t, (run (compute_word_statistics_simple out [] "threading") w1).1
             = Return (mkStats 0 0 [] [] t))
  /\ (run (_compute_stats_threading_simple out [] sched1) w2).1
     = Raise (ValueError "range() arg 3 must not be zero")
  /\ (run (_compute_stats_multiprocessing_simple out [] sched2) w3).1
     = Raise (ValueError "range() arg 3 must not be zero").
Proof.
  intros Hout.
  destruct (compute_stats_chunked_raise out Hout [] sched1 sched2
              (ValueError "range() arg 3 must not be zero") eq_refl)
    as [H1 H2].
  split; [|split].
  - exact (returns_only_run _ _ w1
             (compute_word_statistics_simple_returns out Hout [] "threading")).
  - exact (returns_only_run _ _ w2 H1).
  - exact (returns_only_run _ _ w3 H2).
Qed.

Lemma chunked_statistics_fail_on_empty_input_witness :
  accepts_every_line console0
  /\ (exists t, (run (compute_word_statistics_simple console0 [] "threading")
                    world0).1
                = Return (mkStats 0 0 [] [] t))
  /\ (run (_compute_stats_threading_simple console0 [] [0]%nat) world0).1
     = Raise (ValueError "range() arg 3 must not be zero")
  /\ (run (_compute_stats_multiprocessing_simple console0 [] [0]%nat) world0).1
     = Raise (ValueError "range() arg 3 must not be zero").
Proof.
  split; [exact console0_accepts|].
  exact (chunked_statistics_fail_on_empty_input console0 [0]%nat [0]%nat
           world0 world0 world0 console0_accepts).
Defined.

(** C3: the statistics of the direct count, its two lines being printed:
    the total is the sum of the counts and the length of the word list,
    the number of unique words is the number of keys of the frequency
    map, which is the number of distinct words. *)
Theorem statistics_totals out W method w :
  accepts_every_line out ->
  exists stats,
    (run (compute_word_statistics_simple out W method) w).1 = Return stats
    /\ frequencies stats = count_words_simple W
    /\ total_words stats = sum (values (frequencies stats))
    /\ sum (values (frequencies stats)) = len W
    /\ unique_words stats = len (keys (frequencies stats))
    /\ unique_words stats = Z.of_nat (distinct_words W).
Proof.
  intros Hout.
  pose proof (returns_only_run _ _ w
                (compute_word_statistics_simple_returns out Hout W method))
    as [t ->].
  eexists. split; [reflexivity|]. simpl. split; [reflexivity|].
  split; [reflexivity|]. split; [|split].
  - rewrite count_words_simple_count_into, sum_values_count_into.
    unfold sum; simpl. lia.
  - unfold len, keys. rewrite length_map. reflexivity.
  - unfold len. rewrite length_count_words_simple. reflexivity.
Qed.

Lemma statistics_totals_witness :
  accepts_every_line console0
  /\ exists stats,
    (run (compute_word_statistics_simple console0
            ["to"; "be"; "or"; "not"; "to"; "be"] "threading") world0).1
    = Return stats
    /\ frequencies stats
       = count_words_simple ["to"; "be"; "or"; "not"; "to"; "be"]
    /\ total_words stats = sum (values (frequencies stats))
    /\ sum (values (frequencies stats))
       = len ["to"; "be"; "or"; "not"; "to"; "be"]
    /\ unique_words stats = len (keys (frequencies stats))
    /\ unique_words stats
       = Z.of_nat (distinct_words ["to"; "be"; "or"; "not"; "to"; "be"]).
Proof.
  split; [exact console0_accepts|].
  exact (statistics_totals console0 ["to"; "be"; "or"; "not"; "to"; "be"]
           "threading" world0 console0_accepts).
Defined.

(** C4: on dicts, merging is commutative and associative up to map
    equality, a key of the merge holds the sum of what it holds in the
    arguments, and merging the counts of consecutive chunks gives the
    count of the whole list. *)
Theorem merge_counters_laws (A B C : dict) :
  wf_dict A -> wf_dict B -> wf_dict C ->
  dict_eqb (merge_counters [A; B]) (merge_counters [B; A]) = true
  /\ dict_eqb (merge_counters [merge_counters [A; B]; C])
              (merge_counters [A; merge_counters [B; C]]) = true
  /\ (forall k, get (merge_counters [A; B]) k 0 = get A k 0 + get B k 0)
  /\ (forall k, k ∈ keys (merge_counters [A; B]) <-> k ∈ keys A \/ k ∈ keys B)
  /\ (forall chunks : list (list string),
        merge_counters (map count_words_simple chunks)
        = count_words_simple (concat chunks)).
Proof.
  intros HA HB HC. repeat split.
  - apply dict_eqb_equiv; try apply wf_merge_counters.
    intros k. rewrite !lookup_merge_two by assumption.
    destruct (lookup A k), (lookup B k); try reflexivity. f_equal; lia.
  - apply dict_eqb_equiv; try apply wf_merge_counters.
    intros k. rewrite !lookup_merge_two by (assumption || apply wf_merge_counters).
    destruct (lookup A k), (lookup B k), (lookup C k); try reflexivity;
      f_equal; lia.
  - intros k. rewrite !get_lookup, lookup_merge_two by assumption.
    destruct (lookup A k), (lookup B k); simpl; lia.
  - intros Hk.
    destruct (decide (k ∈ keys A)) as [|HnA]; [left; assumption|].
    destruct (decide (k ∈ keys B)) as [|HnB]; [right; assumption|].
    apply lookup_None_keys in HnA, HnB.
    assert (Hn : lookup (merge_counters [A; B]) k = None).
    { rewrite lookup_merge_two, HnA, HnB by assumption. reflexivity. }
    apply lookup_None_keys in Hn. contradiction.
  - intros Hk.
    destruct (decide (k ∈ keys (merge_counters [A; B]))) as [|Hn]; [assumption|].
    apply lookup_None_keys in Hn.
    rewrite lookup_merge_two in Hn by assumption.
    destruct Hk as [Hk|Hk];
      destruct (lookup A k) eqn:EA, (lookup B k) eqn:EB; try discriminate;
      apply lookup_None_keys in EA, EB; contradiction.
  - apply merge_count_chunks.
Qed.

Lemma merge_counters_laws_witness :
  let A := [("a", 2); ("b", 1)] in
  let B := [("b", 3); ("c", 1)] in
  let C := [("c", 5)] in
  (wf_dict A /\ wf_dict B /\ wf_dict C)
  /\ dict_eqb (merge_counters [A; B]) (merge_counters [B; A]) = true
  /\ dict_eqb (merge_counters [merge_counters [A; B]; C])
              (merge_counters [A; merge_counters [B; C]]) = true
  /\ (forall k, get (merge_counters [A; B]) k 0 = get A k 0 + get B k 0)
  /\ (forall k, k ∈ keys (merge_counters [A; B]) <-> k ∈ keys A \/ k ∈ keys B)
  /\ (forall chunks : list (list string),
        merge_counters (map count_words_simple chunks)
        = count_words_simple (concat chunks)).
Proof.
  intros A B C.
  assert (HA : wf_dict A)
    by (apply (bool_decide_unpack (NoDup _)); vm_compute; exact I).
  assert (HB : wf_dict B)
    by (apply (bool_decide_unpack (NoDup _)); vm_compute; exact I).
  assert (HC : wf_dict C)
    by (apply (bool_decide_unpack (NoDup _)); vm_compute; exact I).
  split; [auto|]. exact (merge_counters_laws A B C HA HB HC).
Defined.

(** C5: the top-n list of a count has min(n, number of distinct words)
    entries, in descending order of count. *)
Theorem top_words_length_sorted W (n : nat) :
  length (get_top_words (count_words_simple W) (Z.of_nat n))
  = Nat.min n (distinct_words W)
  /\ StronglySorted by_count_desc
       (get_top_words (count_words_simple W) (Z.of_nat n)).
Proof.
  rewrite get_top_words_nat. split.
  - rewrite length_take, length_sorted_by_count_desc.
    unfold items. rewrite length_count_words_simple. reflexivity.
  - apply StronglySorted_take, sorted_by_count_desc_sorted.
Qed.

(** A negative bound is not a count: the slice then drops entries from
    the end. *)
Example get_top_words_negative_bound :
  get_top_words (count_words_simple ["a"; "b"; "c"]) (-1) = [("a", 1); ("b", 1)].
Proof. reflexivity. Qed.

(** ** File processor *)

(** C2: on one directory snapshot and a console that takes every line,
    the three strategies return the same words, under every schedule of
    the threads and of the pool: the words of each file as
    [read_and_clean_file] returns them, file after file in discovery
    order.  If listing the folder raises, all three raise. *)
Theorem strategies_same_words out fs folder_path sched_threads sched_pool
    w1 w2 w3 :
  accepts_every_line out ->
  (forall filepath w,
      file_result_of fs filepath (run (read_and_clean_file out fs filepath) w).1)
  /\ match discover fs folder_path with
     | Return filepaths =>
         exists b1 b2 b3,
           (run (process_with_sequential out fs folder_path) w1).1 = Return b1
           /\ (run (process_with_threading out fs folder_path sched_threads) w2).1
              = Return b2
           /\ (run (process_with_multiprocessing out fs folder_path sched_pool) w3).1
              = Return b3
           /\ words b1 = concat (map (words_of_file fs) filepaths)
           /\ words b2 = words b1 /\ words b3 = words b1
           /\ words b2 ≡ₚ words b1 /\ words b3 ≡ₚ words b1
     | Raise e =>
         (run (process_with_sequential out fs folder_path) w1).1 = Raise e
         /\ (run (process_with_threading out fs folder_path sched_threads) w2).1
            = Raise e
         /\ (run (process_with_multiprocessing out fs folder_path sched_pool) w3).1
            = Raise e
     end.
Proof.
  intros Hout. split.
  { intros filepath w.
    apply returns_only_run, read_and_clean_file_returns, Hout. }
  destruct (discover fs folder_path) as [filepaths|e] eqn:Hd.
  - pose proof (returns_only_run _ _ w1
       (process_with_sequential_returns out fs Hout folder_path filepaths Hd))
      as (b1 & -> & Hb1 & _).
    pose proof (returns_only_run _ _ w2
       (process_with_threading_returns out fs Hout folder_path sched_threads
          filepaths Hd))
      as (b2 & -> & Hb2 & _).
    pose proof (returns_only_run _ _ w3
       (process_with_multiprocessing_returns out fs Hout folder_path sched_pool
          filepaths Hd))
      as (b3 & -> & Hb3 & _).
    exists b1, b2, b3. rewrite Hb1, Hb2, Hb3. repeat split; reflexivity.
  - destruct (process_raises out fs Hout folder_path sched_threads sched_pool e Hd)
      as (H1 & H2 & H3).
    split; [|split].
    + apply (returns_only_run _ _ w1 H1).
    + apply (returns_only_run _ _ w2 H2).
    + apply (returns_only_run _ _ w3 H3).
Qed.

Lemma strategies_same_words_witness :
  accepts_every_line console0
  /\ (forall filepath w,
        file_result_of fs_demo filepath
          (run (read_and_clean_file console0 fs_demo filepath) w).1)
  /\ match discover fs_demo "data" with
     | Return filepaths =>
         exists b1 b2 b3,
           (run (process_with_sequential console0 fs_demo "data") world0).1
           = Return b1
           /\ (run (process_with_threading console0 fs_demo "data"
                      [2; 0; 1; 1]%nat) world0).1 = Return b2
           /\ (run (process_with_multiprocessing console0 fs_demo "data"
                      [1; 2]%nat) world0).1 = Return b3
           /\ words b1 = concat (map (words_of_file fs_demo) filepaths)
           /\ words b2 = words b1 /\ words b3 = words b1
           /\ words b2 ≡ₚ words b1 /\ words b3 ≡ₚ words b1
     | Raise e =>
         (run (process_with_sequential console0 fs_demo "data") world0).1
         = Raise e
         /\ (run (process_with_threading console0 fs_demo "data"
                    [2; 0; 1; 1]%nat) world0).1 = Raise e
         /\ (run (process_with_multiprocessing console0 fs_demo "data"
                    [1; 2]%nat) world0).1 = Raise e
     end.
Proof.
  split; [exact console0_accepts|].
  exact (strategies_same_words console0 fs_demo "data" [2; 0; 1; 1]%nat
           [1; 2]%nat world0 world0 world0 console0_accepts).
Defined.

(** The claim without the condition on the console fails.  A folder
    holds a.txt and a file with U+00E9 in its name, both readable, and
    the console is ASCII.  The line about the second file cannot be
    printed, inside the [try] nor in the handler: the call raises.  The
    sequential loop and the pool let the exception through; the thread
    dies with it, its slot stays [None] and is skipped, and the threaded
    strategy returns without the words of the file. *)
Lemma strategies_same_words_counterexample :
  discover fs_accent "data" = Return ["data/a.txt"; "data/" +:+ cafe_txt]
  /\ words_of_file fs_accent ("data/" +:+ cafe_txt)
     = ["to"; "be"; "or"; "not"; "to"; "be"]
  /\ (run (process_with_sequential console_ascii fs_accent "data") world0).1
     = Raise UnicodeEncodeError
  /\ (run (process_with_multiprocessing console_ascii fs_accent "data"
             [0; 1; 0; 1]%nat) world0).1
     = Raise UnicodeEncodeError
  /\ (exists b,
        (run (process_with_threading console_ascii fs_accent "data"
                [0; 1; 0; 1]%nat) world0).1 = Return b
        /\ words b = ["hello"; "world"])
  /\ ~ (exists b1 b2 b3,
          (run (process_with_sequential console_ascii fs_accent "data") world0).1
          = Return b1
          /\ (run (process_with_threading console_ascii fs_accent "data"
                     [0; 1; 0; 1]%nat) world0).1 = Return b2
          /\ (run (process_with_multiprocessing console_ascii fs_accent "data"
                     [0; 1; 0; 1]%nat) world0).1 = Return b3
          /\ words b2 ≡ₚ words b1 /\ words b3 ≡ₚ words b1).
Proof.
  split; [reflexivity|]. split; [reflexivity|]. split; [reflexivity|].
  split; [reflexivity|]. split.
  - eexists. split; reflexivity.
  - intros (b1 & b2 & b3 & H & _). discriminate H.
Qed.

(** C6: the tokenizer on the text of the specification, directly and
    through [read_and_clean_file]; and for every text the words come out
    in their order of appearance: they occur one after the other in the
    lowered text with its punctuation deleted, whose characters are
    those of the text in the same order.  These are the words the
    function returns for a file when its lines are printed. *)
Theorem tokenizer_example_and_order :
  clean_words (lower "Hello, World! 123 foo-bar") = ["hello"; "world"; "foobar"]
  /\ (run (read_and_clean_file console0 fs_demo "data/a.txt") world0).1
     = Return ("data/a.txt", ["hello"; "world"; "foobar"], 10)
  /\ (forall text,
        in_order (clean_words (lower text))
                 (translate_delete punctuation (lower text))
        /\ String.list_ascii_of_string (translate_delete punctuation (lower text))
           = List.filter (fun c => negb (contains punctuation c))
                         (map lower_char (String.list_ascii_of_string text)))
  /\ (forall out fs filepath w,
        accepts_every_line out ->
        file_result_of fs filepath (run (read_and_clean_file out fs filepath) w).1).
Proof.
  split; [reflexivity|]. split; [reflexivity|]. split.
  - intros text. split; [apply clean_words_in_order|].
    rewrite translate_delete_filter, lower_chars. reflexivity.
  - intros out fs filepath w Hout.
    apply returns_only_run, read_and_clean_file_returns, Hout.
Qed.

Lemma tokenizer_example_and_order_witness :
  accepts_every_line console0
  /\ file_result_of fs_demo "data/b.txt"
       (run (read_and_clean_file console0 fs_demo "data/b.txt") world0).1.
Proof.
  split; [exact console0_accepts|].
  exact (proj2 (proj2 (proj2 tokenizer_example_and_order))
           console0 fs_demo "data/b.txt" world0 console0_accepts).
Defined.

(** C7: a file whose opening or reading raises yields the triple of its
    path, no words and the elapsed time, provided the line that reports
    the failure can be printed: the call then returns and that one line
    is printed; and on a console that takes every line each strategy
    returns its batch, whatever files cannot be read. *)
Theorem read_failure_is_absorbed out fs :
  (forall filepath e w,
      read_text fs filepath = Raise e ->
      write_error out [Lit "[ERROR] Error reading "; Lit filepath;
                       Lit ": "; Err e] = None ->
      let elapsed := clock w (S (reads w)) - clock w (reads w) in
      let w' := mkWorld (clock w) (S (S (reads w)))
                  (stdout w ++ [[Lit "[ERROR] Error reading "; Lit filepath;
                                 Lit ": "; Err e]]) in
      run (read_and_clean_file out fs filepath) w
      = (Return (filepath, [], elapsed), w')
      /\ run (read_and_clean_file_standalone out fs filepath) w
         = (Return (filepath, [], elapsed), w'))
  /\ (accepts_every_line out ->
      forall folder_path names sched_threads sched_pool w1 w2 w3,
        listdir fs folder_path = Return names ->
        exists b1 b2 b3,
          (run (process_with_sequential out fs folder_path) w1).1 = Return b1
          /\ (run (process_with_threading out fs folder_path sched_threads) w2).1
             = Return b2
          /\ (run (process_with_multiprocessing out fs folder_path sched_pool) w3).1
             = Return b3).
Proof.
  split.
  - intros filepath e w He Hline elapsed w'. subst elapsed w'.
    pose proof (run_read_and_clean_file out fs filepath w) as Hrun.
    cbv zeta in Hrun. rewrite He, Hline in Hrun. split; exact Hrun.
  - intros Hout folder_path names sched_threads sched_pool w1 w2 w3 Hl.
    assert (Hd : exists filepaths, discover fs folder_path = Return filepaths).
    { unfold discover. rewrite Hl. eauto. }
    destruct Hd as [filepaths Hd].
    pose proof (returns_only_run _ _ w1
       (process_with_sequential_returns out fs Hout folder_path filepaths Hd))
      as (b1 & -> & _).
    pose proof (returns_only_run _ _ w2
       (process_with_threading_returns out fs Hout folder_path sched_threads
          filepaths Hd))
      as (b2 & -> & _).
    pose proof (returns_only_run _ _ w3
       (process_with_multiprocessing_returns out fs Hout folder_path sched_pool
          filepaths Hd))
      as (b3 & -> & _).
    exists b1, b2, b3. repeat split; reflexivity.
Qed.

Lemma read_failure_is_absorbed_witness :
  read_text fs_demo "data/gone.txt" = Raise (Exn "FileNotFoundError" "data/gone.txt")
  /\ write_error console0
       [Lit "[ERROR] Error reading "; Lit "data/gone.txt"; Lit ": ";
        Err (Exn "FileNotFoundError" "data/gone.txt")] = None
  /\ run (read_and_clean_file console0 fs_demo "data/gone.txt") world0
     = (Return ("data/gone.txt", [], 10),
        mkWorld (clock world0) 2
          [[Lit "[ERROR] Error reading "; Lit "data/gone.txt"; Lit ": ";
            Err (Exn "FileNotFoundError" "data/gone.txt")]])
  /\ accepts_every_line console0
  /\ listdir fs_demo "data" = Return ["a.txt"; "notes.md"; "b.txt"; "gone.txt"]
  /\ exists b1 b2 b3,
       (run (process_with_sequential console0 fs_demo "data") world0).1 = Return b1
       /\ (run (process_with_threading console0 fs_demo "data" [2; 0; 1; 1]%nat)
             world0).1 = Return b2
       /\ (run (process_with_multiprocessing console0 fs_demo "data" [1; 2]%nat)
             world0).1 = Return b3.
Proof.
  split; [reflexivity|]. split; [reflexivity|]. split.
  - exact (proj1 (proj1 (read_failure_is_absorbed console0 fs_demo)
                    "data/gone.txt"
                    (Exn "FileNotFoundError" "data/gone.txt") world0
                    eq_refl eq_refl)).
  - split; [exact console0_accepts|]. split; [reflexivity|].
    exact (proj2 (read_failure_is_absorbed console0 fs_demo) console0_accepts
             "data" ["a.txt"; "notes.md"; "b.txt"; "gone.txt"]
             [2; 0; 1; 1]%nat [1; 2]%nat world0 world0 world0 eq_refl).
Defined.

(** The claim without the condition on the line fails.  The second file
    of the folder, with U+00E9 in its name, cannot be read and the
    console is ASCII: the handler cannot print its line and the exception
    of [print] leaves the function, nothing being printed; the sequential
    batch is aborted by it. *)
Lemma read_failure_is_absorbed_counterexample :
  read_text fs_unreadable ("data/" +:+ cafe_txt)
  = Raise (Exn "FileNotFoundError" "No such file")
  /\ run (read_and_clean_file console_ascii fs_unreadable ("data/" +:+ cafe_txt))
         world0
     = (Raise UnicodeEncodeError, mkWorld (clock world0) 2 [])
  /\ run (read_and_clean_file_standalone console_ascii fs_unreadable
            ("data/" +:+ cafe_txt)) world0
     = (Raise UnicodeEncodeError, mkWorld (clock world0) 2 [])
  /\ listdir fs_unreadable "data" = Return ["a.txt"; cafe_txt]
  /\ (run (process_with_sequential console_ascii fs_unreadable "data") world0).1
     = Raise UnicodeEncodeError
  /\ ~ (exists t w',
          run (read_and_clean_file console_ascii fs_unreadable
                 ("data/" +:+ cafe_txt)) world0
          = (Return ("data/" +:+ cafe_txt, [], t), w')).
Proof.
  split; [reflexivity|]. split; [reflexivity|]. split; [reflexivity|].
  split; [reflexivity|]. split; [reflexivity|].
  intros (t & w' & H). discriminate H.
Qed.

(** C8: when discovery yields no file path, each strategy returns an empty
    word list, and the statistics of that list are all zero or empty; the
    lines of the strategies and of the statistics are printed. *)
Theorem empty_directory_statistics out fs folder_path sched_threads sched_pool
    method w1 w2 w3 w4 :
  accepts_every_line out ->
  discover fs folder_path = Return [] ->
  exists b1 b2 b3 stats,
    (run (process_with_sequential out fs folder_path) w1).1 = Return b1
    /\ (run (process_with_threading out fs folder_path sched_threads) w2).1 = Return b2
    /\ (run (process_with_multiprocessing out fs folder_path sched_pool) w3).1
       = Return b3
    /\ words b1 = [] /\ words b2 = [] /\ words b3 = []
    /\ (run (compute_word_statistics_simple out (words b1) method) w4).1 = Return stats
    /\ total_words stats = 0 /\ unique_words stats = 0
    /\ frequencies stats = [] /\ top_10 stats = [].
Proof.
  intros Hout Hd.
  pose proof (returns_only_run _ _ w1
     (process_with_sequential_returns out fs Hout folder_path [] Hd))
    as (b1 & -> & Hb1 & _).
  pose proof (returns_only_run _ _ w2
     (process_with_threading_returns out fs Hout folder_path sched_threads [] Hd))
    as (b2 & -> & Hb2 & _).
  pose proof (returns_only_run _ _ w3
     (process_with_multiprocessing_returns out fs Hout folder_path sched_pool [] Hd))
    as (b3 & -> & Hb3 & _).
  simpl in Hb1, Hb2, Hb3. exists b1, b2, b3. rewrite Hb1.
  pose proof (returns_only_run _ _ w4
     (compute_word_statistics_simple_returns out Hout [] method)) as [t ->].
  eexists. repeat split; assumption || reflexivity.
Qed.

Lemma empty_directory_statistics_witness :
  accepts_every_line console0
  /\ discover fs_empty "data" = Return []
  /\ exists b1 b2 b3 stats,
    (run (process_with_sequential console0 fs_empty "data") world0).1 = Return b1
    /\ (run (process_with_threading console0 fs_empty "data" [0; 1]%nat) world0).1
       = Return b2
    /\ (run (process_with_multiprocessing console0 fs_empty "data" [1; 0]%nat)
          world0).1 = Return b3
    /\ words b1 = [] /\ words b2 = [] /\ words b3 = []
    /\ (run (compute_word_statistics_simple console0 (words b1) "threading")
          world0).1 = Return stats
    /\ total_words stats = 0 /\ unique_words stats = 0
    /\ frequencies stats = [] /\ top_10 stats = [].
Proof.
  split; [exact console0_accepts|]. split; [reflexivity|].
  exact (empty_directory_statistics console0 fs_empty "data" [0; 1]%nat
           [1; 0]%nat "threading" world0 world0 world0 world0
           console0_accepts eq_refl).
Defined.

(** ** Chunked statistics and the method label *)

(** C9: with fewer than four words both chunked computations raise
    ValueError, the chunk size being 0; from four words on they return.
    The line each prints first, and the one it prints last, are taken
    by the console. *)
Theorem chunked_statistics_need_four_words out W sched1 sched2 w1 w2 :
  accepts_every_line out ->
  ((length W < 4)%nat ->
   (run (_compute_stats_threading_simple out W sched1) w1).1
   = Raise (ValueError "range() arg 3 must not be zero")
   /\ (run (_compute_stats_multiprocessing_simple out W sched2) w2).1
      = Raise (ValueError "range() arg 3 must not be zero"))
  /\ ((4 <= length W)%nat ->
      exists s1 s2,
        (run (_compute_stats_threading_simple out W sched1) w1).1 = Return s1
        /\ (run (_compute_stats_multiprocessing_simple out W sched2) w2).1 = Return s2).
Proof.
  intros Hout. split; intros Hlen.
  - destruct (compute_stats_chunked_raise out Hout W sched1 sched2 _
                (make_chunks_small W Hlen))
      as [H1 H2].
    split.
    + apply (returns_only_run _ _ w1 H1).
    + apply (returns_only_run _ _ w2 H2).
  - destruct (make_chunks_large W Hlen) as (chunks & Hc & HW).
    pose proof (returns_only_run _ _ w1
                  (compute_stats_threading_returns out Hout W sched1 chunks Hc HW))
      as [t1 ->].
    pose proof (returns_only_run _ _ w2
                  (compute_stats_multiprocessing_returns out Hout W sched2 chunks
                     Hc HW))
      as [t2 ->].
    eauto.
Qed.

Lemma chunked_statistics_need_four_words_witness :
  accepts_every_line console0
  /\ ((length ["a"; "b"; "a"] < 4)%nat
      /\ (run (_compute_stats_threading_simple console0 ["a"; "b"; "a"] [0]%nat)
            world0).1
         = Raise (ValueError "range() arg 3 must not be zero")
      /\ (run (_compute_stats_multiprocessing_simple console0 ["a"; "b"; "a"]
                 [0]%nat) world0).1
         = Raise (ValueError "range() arg 3 must not be zero"))
  /\ ((4 <= length ["a"; "b"; "a"; "c"; "a"])%nat
      /\ exists s1 s2,
        (run (_compute_stats_threading_simple console0 ["a"; "b"; "a"; "c"; "a"]
                [3; 1]%nat) world0).1 = Return s1
        /\ (run (_compute_stats_multiprocessing_simple console0
                   ["a"; "b"; "a"; "c"; "a"] [2]%nat) world0).1 = Return s2).
Proof.
  split; [exact console0_accepts|]. split.
  - split; [simpl; lia|].
    apply (proj1 (chunked_statistics_need_four_words console0
                    ["a"; "b"; "a"] [0]%nat [0]%nat world0 world0
                    console0_accepts)).
    simpl; lia.
  - split; [simpl; lia|].
    apply (proj2 (chunked_statistics_need_four_words console0
                    ["a"; "b"; "a"; "c"; "a"] [3; 1]%nat [2]%nat world0 world0
                    console0_accepts)).
    simpl; lia.
Defined.

Section MainFacts.

Variable out : Console.
Variable fs : FileSystem.
Hypothesis Hout : accepts_every_line out.

Lemma main_returns sched_pool sched_threads filepaths :
  discover fs "data" = Return filepaths ->
  returns_only
    (fun r => exists v, r = Return v
        /\ stats_of (concat (map (words_of_file fs) filepaths))
                    (Return (stats_threading v))
        /\ stats_of (concat (map (words_of_file fs) filepaths))
                    (Return (stats_multiprocessing v)))
    (main out fs sched_pool sched_threads).
Proof.
  intros Hd. unfold main.
  apply (returns_only_and_then (batch_of fs filepaths "sequential"));
    [apply (process_with_sequential_returns out fs Hout _ _ Hd)|
    |intros e (b & [=] & _)].
  intros b1 (b & [= <-] & Hb1 & _).
  apply (returns_only_and_then (batch_of fs filepaths "multiprocessing"));
    [apply (process_with_multiprocessing_returns out fs Hout _ _ _ Hd)|
    |intros e (b & [=] & _)].
  intros b2 _.
  apply (returns_only_and_then (batch_of fs filepaths "threading"));
    [apply (process_with_threading_returns out fs Hout _ _ _ Hd)|
    |intros e (b & [=] & _)].
  intros b3 _. rewrite Hb1.
  apply (returns_only_and_then
           (stats_of (concat (map (words_of_file fs) filepaths))));
    [apply compute_word_statistics_simple_returns, Hout| |intros e [t [=]]].
  intros s1 Hs1.
  apply (returns_only_and_then
           (stats_of (concat (map (words_of_file fs) filepaths))));
    [apply compute_word_statistics_simple_returns, Hout| |intros e [t [=]]].
  intros s2 Hs2. simpl. eauto.
Qed.

Lemma main_raises sched_pool sched_threads e :
  discover fs "data" = Raise e ->
  returns_only (fun r => r = Raise e) (main out fs sched_pool sched_threads).
Proof.
  intros Hd. unfold main.
  apply (returns_only_and_then (fun r => r = Raise e)).
  - apply (process_raises out fs Hout "data" sched_threads sched_pool e Hd).
  - intros b [=].
  - intros e' [= ->]. reflexivity.
Qed.

End MainFacts.

(** C10: the statistics do not depend on the method label: under any two
    labels the totals, the frequency map and the top-10 list are the
    same; the two statistics [main] computes are calls of this one
    function on the sequential words, and agree for that reason.  The
    console takes the lines that are printed on the way. *)
Theorem statistics_ignore_method_label out W m1 m2 w1 w2 fs sched_pool
    sched_threads w :
  accepts_every_line out ->
  (exists s1 s2,
      (run (compute_word_statistics_simple out W m1) w1).1 = Return s1
      /\ (run (compute_word_statistics_simple out W m2) w2).1 = Return s2
      /\ total_words s1 = total_words s2
      /\ unique_words s1 = unique_words s2
      /\ frequencies s1 = frequencies s2
      /\ top_10 s1 = top_10 s2)
  /\ match discover fs "data" with
     | Return filepaths =>
         exists v,
           (run (main out fs sched_pool sched_threads) w).1 = Return v
           /\ total_words (stats_threading v)
              = total_words (stats_multiprocessing v)
           /\ unique_words (stats_threading v)
              = unique_words (stats_multiprocessing v)
           /\ frequencies (stats_threading v)
              = frequencies (stats_multiprocessing v)
           /\ top_10 (stats_threading v) = top_10 (stats_multiprocessing v)
           /\ frequencies (stats_threading v)
              = count_words_simple (concat (map (words_of_file fs) filepaths))
     | Raise e => (run (main out fs sched_pool sched_threads) w).1 = Raise e
     end.
Proof.
  intros Hout. split.
  - apply (stats_of_fields W).
    + apply returns_only_run, compute_word_statistics_simple_returns, Hout.
    + apply returns_only_run, compute_word_statistics_simple_returns, Hout.
  - destruct (discover fs "data") as [filepaths|e] eqn:Hd.
    + pose proof (returns_only_run _ _ w
                    (main_returns out fs Hout sched_pool sched_threads filepaths Hd))
        as (v & -> & H1 & H2).
      destruct (stats_of_fields _ _ _ H1 H2)
        as (s1 & s2 & [= <-] & [= <-] & Ht & Hu & Hf & Htop).
      exists v. repeat split; try assumption.
      destruct H1 as [t [= E]]. rewrite E. reflexivity.
    + apply (returns_only_run _ _ w
               (main_raises out fs Hout sched_pool sched_threads e Hd)).
Qed.

Lemma statistics_ignore_method_label_witness :
  accepts_every_line console0
  /\ (exists s1 s2,
        (run (compute_word_statistics_simple console0 ["to"; "be"; "to"]
                "threading") world0).1 = Return s1
        /\ (run (compute_word_statistics_simple console0 ["to"; "be"; "to"]
                   "multiprocessing") world0).1 = Return s2
        /\ total_words s1 = total_words s2
        /\ unique_words s1 = unique_words s2
        /\ frequencies s1 = frequencies s2
        /\ top_10 s1 = top_10 s2)
  /\ match discover fs_demo "data" with
     | Return filepaths =>
         exists v,
           (run (main console0 fs_demo [1; 0; 2]%nat [2; 2; 0]%nat) world0).1
           = Return v
           /\ total_words (stats_threading v)
              = total_words (stats_multiprocessing v)
           /\ unique_words (stats_threading v)
              = unique_words (stats_multiprocessing v)
           /\ frequencies (stats_threading v)
              = frequencies (stats_multiprocessing v)
           /\ top_10 (stats_threading v) = top_10 (stats_multiprocessing v)
           /\ frequencies (stats_threading v)
              = count_words_simple
                  (concat (map (words_of_file fs_demo) filepaths))
     | Raise e =>
         (run (main console0 fs_demo [1; 0; 2]%nat [2; 2; 0]%nat) world0).1
         = Raise e
     end.
Proof.
  split; [exact console0_accepts|].
  exact (statistics_ignore_method_label console0 ["to"; "be"; "to"]
           "threading" "multiprocessing" world0 world0 fs_demo
           [1; 0; 2]%nat [2; 2; 0]%nat world0 console0_accepts).
Defined.

(** ** The model at work *)

Example count_example :
  count_words_simple ["b"; "a"; "b"; "c"; "a"; "b"] = [("b", 3); ("a", 2); ("c", 1)].
Proof. reflexivity. Qed.

Example top_example :
  get_top_words [("x", 1); ("b", 3); ("y", 1); ("a", 3)] 3
  = [("b", 3); ("a", 3); ("x", 1)].
Proof. reflexivity. Qed.

Example make_chunks_example :
  make_chunks ["b"; "a"; "b"; "c"; "a"; "b"; "d"; "a"; "e"]
  = Return [["b"; "a"]; ["b"; "c"]; ["a"; "b"]; ["d"; "a"]; ["e"]].
Proof. reflexivity. Qed.

Example threading_example :
  (run (process_with_threading console0 fs_demo "data" [2; 1; 0; 1; 2; 2; 0]%nat) world0).1
  = Return (mkBatch ["hello"; "world"; "foobar"; "to"; "be"; "or"; "not"; "to"; "be"]
                    "threading" 70 90).
Proof. vm_compute. reflexivity. Qed.


(** * Further properties of the code *)

(** ** The word counter *)

(** X1: the frequency map holds, for each word, the number of its occurrences;
    a word that does not occur is not a key. *)
Theorem count_words_simple_occurrences W w :
  lookup (count_words_simple W) w
  = if decide (w ∈ W) then Some (occurrences w W) else None.
Proof.
  destruct (decide (w ∈ W)) as [Hin|Hout].
  - assert (Hk : w ∈ keys (count_into [] W)).
    { apply elem_of_keys_count_into. right. exact Hin. }
    destruct (lookup (count_words_simple W) w) as [v|] eqn:E.
    + pose proof (lookup_count_into [] W w) as H.
      rewrite get_lookup in H. change (count_into [] W) with (count_words_simple W) in H.
      rewrite E in H. simpl in H. f_equal. lia.
    + apply lookup_None_keys in E. contradiction.
  - apply lookup_None_keys. intros Hk.
    apply (elem_of_keys_count_into [] W w) in Hk as [Hk|Hk]; [|contradiction].
    apply elem_of_nil in Hk as [].
Qed.

(** X2: the keys come in the order in which the words first appear. *)
Theorem count_words_simple_first_seen_order W :
  keys (count_words_simple W) = reverse (remove_dups (reverse W)).
Proof.
  induction W as [|w W IH] using rev_ind; [reflexivity|].
  rewrite count_words_simple_count_into, count_into_app. simpl.
  rewrite keys_add_count, reverse_snoc. simpl.
  change (count_into [] W) with (count_words_simple W). rewrite IH.
  destruct (decide_rel elem_of w (reverse W)) as [Hin|Hout].
  - rewrite decide_True; [reflexivity|].
    rewrite elem_of_reverse, elem_of_remove_dups. exact Hin.
  - rewrite decide_False, reverse_cons; [reflexivity|].
    rewrite elem_of_reverse, elem_of_remove_dups. exact Hout.
Qed.


(** ** Merging any number of maps *)

Lemma get_merge_into acc d k :
  wf_dict d -> get (merge_into acc d) k 0 = get acc k 0 + get d k 0.
Proof.
  intros Hd. rewrite !get_lookup, lookup_merge_into by assumption.
  destruct (lookup d k); simpl; [rewrite <- get_lookup; reflexivity|lia].
Qed.

Lemma elem_of_keys_merge_into acc d k :
  k ∈ keys (merge_into acc d) <-> k ∈ keys acc \/ k ∈ keys d.
Proof.
  revert acc. induction d as [|[k0 v0] d IH]; intros acc.
  - simpl. rewrite elem_of_nil. tauto.
  - rewrite merge_into_cons, IH, elem_of_keys_add_count. simpl.
    rewrite elem_of_cons. tauto.
Qed.

Lemma get_fold_merge cs acc k :
  Forall wf_dict cs ->
  get (fold_left merge_into cs acc) k 0
  = get acc k 0 + sum (map (fun c => get c k 0) cs).
Proof.
  intros Hcs. revert acc. induction Hcs as [|c cs Hc Hcs IH]; intros acc.
  - unfold sum; simpl. lia.
  - simpl. rewrite IH, get_merge_into, sum_cons by assumption. lia.
Qed.

Lemma elem_of_keys_fold_merge cs acc k :
  k ∈ keys (fold_left merge_into cs acc)
  <-> k ∈ keys acc \/ exists c, c ∈ cs /\ k ∈ keys c.
Proof.
  revert acc. induction cs as [|c cs IH]; intros acc; simpl.
  - split; [auto|]. intros [H|(c & Hc & _)]; [exact H|].
    apply elem_of_nil in Hc as [].
  - rewrite IH, elem_of_keys_merge_into. split.
    + intros [[H|H]|(c' & Hc' & H)]; [left; exact H| |].
      * right. exists c. split; [apply list_elem_of_here|exact H].
      * right. exists c'. split; [apply list_elem_of_further, Hc'|exact H].
    + intros [H|(c' & Hc' & H)]; [left; left; exact H|].
      apply elem_of_cons in Hc' as [->|Hc']; [left; right; exact H|].
      right. exists c'. split; assumption.
Qed.

(** X3: across any number of dicts the merge holds, under each key, the sum of
    what the dicts hold under it, and its keys are the keys of the dicts. *)
Theorem merge_counters_sums (cs : list dict) (k : string) :
  Forall wf_dict cs ->
  get (merge_counters cs) k 0 = sum (map (fun c => get c k 0) cs)
  /\ (k ∈ keys (merge_counters cs) <-> exists c, c ∈ cs /\ k ∈ keys c).
Proof.
  intros Hcs. rewrite merge_counters_fold. split.
  - rewrite get_fold_merge by assumption. simpl. lia.
  - rewrite elem_of_keys_fold_merge. simpl. rewrite elem_of_nil. tauto.
Qed.

Lemma merge_counters_sums_witness :
  let cs := [[("a", 2); ("b", 1)]; [("b", 3)]; []; [("c", 1); ("a", 4)]] in
  Forall wf_dict cs
  /\ get (merge_counters cs) "a" 0 = sum (map (fun c => get c "a" 0) cs)
  /\ ("a" ∈ keys (merge_counters cs) <-> exists c, c ∈ cs /\ "a" ∈ keys c).
Proof.
  intros cs.
  assert (H : Forall wf_dict cs).
  { repeat (apply List.Forall_cons;
              [apply (bool_decide_unpack (NoDup _)); vm_compute; exact I|]).
    apply List.Forall_nil. }
  split; [exact H|]. exact (merge_counters_sums cs "a" H).
Defined.

Lemma add_count_fresh d k n : k ∉ keys d -> add_count d k n = d ++ [(k, n)].
Proof.
  induction d as [|[k0 v0] d IH]; intros Hk; [reflexivity|].
  simpl in Hk. apply not_elem_of_cons in Hk as [Hne Hk].
  rewrite add_count_cons_ne by congruence. simpl. f_equal. apply IH, Hk.
Qed.

Lemma merge_into_disjoint acc d :
  wf_dict d -> (forall k, k ∈ keys d -> k ∉ keys acc) ->
  merge_into acc d = acc ++ d.
Proof.
  revert acc. induction d as [|[k v] d IH]; intros acc Hd Hdis.
  - simpl. rewrite app_nil_r. reflexivity.
  - apply wf_cons_inv in Hd as [Hk Hd].
    rewrite merge_into_cons, add_count_fresh
      by (apply Hdis; simpl; apply list_elem_of_here).
    rewrite IH; [rewrite <- app_assoc; reflexivity|exact Hd|].
    intros k' Hk'. unfold keys. rewrite fmap_app, elem_of_app. simpl.
    rewrite list_elem_of_singleton. intros [Hacc| ->].
    + revert Hacc. apply Hdis. simpl. apply list_elem_of_further, Hk'.
    + contradiction.
Qed.

(** X4: merging a single dict gives it back, entry for entry. *)
Theorem merge_counters_single (A : dict) :
  wf_dict A -> merge_counters [A] = A.
Proof.
  intros HA. rewrite merge_counters_fold. simpl.
  apply (merge_into_disjoint [] A HA). intros k _. apply not_elem_of_nil.
Qed.

Lemma merge_counters_single_witness :
  wf_dict [("b", 3); ("a", 1)]
  /\ merge_counters [[("b", 3); ("a", 1)]] = [("b", 3); ("a", 1)].
Proof.
  assert (H : wf_dict [("b", 3); ("a", 1)])
    by (apply (bool_decide_unpack (NoDup _)); vm_compute; exact I).
  split; [exact H|]. exact (merge_counters_single _ H).
Defined.

Lemma merge_into_merge_into acc c d :
  wf_dict c ->
  merge_into acc (merge_into c d) = merge_into (merge_into acc c) d.
Proof.
  revert c. induction d as [|[k v] d IH]; intros c Hc; [reflexivity|].
  rewrite !merge_into_cons, IH by (apply wf_add_count, Hc).
  rewrite merge_into_add_count by assumption. reflexivity.
Qed.

Lemma merge_into_fold_merge acc c g :
  wf_dict c ->
  merge_into acc (fold_left merge_into g c)
  = fold_left merge_into g (merge_into acc c).
Proof.
  revert c. induction g as [|d g IH]; intros c Hc; [reflexivity|].
  simpl. rewrite IH by (apply wf_merge_into, Hc).
  rewrite merge_into_merge_into by assumption. reflexivity.
Qed.

Lemma fold_merge_regroup (groups : list (list dict)) acc :
  fold_left merge_into (map merge_counters groups) acc
  = fold_left merge_into (concat groups) acc.
Proof.
  revert acc. induction groups as [|g groups IH]; intros acc; [reflexivity|].
  simpl. rewrite fold_left_app, <- IH. f_equal.
  rewrite merge_counters_fold. apply merge_into_fold_merge, wf_nil.
Qed.

(** X5: merging partial merges is merging everything at once: whatever the
    grouping of the dicts, the result is the same, insertion order
    included; it has each key once, and the merge of no dict is empty. *)
Theorem merge_counters_regroup (groups : list (list dict)) :
  merge_counters (map merge_counters groups) = merge_counters (concat groups)
  /\ wf_dict (merge_counters (concat groups))
  /\ merge_counters [] = [].
Proof.
  split; [|split; [apply wf_merge_counters|reflexivity]].
  rewrite !merge_counters_fold. apply fold_merge_regroup.
Qed.

(** ** Ranking *)

(** X6: the top-n list holds the n highest counts: it is the head of a
    rearrangement of the entries in which no entry left out has a higher
    count than an entry kept, and entries of equal count stay in insertion
    order. *)
Theorem get_top_words_are_the_largest (counter : dict) (n : nat) :
  exists rest,
    get_top_words counter (Z.of_nat n) ++ rest ≡ₚ items counter
    /\ (forall a b, a ∈ get_top_words counter (Z.of_nat n) -> b ∈ rest ->
                    snd b <= snd a)
    /\ (forall c, List.filter (fun e => snd e =? c)
                    (get_top_words counter (Z.of_nat n) ++ rest)
                  = List.filter (fun e => snd e =? c) (items counter)).
Proof.
  exists (drop n (sorted_by_count_desc (items counter))).
  rewrite get_top_words_nat, take_drop. split; [|split].
  - apply sorted_by_count_desc_perm.
  - intros a b Ha Hb.
    pose proof (sorted_by_count_desc_sorted (items counter)) as Hs.
    rewrite <- (take_drop n) in Hs.
    apply (StronglySorted_app_1_elem_of _ _ _ a b Hs Ha Hb).
  - intros c. apply sorted_by_count_desc_stable.
Qed.

(** X7: the length of the list for every bound: a bound past the end gives
    every entry, zero gives none, and a negative bound drops that many
    entries from the end of the ranking. *)
Theorem get_top_words_length (counter : dict) (n : Z) :
  len (get_top_words counter n)
  = if 0 <=? n then Z.min n (len counter) else Z.max 0 (len counter + n).
Proof.
  unfold get_top_words, slice_to, len.
  destruct (Z.leb_spec 0 n);
    rewrite length_take, length_sorted_by_count_desc; unfold items, len; lia.
Qed.


(** ** The tokenizer *)

Lemma all_chars_app f s1 s2 :
  all_chars f (s1 +:+ s2) = all_chars f s1 && all_chars f s2.
Proof.
  induction s1 as [|c s1 IH]; [reflexivity|].
  rewrite append_cons. simpl. rewrite IH, andb_assoc. reflexivity.
Qed.

Lemma all_chars_translate_delete f chars s :
  all_chars f s = true -> all_chars f (translate_delete chars s) = true.
Proof.
  induction s as [|c s IH]; simpl; [reflexivity|].
  intros [Hc Hs]%andb_true_iff. destruct (contains chars c); simpl; auto.
  rewrite Hc. simpl. auto.
Qed.

Lemma all_chars_split_from f cur s :
  all_chars f cur = true -> all_chars f s = true ->
  Forall (fun w => all_chars f w = true) (split_from cur s).
Proof.
  revert cur. induction s as [|c s IH]; intros cur Hcur Hs; simpl.
  - destruct cur; constructor; [exact Hcur|constructor].
  - simpl in Hs. apply andb_true_iff in Hs as [Hc Hs].
    destruct (isspace c).
    + destruct cur; [apply IH; auto|].
      constructor; [exact Hcur|apply IH; auto].
    + apply IH; [|exact Hs]. rewrite all_chars_app, Hcur. simpl.
      rewrite Hc. reflexivity.
Qed.

Lemma all_chars_clean_words f text :
  all_chars f text = true ->
  Forall (fun w => all_chars f w = true) (clean_words text).
Proof.
  intros H. unfold clean_words. apply Forall_forall. intros w Hw.
  apply list_elem_of_In, filter_In in Hw as [Hw _]. apply list_elem_of_In in Hw.
  revert w Hw. apply Forall_forall.
  apply (all_chars_split_from f "" _ eq_refl), all_chars_translate_delete, H.
Qed.

Lemma lower_char_idem c : lower_char (lower_char c) = lower_char c.
Proof. destruct c as [[] [] [] [] [] [] [] []]; reflexivity. Qed.

Lemma all_chars_lower text :
  all_chars (fun c => Ascii.eqb (lower_char c) c) (lower text) = true.
Proof.
  induction text as [|c text IH]; simpl; [reflexivity|].
  rewrite lower_char_idem, Ascii.eqb_refl. exact IH.
Qed.

Lemma lower_fixed w :
  all_chars (fun c => Ascii.eqb (lower_char c) c) w = true -> lower w = w.
Proof.
  induction w as [|c w IH]; simpl; [reflexivity|].
  intros [Hc Hw]%andb_true_iff. apply Ascii.eqb_eq in Hc.
  rewrite Hc, IH by assumption. reflexivity.
Qed.

Lemma isalpha_char_plain c :
  isalpha_char c = true -> isspace c = false /\ contains punctuation c = false.
Proof.
  destruct c as [[] [] [] [] [] [] [] []]; vm_compute; intros H;
    try discriminate H; split; reflexivity.
Qed.

Lemma clean_words_isalpha text :
  Forall (fun w => isalpha w = true) (clean_words text).
Proof.
  apply Forall_forall. intros w Hw.
  apply list_elem_of_In, filter_In in Hw as [_ Halpha]. exact Halpha.
Qed.

Lemma clean_words_lowered text :
  Forall (fun w => lower w = w) (clean_words (lower text)).
Proof.
  eapply Forall_impl;
    [exact (all_chars_clean_words _ _ (all_chars_lower text))|].
  intros w. apply lower_fixed.
Qed.

(** X8: every word the tokenizer returns is a non-empty run of alphabetic
    characters that lowering leaves unchanged: no space, no punctuation,
    no digit and no capital letter survives. *)
Theorem clean_words_shape text :
  Forall (fun w => w <> "" /\ all_chars isalpha_char w = true
                   /\ all_chars (fun c => negb (isspace c)
                                          && negb (contains punctuation c)) w = true
                   /\ lower w = w)
         (clean_words (lower text)).
Proof.
  pose proof (clean_words_isalpha (lower text)) as Halpha.
  pose proof (clean_words_lowered text) as Hlow.
  apply Forall_forall. intros w Hw.
  pose proof (proj1 (Forall_forall _ _) Halpha w Hw) as Hw_alpha.
  pose proof (proj1 (Forall_forall _ _) Hlow w Hw) as Hw_low.
  assert (Hall : all_chars isalpha_char w = true).
  { destruct w; [discriminate|exact Hw_alpha]. }
  split; [|split; [exact Hall|split; [|exact Hw_low]]].
  - intros ->. discriminate.
  - clear -Hall. induction w as [|c w IH]; [reflexivity|].
    cbn [all_chars] in *. apply andb_true_iff in Hall as [Hc Hw].
    destruct (isalpha_char_plain c Hc) as [-> ->]. cbn [negb andb].
    apply IH, Hw.
Qed.

Lemma translate_delete_id chars s :
  all_chars (fun c => negb (contains chars c)) s = true ->
  translate_delete chars s = s.
Proof.
  induction s as [|c s IH]; simpl; [reflexivity|].
  intros [Hc Hs]%andb_true_iff. apply negb_true_iff in Hc.
  rewrite Hc, IH by assumption. reflexivity.
Qed.

Lemma split_from_token cur w s :
  all_chars (fun c => negb (isspace c)) w = true ->
  split_from cur (w +:+ s) = split_from (cur +:+ w) s.
Proof.
  revert cur. induction w as [|c w IH]; intros cur Hw.
  - rewrite append_nil_l.
    replace (cur +:+ "") with cur; [reflexivity|].
    clear. induction cur as [|c cur IH]; [reflexivity|].
    rewrite append_cons, <- IH. reflexivity.
  - simpl in Hw. apply andb_true_iff in Hw as [Hc Hw].
    apply negb_true_iff in Hc. rewrite append_cons. simpl. rewrite Hc.
    rewrite IH by assumption. rewrite append_assoc. reflexivity.
Qed.

Lemma append_nil_r s : s +:+ "" = s.
Proof.
  induction s as [|c s IH]; [reflexivity|].
  rewrite append_cons, IH. reflexivity.
Qed.

Lemma split_concat_words ws :
  Forall (fun w => isalpha w = true) ws -> split (String.concat " " ws) = ws.
Proof.
  assert (Hplain : forall w, isalpha w = true ->
            w <> "" /\ all_chars (fun c => negb (isspace c)) w = true).
  { intros w Hw. split; [intros ->; discriminate|].
    assert (Hall : all_chars isalpha_char w = true)
      by (destruct w; [discriminate|exact Hw]).
    clear Hw. induction w as [|c w IH]; [reflexivity|].
    cbn [all_chars] in *. apply andb_true_iff in Hall as [Hc Hw].
    destruct (isalpha_char_plain c Hc) as [-> _]. cbn [negb andb].
    apply IH, Hw. }
  induction 1 as [|w ws Hw Hws IH]; [reflexivity|].
  destruct (Hplain w Hw) as [Hne Hns]. unfold split.
  destruct ws as [|w' ws].
  - simpl. rewrite <- (append_nil_r w) at 1.
    rewrite split_from_token by assumption. rewrite append_nil_l. simpl.
    destruct w; [contradiction|reflexivity].
  - change (String.concat " " (w :: w' :: ws))
      with (w +:+ " " +:+ String.concat " " (w' :: ws)).
    rewrite split_from_token, append_nil_l by assumption.
    change (" " +:+ String.concat " " (w' :: ws))
      with (String " " (String.concat " " (w' :: ws))).
    simpl split_from.
    change (isspace " ") with true. cbv iota.
    destruct w; [contradiction|]. f_equal. exact IH.
Qed.

Lemma clean_words_concat ws :
  Forall (fun w => isalpha w = true) ws -> clean_words (String.concat " " ws) = ws.
Proof.
  intros Hws. unfold clean_words.
  rewrite translate_delete_id.
  - rewrite split_concat_words by assumption.
    clear -Hws. induction Hws as [|w ws Hw Hws IH]; [reflexivity|].
    simpl. rewrite Hw, IH. reflexivity.
  - assert (Hw : forall w, isalpha w = true ->
              all_chars (fun c => negb (contains punctuation c)) w = true).
    { intros w Hw.
      assert (Hall : all_chars isalpha_char w = true)
        by (destruct w; [discriminate|exact Hw]).
      clear Hw. induction w as [|c w IH]; [reflexivity|].
      cbn [all_chars] in *. apply andb_true_iff in Hall as [Hc Hall].
      destruct (isalpha_char_plain c Hc) as [_ ->]. cbn [negb andb].
      apply IH, Hall. }
    clear -Hws Hw. induction Hws as [|w ws Hw1 Hws IH]; [reflexivity|].
    destruct ws as [|w' ws]; [apply Hw, Hw1|].
    change (String.concat " " (w :: w' :: ws))
      with (w +:+ " " +:+ String.concat " " (w' :: ws)).
    rewrite !all_chars_app, (Hw w Hw1), IH. reflexivity.
Qed.

Lemma lower_append s1 s2 : lower (s1 +:+ s2) = lower s1 +:+ lower s2.
Proof.
  induction s1 as [|c s1 IH]; [reflexivity|].
  rewrite append_cons. simpl. rewrite IH, append_cons. reflexivity.
Qed.

Lemma lower_concat ws :
  Forall (fun w => lower w = w) ws ->
  lower (String.concat " " ws) = String.concat " " ws.
Proof.
  induction 1 as [|w ws Hw Hws IH]; [reflexivity|].
  destruct ws as [|w' ws]; [exact Hw|].
  change (String.concat " " (w :: w' :: ws))
    with (w +:+ " " +:+ String.concat " " (w' :: ws)).
  rewrite !lower_append, Hw, IH. reflexivity.
Qed.

(** X9: tokenizing is idempotent: the words of a text, joined by single
    spaces and tokenized again, come back as they are. *)
Theorem clean_words_round_trip text :
  clean_words (lower (String.concat " " (clean_words (lower text))))
  = clean_words (lower text).
Proof.
  rewrite lower_concat by apply clean_words_lowered.
  apply clean_words_concat, clean_words_isalpha.
Qed.

Lemma isalpha_char_lower c : isalpha_char (lower_char c) = isalpha_char c.
Proof. destruct c as [[] [] [] [] [] [] [] []]; reflexivity. Qed.

(** X10: a text without any alphabetic character yields no word. *)
Theorem clean_words_no_letters text :
  all_chars (fun c => negb (isalpha_char c)) text = true ->
  clean_words (lower text) = [].
Proof.
  intros H.
  assert (Hl : all_chars (fun c => negb (isalpha_char c)) (lower text) = true).
  { induction text as [|c text IH]; [reflexivity|].
    simpl in *. apply andb_true_iff in H as [Hc H].
    rewrite isalpha_char_lower, Hc. simpl. apply IH, H. }
  pose proof (all_chars_clean_words _ _ Hl) as Hws.
  destruct (clean_words (lower text)) as [|w ws] eqn:E; [reflexivity|].
  exfalso.
  assert (Hin : w ∈ clean_words (lower text)) by (rewrite E; apply list_elem_of_here).
  apply list_elem_of_In, filter_In in Hin as [_ Halpha].
  apply Forall_cons in Hws as [Hw _].
  destruct w as [|c w]; [discriminate|].
  simpl in Halpha, Hw.
  apply andb_true_iff in Halpha as [Hc _].
  apply andb_true_iff in Hw as [Hc' _]. rewrite Hc in Hc'. discriminate.
Qed.

Lemma clean_words_no_letters_witness :
  all_chars (fun c => negb (isalpha_char c)) "12, 34 -- 5!" = true
  /\ clean_words (lower "12, 34 -- 5!") = [].
Proof.
  split; [reflexivity|]. apply clean_words_no_letters. reflexivity.
Defined.


(** ** Discovery *)

Lemma length_append s1 s2 :
  String.length (s1 +:+ s2) = (String.length s1 + String.length s2)%nat.
Proof.
  induction s1 as [|c s1 IH]; [reflexivity|].
  rewrite append_cons. simpl. rewrite IH. reflexivity.
Qed.

Lemma substring_append_skip s1 s2 k m :
  String.substring (String.length s1 + k) m (s1 +:+ s2) = String.substring k m s2.
Proof.
  induction s1 as [|c s1 IH]; [reflexivity|].
  rewrite append_cons. simpl. exact IH.
Qed.

Lemma endswith_append s1 s2 suffix :
  endswith s2 suffix = true -> endswith (s1 +:+ s2) suffix = true.
Proof.
  unfold endswith. intros [Hlen Heq]%andb_true_iff.
  apply Nat.leb_le in Hlen. rewrite length_append.
  apply andb_true_iff. split; [apply Nat.leb_le; lia|].
  replace (String.length s1 + String.length s2 - String.length suffix)%nat
    with (String.length s1 + (String.length s2 - String.length suffix))%nat by lia.
  rewrite substring_append_skip. exact Heq.
Qed.

Lemma endswith_path_join folder name suffix :
  endswith name suffix = true -> endswith (path_join folder name) suffix = true.
Proof.
  intros H. unfold path_join.
  destruct (startswith name "/"); [exact H|].
  destruct (String.eqb folder "" || endswith folder "/").
  - apply endswith_append, H.
  - apply endswith_append, endswith_append, H.
Qed.

Lemma contains_append s1 s2 c :
  contains (s1 +:+ s2) c = contains s1 c || contains s2 c.
Proof.
  induction s1 as [|c1 s1 IH]; [reflexivity|].
  rewrite append_cons. simpl. rewrite IH, orb_assoc. reflexivity.
Qed.

Lemma basename_no_slash p : contains p "/" = false -> basename p = p.
Proof. intros H. destruct p; [reflexivity|]. cbn [basename]. rewrite H. reflexivity. Qed.

Lemma basename_after_slash s name :
  contains name "/" = false -> basename (s +:+ "/" +:+ name) = name.
Proof.
  intros H. induction s as [|c s IH].
  - rewrite append_nil_l.
    change ("/" +:+ name) with (String "/" name). cbn [basename].
    rewrite (basename_no_slash name H). reflexivity.
  - rewrite append_cons. cbn [basename contains].
    rewrite contains_append.
    change (contains ("/" +:+ name) "/") with true.
    rewrite orb_true_r, orb_true_r. exact IH.
Qed.

Lemma endswith_slash_inv s : endswith s "/" = true -> exists s', s = s' +:+ "/".
Proof.
  induction s as [|c s IH]; [discriminate|].
  destruct s as [|c' s].
  - unfold endswith. simpl. intros H.
    destruct (Ascii.eqb_spec c "/") as [->|]; [|discriminate].
    exists "". reflexivity.
  - intros H. destruct IH as [s' Hs'].
    + etransitivity; [|exact H]. unfold endswith. cbn [String.length].
      rewrite !Nat.sub_succ, !Nat.sub_0_r. reflexivity.
    + exists (String c s'). rewrite append_cons, <- Hs'. reflexivity.
Qed.

Lemma basename_path_join folder name :
  contains name "/" = false -> basename (path_join folder name) = name.
Proof.
  intros H. unfold path_join.
  destruct (startswith name "/") eqn:Hs.
  { destruct name as [|c name]; [discriminate|].
    unfold startswith in Hs. cbn [String.prefix] in Hs.
    destruct (ascii_dec "/" c) as [<-|]; [|discriminate].
    discriminate H. }
  destruct (String.eqb_spec folder "") as [->|Hne]; simpl.
  - rewrite append_nil_l. apply basename_no_slash, H.
  - destruct (endswith folder "/") eqn:He.
    + apply endswith_slash_inv in He as [s' ->].
      rewrite append_assoc. apply basename_after_slash, H.
    + apply basename_after_slash, H.
Qed.

(** X11: discovery keeps the names that end in ".txt", in listing order, each
    joined to the folder: every discovered path ends in ".txt", and since
    a listed name holds no slash, the base name of a path is the name it
    came from. *)
Theorem discover_txt_files fs folder_path names :
  listdir fs folder_path = Return names ->
  Forall (fun name => contains name "/" = false) names ->
  exists filepaths,
    discover fs folder_path = Return filepaths
    /\ Forall (fun p => endswith p ".txt" = true) filepaths
    /\ map basename filepaths
       = List.filter (fun name => endswith name ".txt") names.
Proof.
  intros Hl Hnames. unfold discover. rewrite Hl.
  eexists. split; [reflexivity|]. split.
  - apply Forall_forall. intros p Hp.
    apply list_elem_of_In, in_map_iff in Hp as (name & <- & Hin).
    apply filter_In in Hin as [_ Htxt]. apply endswith_path_join, Htxt.
  - clear Hl. induction Hnames as [|name names Hname Hnames IH]; [reflexivity|].
    simpl. destruct (endswith name ".txt"); [|exact IH].
    simpl. rewrite basename_path_join, IH by assumption. reflexivity.
Qed.

Lemma discover_txt_files_witness :
  listdir fs_demo "data" = Return ["a.txt"; "notes.md"; "b.txt"; "gone.txt"]
  /\ Forall (fun name => contains name "/" = false)
            ["a.txt"; "notes.md"; "b.txt"; "gone.txt"]
  /\ exists filepaths,
       discover fs_demo "data" = Return filepaths
       /\ Forall (fun p => endswith p ".txt" = true) filepaths
       /\ map basename filepaths
          = List.filter (fun name => endswith name ".txt")
              ["a.txt"; "notes.md"; "b.txt"; "gone.txt"].
Proof.
  assert (H : Forall (fun name => contains name "/" = false)
                     ["a.txt"; "notes.md"; "b.txt"; "gone.txt"]).
  { repeat (apply List.Forall_cons; [reflexivity|]). apply List.Forall_nil. }
  split; [reflexivity|]. split; [exact H|].
  exact (discover_txt_files fs_demo "data" _ eq_refl H).
Defined.

(** ** Chunking *)

Lemma chunk_loop_shape W cs fuel i acc :
  (0 < cs)%nat -> (i < length W)%nat -> (length W - i <= fuel)%nat ->
  exists full last,
    chunk_loop W cs (range_up fuel i (length W) cs) acc = acc ++ full ++ [last]
    /\ Forall (fun c => length c = cs) full
    /\ (1 <= length last <= cs)%nat
    /\ (length full * cs + length last = length W - i)%nat.
Proof.
  intros Hcs. revert i acc. induction fuel as [|fuel IH]; intros i acc Hi Hfuel;
    [lia|].
  simpl. rewrite (proj2 (Nat.ltb_lt i (length W)) Hi). simpl.
  destruct (Nat.ltb_spec (i + cs) (length W)) as [Hlt|Hge].
  - destruct (IH (i + cs)%nat (acc ++ [slice W i (i + cs)]) Hlt ltac:(lia))
      as (full & last & -> & Hfull & Hlast & Hsum).
    exists (slice W i (i + cs) :: full), last.
    assert (Hchunk : length (slice W i (i + cs)) = cs).
    { unfold slice. rewrite length_take, length_drop. lia. }
    split; [rewrite <- app_assoc; reflexivity|].
    split; [constructor; assumption|]. split; [exact Hlast|].
    simpl. lia.
  - exists [], (slice_from W i). unfold slice_from. rewrite length_drop.
    split; [reflexivity|]. split; [constructor|]. simpl. split; lia.
Qed.

(** X12: from four words on, the chunks are runs of exactly len(words) // 4
    words followed by a last, shorter or equal, non-empty run; joined
    they give the word list back, and there are between four and seven
    of them, so that many threads or tasks. *)
Theorem make_chunks_shape W :
  (4 <= length W)%nat ->
  exists full last,
    make_chunks W = Return (full ++ [last])
    /\ concat (full ++ [last]) = W
    /\ Forall (fun c => length c = (length W / 4)%nat) full
    /\ (1 <= length last <= length W / 4)%nat
    /\ (4 <= length (full ++ [last]) <= 7)%nat.
Proof.
  intros Hlen.
  destruct (make_chunks_large W Hlen) as (chunks & Hc & HW).
  pose proof (Nat.div_mod_eq (length W) 4) as Hdm.
  pose proof (Nat.mod_upper_bound (length W) 4 ltac:(lia)) as Hmod.
  assert (Hcs : (0 < length W / 4)%nat) by (apply Nat.div_str_pos; lia).
  unfold make_chunks in *.
  destruct (length W / 4)%nat as [|cs] eqn:E; [lia|].
  unfold range in *.
  destruct (chunk_loop_shape W (S cs) (length W - 0) 0 [] Hcs ltac:(lia) ltac:(lia))
    as (full & last & Hloop & Hfull & Hlast & Hsum).
  simpl in Hloop. rewrite Hloop in Hc. injection Hc as <-.
  exists full, last. split; [rewrite Hloop; reflexivity|].
  split; [exact HW|]. split; [exact Hfull|]. split; [exact Hlast|].
  rewrite length_app. simpl. nia.
Qed.

Lemma make_chunks_shape_witness :
  (4 <= length ["a"; "b"; "c"; "d"; "e"; "f"; "g"])%nat
  /\ exists full last,
    make_chunks ["a"; "b"; "c"; "d"; "e"; "f"; "g"] = Return (full ++ [last])
    /\ concat (full ++ [last]) = ["a"; "b"; "c"; "d"; "e"; "f"; "g"]
    /\ Forall (fun c => length c = (length ["a"; "b"; "c"; "d"; "e"; "f"; "g"] / 4)%nat)
              full
    /\ (1 <= length last <= length ["a"; "b"; "c"; "d"; "e"; "f"; "g"] / 4)%nat
    /\ (4 <= length (full ++ [last]) <= 7)%nat.
Proof.
  split; [simpl; lia|]. apply make_chunks_shape. simpl; lia.
Defined.

Lemma chunked_statistics_agree_witness :
  accepts_every_line console0
  /\ (4 <= length ["to"; "be"; "or"; "not"; "to"; "be"])%nat
  /\ exists s s1 s2,
    (run (compute_word_statistics_simple console0
            ["to"; "be"; "or"; "not"; "to"; "be"] "threading") world0).1
    = Return s
    /\ (run (_compute_stats_threading_simple console0
               ["to"; "be"; "or"; "not"; "to"; "be"] [3; 0; 5; 1]%nat) world0).1
       = Return s1
    /\ (run (_compute_stats_multiprocessing_simple console0
               ["to"; "be"; "or"; "not"; "to"; "be"] [2; 2]%nat) world0).1
       = Return s2
    /\ frequencies s1 = frequencies s /\ top_10 s1 = top_10 s
    /\ total_words s1 = total_words s /\ unique_words s1 = unique_words s
    /\ frequencies s2 = frequencies s /\ top_10 s2 = top_10 s
    /\ total_words s2 = total_words s /\ unique_words s2 = unique_words s.
Proof.
  split; [exact console0_accepts|]. split; [simpl; lia|].
  apply chunked_statistics_agree; [exact console0_accepts|simpl; lia].
Defined.


(** ** Time accounting of the sequential strategy *)

Lemma run_sequential_loop out fs filepaths acc tsum w :
  accepts_every_line out ->
  (forall i j, (i <= j)%nat -> clock w i <= clock w j) ->
  exists t' w',
    run (for_loop filepaths
           (fun filepath '(all_words, total_processing_time) =>
              and_then (read_and_clean_file out fs filepath)
                (fun '(filepath_result, words, proc_time) =>
                   mret (Return (all_words ++ words,
                                 total_processing_time + proc_time))))
           (acc, tsum)) w
    = (Return (acc ++ concat (map (words_of_file fs) filepaths), t'), w')
    /\ clock w' = clock w
    /\ reads w' = (reads w + 2 * length filepaths)%nat
    /\ length (stdout w') = (length (stdout w) + length filepaths)%nat
    /\ tsum <= t'
       <= tsum + (clock w (reads w + 2 * length filepaths)%nat - clock w (reads w)).
Proof.
  intros Hcon. revert acc tsum w.
  induction filepaths as [|filepath filepaths IH]; intros acc tsum w Hmono.
  - exists tsum, w. simpl. rewrite app_nil_r, Nat.add_0_r.
    repeat split; try reflexivity; lia.
  - cbn [for_loop]. rewrite !run_and_then.
    pose proof (run_read_and_clean_file out fs filepath w) as Hrun.
    cbv zeta in Hrun. rewrite Hrun. clear Hrun.
    pose proof (Hmono (reads w) (S (reads w)) ltac:(lia)) as He.
    pose proof (Hmono (S (reads w)) (S (S (reads w))) ltac:(lia)) as He'.
    cbn [map concat]. unfold words_of_file at 1.
    destruct (read_text fs filepath) as [contents|e]; rewrite Hcon; simpl;
      match goal with
      | |- context [run (for_loop _ _ (?a, ?t)) ?w1] =>
          destruct (IH a t w1 Hmono) as (t' & w' & -> & Hclock & Hreads & Hout & Ht')
      end;
      simpl in *; exists t', w'; rewrite <- ?app_assoc;
      (split; [reflexivity|]); (split; [exact Hclock|]);
      (split; [lia|]); (split; [rewrite Hout, length_app; simpl; lia|]);
      replace (reads w + S (length filepaths + S (length filepaths + 0)))%nat
        with (S (S (reads w + (length filepaths + (length filepaths + 0)))))%nat
        by lia;
      lia.
Qed.

(** X13: with a clock that does not run backwards and a console that
    takes every line, the sequential strategy reports a summed per-file
    time between zero and the total time, so the overhead [main] derives
    from the two is not negative; it reads the clock twice per file and
    twice more, and prints one line per file and two more. *)
Theorem sequential_time_accounting out fs folder_path filepaths w :
  accepts_every_line out ->
  (forall i j, (i <= j)%nat -> clock w i <= clock w j) ->
  discover fs folder_path = Return filepaths ->
  exists b w',
    run (process_with_sequential out fs folder_path) w = (Return b, w')
    /\ 0 <= processing_time b <= total_time b
    /\ reads w' = (reads w + 2 * length filepaths + 2)%nat
    /\ length (stdout w') = (length (stdout w) + length filepaths + 2)%nat.
Proof.
  intros Hcon Hmono Hd. unfold process_with_sequential. rewrite Hd. simpl.
  rewrite Hcon. simpl. rewrite ?and_then_return, run_and_then.
  match goal with
  | |- context [run (for_loop ?xs ?body ?a) ?w1] =>
      destruct (run_sequential_loop out fs filepaths [] 0 w1 Hcon Hmono)
        as (t' & w' & Hrun & Hclock & Hreads & Hout & Ht');
      assert (Hrun' : run (for_loop xs body a) w1
                      = (Return ([] ++ concat (map (words_of_file fs) filepaths), t'),
                         w')) by exact Hrun;
      rewrite Hrun'; clear Hrun Hrun'
  end.
  simpl in *. rewrite Hcon. simpl.
  eexists _, _. split; [reflexivity|]. simpl.
  rewrite Hclock, Hreads, !length_app, Hout, length_app. simpl.
  split; [|split; lia].
  pose proof (Hmono (reads w) (S (reads w)) ltac:(lia)).
  replace (S (reads w) + 2 * length filepaths)%nat
    with (S (reads w + (length filepaths + (length filepaths + 0))))%nat by lia.
  lia.
Qed.

Lemma sequential_time_accounting_witness :
  accepts_every_line console0
  /\ (forall i j, (i <= j)%nat -> clock world0 i <= clock world0 j)
  /\ discover fs_demo "data"
     = Return ["data/a.txt"; "data/b.txt"; "data/gone.txt"]
  /\ exists b w',
    run (process_with_sequential console0 fs_demo "data") world0 = (Return b, w')
    /\ 0 <= processing_time b <= total_time b
    /\ reads w' = (reads world0 + 2 * 3 + 2)%nat
    /\ length (stdout w') = (length (stdout world0) + 3 + 2)%nat.
Proof.
  assert (Hmono : forall i j, (i <= j)%nat -> clock world0 i <= clock world0 j).
  { intros i j Hij. simpl. lia. }
  split; [exact console0_accepts|]. split; [exact Hmono|].
  split; [reflexivity|].
  exact (sequential_time_accounting console0 fs_demo "data" _ world0
           console0_accepts Hmono eq_refl).
Defined.


(** ** The order of strings and the sorted vocabulary *)

Lemma ascii_compare_eq a b : Ascii.compare a b = Eq <-> a = b.
Proof.
  split; [apply Ascii.compare_eq_iff|]. intros ->.
  unfold Ascii.compare. apply N.compare_refl.
Qed.

Lemma ascii_compare_lt_trans a b c :
  Ascii.compare a b = Lt -> Ascii.compare b c = Lt -> Ascii.compare a c = Lt.
Proof.
  unfold Ascii.compare. rewrite !N.compare_lt_iff. apply N.lt_trans.
Qed.

Lemma string_compare_eq s1 s2 : String.compare s1 s2 = Eq <-> s1 = s2.
Proof.
  split; [apply String.compare_eq_iff|]. intros ->.
  induction s2 as [|c s IH]; [reflexivity|]. simpl.
  rewrite (proj2 (ascii_compare_eq c c) eq_refl). exact IH.
Qed.

Lemma string_compare_lt_trans s1 s2 s3 :
  String.compare s1 s2 = Lt -> String.compare s2 s3 = Lt ->
  String.compare s1 s3 = Lt.
Proof.
  revert s2 s3. induction s1 as [|c1 s1 IH]; intros [|c2 s2] [|c3 s3]; simpl;
    try discriminate; try reflexivity.
  destruct (Ascii.compare c1 c2) eqn:E12; try discriminate;
    destruct (Ascii.compare c2 c3) eqn:E23; try discriminate; intros H12 H23.
  - apply ascii_compare_eq in E12 as ->. rewrite E23. eapply IH; eassumption.
  - apply ascii_compare_eq in E12 as ->. rewrite E23. reflexivity.
  - apply ascii_compare_eq in E23 as <-. rewrite E12. reflexivity.
  - rewrite (ascii_compare_lt_trans _ _ _ E12 E23). reflexivity.
Qed.

Lemma string_leb_iff s1 s2 :
  String.leb s1 s2 = true <-> String.ltb s1 s2 = true \/ s1 = s2.
Proof.
  unfold String.leb, String.ltb.
  destruct (String.compare s1 s2) eqn:E.
  - apply string_compare_eq in E. tauto.
  - tauto.
  - split; [discriminate|]. intros [?| ->]; [discriminate|].
    rewrite (proj2 (string_compare_eq s2 s2) eq_refl) in E. discriminate.
Qed.

Lemma string_ltb_trans s1 s2 s3 :
  String.ltb s1 s2 = true -> String.ltb s2 s3 = true -> String.ltb s1 s3 = true.
Proof.
  unfold String.ltb.
  destruct (String.compare s1 s2) eqn:E12; try discriminate.
  destruct (String.compare s2 s3) eqn:E23; try discriminate.
  rewrite (string_compare_lt_trans _ _ _ E12 E23). reflexivity.
Qed.

Lemma string_leb_trans s1 s2 s3 :
  String.leb s1 s2 = true -> String.leb s2 s3 = true -> String.leb s1 s3 = true.
Proof.
  rewrite !string_leb_iff. intros [H12| ->] [H23| ->]; auto.
  left. eapply string_ltb_trans; eassumption.
Qed.

Lemma insert_str_perm x l : insert_str x l ≡ₚ x :: l.
Proof.
  induction l as [|y l IH]; simpl; [reflexivity|].
  destruct (String.leb x y); [reflexivity|].
  rewrite IH. apply Permutation_swap.
Qed.

Lemma sorted_str_perm l : sorted_str l ≡ₚ l.
Proof.
  induction l as [|x l IH]; simpl; [reflexivity|].
  rewrite insert_str_perm, IH. reflexivity.
Qed.

Lemma insert_str_sorted x l :
  StronglySorted (fun a b => String.leb a b = true) l ->
  StronglySorted (fun a b => String.leb a b = true) (insert_str x l).
Proof.
  induction 1 as [|y l Hl IH Hy]; simpl.
  - repeat constructor.
  - destruct (String.leb x y) eqn:E.
    + constructor; [constructor; assumption|].
      constructor; [exact E|].
      eapply Forall_impl; [exact Hy|]. intros z Hz.
      eapply string_leb_trans; eassumption.
    + constructor; [exact IH|].
      rewrite insert_str_perm. constructor; [|exact Hy].
      destruct (String.leb_total x y) as [H|H]; [congruence|exact H].
  Qed.

Lemma sorted_str_sorted l :
  StronglySorted (fun a b => String.leb a b = true) (sorted_str l).
Proof.
  induction l as [|x l IH]; simpl; [constructor|].
  apply insert_str_sorted, IH.
Qed.

Lemma sorted_nodup_strict l :
  NoDup l -> StronglySorted (fun a b => String.leb a b = true) l ->
  StronglySorted (fun a b => String.ltb a b = true) l.
Proof.
  intros Hnd Hs. induction Hs as [|x l Hl IH Hx]; [constructor|].
  apply NoDup_cons in Hnd as [Hx' Hnd].
  constructor; [apply IH, Hnd|].
  apply Forall_forall. intros y Hy.
  pose proof (proj1 (Forall_forall _ _) Hx y Hy) as Hle.
  apply string_leb_iff in Hle as [Hlt| ->]; [exact Hlt|contradiction].
Qed.

(** The vocabulary of a word list, as both writers sort it: strictly
    ascending, and holding exactly the words of the list. *)
Lemma sorted_vocabulary W :
  StronglySorted (fun a b => String.ltb a b = true)
                 (sorted_str (keys (count_words_simple W)))
  /\ (forall w, w ∈ sorted_str (keys (count_words_simple W)) <-> w ∈ W)
  /\ length (sorted_str (keys (count_words_simple W))) = distinct_words W.
Proof.
  split; [|split].
  - apply sorted_nodup_strict; [|apply sorted_str_sorted].
    rewrite sorted_str_perm. apply (wf_count_into [] W), wf_nil.
  - intros w. rewrite sorted_str_perm.
    change (count_words_simple W) with (count_into [] W).
    rewrite elem_of_keys_count_into, elem_of_nil. tauto.
  - rewrite (Permutation_length (sorted_str_perm _)).
    unfold keys. rewrite length_map. apply length_count_words_simple.
Qed.

Lemma insert_by_time_perm x l : insert_by_time x l ≡ₚ x :: l.
Proof.
  induction l as [|y l IH]; simpl; [reflexivity|].
  destruct (time_leb _ _); [reflexivity|].
  rewrite IH. apply Permutation_swap.
Qed.

Lemma sorted_by_time_perm l : sorted_by_time l ≡ₚ l.
Proof.
  induction l as [|x l IH]; simpl; [reflexivity|].
  rewrite insert_by_time_perm, IH. reflexivity.
Qed.

Lemma time_leb_trans a b c :
  time_leb a b = true -> time_leb b c = true -> time_leb a c = true.
Proof.
  destruct a, b, c; simpl; try discriminate; try reflexivity.
  rewrite !Z.leb_le. lia.
Qed.

Lemma time_leb_total a b : time_leb a b = true \/ time_leb b a = true.
Proof.
  destruct a, b; simpl; auto. rewrite !Z.leb_le. lia.
Qed.

Lemma insert_by_time_sorted x l :
  StronglySorted (fun a b => time_leb (get_total_time a.2) (get_total_time b.2) = true) l ->
  StronglySorted (fun a b => time_leb (get_total_time a.2) (get_total_time b.2) = true)
                 (insert_by_time x l).
Proof.
  induction 1 as [|y l Hl IH Hy]; simpl.
  - repeat constructor.
  - destruct (time_leb (get_total_time x.2) (get_total_time y.2)) eqn:E.
    + constructor; [constructor; assumption|].
      constructor; [exact E|].
      eapply Forall_impl; [exact Hy|]. intros z Hz.
      eapply time_leb_trans; eassumption.
    + constructor; [exact IH|].
      rewrite insert_by_time_perm. constructor; [|exact Hy].
      destruct (time_leb_total (get_total_time x.2) (get_total_time y.2)) as [H|H];
        [congruence|exact H].
Qed.

Lemma sorted_by_time_sorted l :
  StronglySorted (fun a b => time_leb (get_total_time a.2) (get_total_time b.2) = true)
                 (sorted_by_time l).
Proof.
  induction l as [|x l IH]; simpl; [constructor|].
  apply insert_by_time_sorted, IH.
Qed.

Lemma insert_by_time_stable (t : option Time) x l :
  List.filter (fun y => bool_decide (get_total_time y.2 = t)) (insert_by_time x l)
  = List.filter (fun y => bool_decide (get_total_time y.2 = t)) (x :: l).
Proof.
  induction l as [|y l IH]; [reflexivity|].
  simpl insert_by_time.
  destruct (time_leb (get_total_time x.2) (get_total_time y.2)) eqn:E;
    [reflexivity|].
  simpl in *. rewrite IH.
  destruct (decide (get_total_time x.2 = t)) as [Hx|Hx];
    [|rewrite (bool_decide_eq_false_2 _ Hx); reflexivity].
  destruct (decide (get_total_time y.2 = t)) as [Hy|Hy];
    [|rewrite (bool_decide_eq_false_2 _ Hy); reflexivity].
  exfalso. rewrite Hx, Hy in E.
  destruct (time_leb_total t t) as [H|H]; congruence.
Qed.

Lemma sorted_by_time_stable (t : option Time) l :
  List.filter (fun y => bool_decide (get_total_time y.2 = t)) (sorted_by_time l)
  = List.filter (fun y => bool_decide (get_total_time y.2 = t)) l.
Proof.
  induction l as [|x l IH]; [reflexivity|].
  simpl sorted_by_time. rewrite insert_by_time_stable.
  simpl. rewrite IH. reflexivity.
Qed.


(** ** Running the report writer *)

Section WriterFacts.

Implicit Types (st : World * Disk) (p q : string) (ss : list written).

Lemma run_mret {S R} (x : R) (s : S) : run (mret x) s = (x, s).
Proof. reflexivity. Qed.

Lemma run_os_makedirs p st :
  run (os_makedirs p) st
  = (match makedirs_error st.2 p with Some e => Raise e | None => Return tt end, st).
Proof. reflexivity. Qed.

Lemma run_open_w_error p st e :
  open_error st.2 p = Some e -> run (open_w p) st = (Raise e, st).
Proof. intros H. unfold open_w. simpl. rewrite H. reflexivity. Qed.

Lemma run_open_w p st :
  open_error st.2 p = None -> run (open_w p) st = (Return tt, write_file p [] st).
Proof. intros H. unfold open_w. simpl. rewrite H. reflexivity. Qed.

Lemma run_f_write p s ss st :
  run (f_write p s) (write_file p ss st) = (Return tt, write_file p (ss ++ [s]) st).
Proof.
  unfold f_write, write_file. simpl. do 3 f_equal.
  apply map_eq. intros q. rewrite lookup_alter.
  destruct (decide (p = q)) as [<-|Hne].
  - rewrite !lookup_insert_eq. reflexivity.
  - rewrite !lookup_insert_ne by assumption. reflexivity.
Qed.

Lemma run_for_each_write {A} p (g : A -> written)
    (body : A -> prog (World * Disk) (result unit)) xs ss st :
  (forall x, body x = f_write p (g x)) ->
  run (for_each xs body) (write_file p ss st)
  = (Return tt, write_file p (ss ++ map g xs) st).
Proof.
  intros Hbody. unfold for_each. revert ss.
  induction xs as [|x xs IH]; intros ss.
  - simpl. rewrite app_nil_r. reflexivity.
  - cbn [for_loop]. rewrite run_and_then, Hbody, run_f_write, IH.
    simpl. rewrite <- app_assoc. reflexivity.
Qed.

Lemma run_print_out out l st :
  write_error out l = None ->
  run (print_out out l) st = (Return tt, printed [l] st).
Proof. intros H. destruct st. unfold print_out. simpl. rewrite H. reflexivity. Qed.

Lemma run_print_out_error out l st e :
  write_error out l = Some e -> run (print_out out l) st = (Raise e, st).
Proof. intros H. destruct st. unfold print_out. simpl. rewrite H. reflexivity. Qed.

Lemma printed_printed ls1 ls2 st :
  printed ls2 (printed ls1 st) = printed (ls1 ++ ls2) st.
Proof. unfold printed. simpl. rewrite <- app_assoc. reflexivity. Qed.

Lemma write_file_twice p ss1 ss2 st :
  write_file p ss2 (write_file p ss1 st) = write_file p ss2 st.
Proof.
  unfold write_file. simpl. do 2 f_equal. apply insert_insert_eq.
Qed.

Lemma lookup_write_file p ss st q :
  files (write_file p ss st).2 !! q
  = if decide (p = q) then Some ss else files st.2 !! q.
Proof. unfold write_file. simpl. apply lookup_insert. Qed.

Lemma lookup_printed ls st q : files (printed ls st).2 !! q = files st.2 !! q.
Proof. reflexivity. Qed.

Lemma run_method_block p entry ss st :
  get_words entry.2 <> None ->
  run (let '(method, result) := entry in
       let! _ := f_write p [WLit "Method: "; WLit method; WLit newline] in
       let! result_words := mret (getitem_words result) in
       let! _ := f_write p [WLit "  Words Processed: "; WInt (len result_words);
                            WLit newline] in
       let! _ := match get_total_time result with
                 | Some total_time =>
                     f_write p [WLit "  Total Time: "; WSeconds4 total_time;
                                WLit " seconds"; WLit newline]
                 | None => mret (Return tt)
                 end in
       let! _ := match get_computation_time result with
                 | Some computation_time =>
                     f_write p [WLit "  Statistics Computation Time: ";
                                WSeconds4 computation_time;
                                WLit " seconds"; WLit newline]
                 | None => mret (Return tt)
                 end in
       f_write p [WLit newline])
      (write_file p ss st)
  = (Return tt, write_file p (ss ++ method_block entry) st).
Proof.
  destruct entry as [method [ws t c]]. unfold method_block, getitem_words.
  cbn [get_words get_total_time get_computation_time fst snd].
  intros Hws. destruct ws as [ws|]; [|contradiction]. clear Hws.
  destruct t as [t|], c as [c|];
    repeat first [rewrite run_and_then | rewrite run_mret
                 | rewrite and_then_return | rewrite run_f_write];
    rewrite <- ?app_assoc; reflexivity.
Qed.

End WriterFacts.


Section WriteOutputFiles.

Implicit Types (st : World * Disk) (all_results : list (string * ResultDict)).

Lemma run_performance_loop p (entries : list (string * ResultDict)) ss st :
  Forall (fun entry => get_words entry.2 <> None) entries ->
  run (for_each entries
         (fun '(method, result) =>
            let! _ := f_write p [WLit "Method: "; WLit method; WLit newline] in
            let! result_words := mret (getitem_words result) in
            let! _ := f_write p [WLit "  Words Processed: ";
                                 WInt (len result_words); WLit newline] in
            let! _ := match get_total_time result with
                      | Some total_time =>
                          f_write p [WLit "  Total Time: "; WSeconds4 total_time;
                                     WLit " seconds"; WLit newline]
                      | None => mret (Return tt)
                      end in
            let! _ := match get_computation_time result with
                      | Some computation_time =>
                          f_write p [WLit "  Statistics Computation Time: ";
                                     WSeconds4 computation_time;
                                     WLit " seconds"; WLit newline]
                      | None => mret (Return tt)
                      end in
            f_write p [WLit newline]))
      (write_file p ss st)
  = (Return tt, write_file p (ss ++ concat (map method_block entries)) st).
Proof.
  intros H. revert ss. unfold for_each.
  induction H as [|entry entries Hentry H IH]; intros ss.
  - simpl. rewrite app_nil_r. reflexivity.
  - cbn [for_loop]. rewrite run_and_then.
    rewrite (run_method_block p entry ss st Hentry), IH.
    simpl. rewrite <- app_assoc. reflexivity.
Qed.

(** What a successful call leaves behind. *)
Lemma run_write_output_files out all_results output_folder st k r rest ws :
  Forall (fun l => write_error out l = None) (closing_lines output_folder) ->
  makedirs_error st.2 output_folder = None ->
  all_results = (k, r) :: rest ->
  get_words r = Some ws ->
  Forall (fun entry => get_words entry.2 <> None) all_results ->
  open_error st.2 (path_join output_folder "vocabulary.txt") = None ->
  open_error st.2 (path_join output_folder "vocabulary_stats.txt") = None ->
  open_error st.2 (path_join output_folder "performance_comparison.txt") = None ->
  run (write_output_files out all_results output_folder) st
  = (Return tt,
     printed (closing_lines output_folder)
       (write_file (path_join output_folder "performance_comparison.txt")
          (performance_heading
           ++ concat (map method_block (sorted_by_time all_results)))
          (write_file (path_join output_folder "vocabulary_stats.txt")
             (stats_lines true (len ws)
                (len (sorted_str (keys (count_words_simple ws))))
                (get_top_words (count_words_simple ws) 10))
             (write_file (path_join output_folder "vocabulary.txt")
                (vocabulary_lines (sorted_str (keys (count_words_simple ws))))
                st)))).
Proof.
  intros Hlines Hmk Hall Hws Hwords Hv Hs Hc.
  unfold closing_lines in Hlines.
  apply Forall_cons in Hlines as [Hl1 Hlines].
  apply Forall_cons in Hlines as [Hl2 Hlines].
  apply Forall_cons in Hlines as [Hl3 Hlines].
  apply Forall_cons in Hlines as [Hl4 Hlines].
  apply Forall_cons in Hlines as [Hl5 _].
  assert (Hsorted : Forall (fun entry => get_words entry.2 <> None)
                           (sorted_by_time all_results)).
  { rewrite sorted_by_time_perm. exact Hwords. }
  unfold write_output_files.
  rewrite run_and_then, run_os_makedirs, Hmk.
  assert (Hfirst : first_key all_results = Return k) by (rewrite Hall; reflexivity).
  assert (Hget : getitem all_results k = Return r).
  { rewrite Hall. cbn [getitem]. rewrite String.eqb_refl. reflexivity. }
  rewrite Hfirst, and_then_return, Hget, and_then_return.
  assert (Hgw : getitem_words r = Return ws)
    by (unfold getitem_words; rewrite Hws; reflexivity).
  rewrite Hgw, and_then_return. cbv zeta.
  rewrite run_and_then, run_open_w by exact Hv.
  rewrite run_and_then,
    (run_for_each_write _ (fun word => [WLit word; WLit newline]))
    by reflexivity.
  rewrite run_and_then, run_open_w by exact Hs.
  repeat (rewrite (run_and_then (f_write _ _)), run_f_write).
  rewrite run_and_then,
    (run_for_each_write _ (ranking_line true))
    by (intros [i [word count]]; reflexivity).
  rewrite run_and_then, run_f_write.
  rewrite run_and_then, run_open_w by exact Hc.
  repeat (rewrite (run_and_then (f_write _ _)), run_f_write).
  rewrite run_and_then, run_performance_loop by exact Hsorted.
  repeat (rewrite (run_and_then (print_out _ _)), run_print_out by assumption).
  rewrite run_print_out, !printed_printed by assumption.
  rewrite <- !app_assoc. reflexivity.
Qed.

End WriteOutputFiles.


(** ** What the report writer leaves on disk *)

Lemma path_join_inj folder a b :
  startswith a "/" = false -> startswith b "/" = false ->
  path_join folder a = path_join folder b -> a = b.
Proof.
  unfold path_join. intros -> ->.
  destruct (String.eqb folder "" || endswith folder "/"); intros H.
  - exact (String.app_inj folder _ _ H).
  - apply String.app_inj in H. apply (String.app_inj "/") in H. exact H.
Qed.

Lemma output_paths_distinct folder :
  path_join folder "vocabulary.txt" <> path_join folder "vocabulary_stats.txt"
  /\ path_join folder "vocabulary.txt"
     <> path_join folder "performance_comparison.txt"
  /\ path_join folder "vocabulary_stats.txt"
     <> path_join folder "performance_comparison.txt".
Proof.
  repeat split; intros H; apply path_join_inj in H; try reflexivity;
    discriminate H.
Qed.

(** X14: [write_output_files] fails before it writes anything when the folder
    cannot be made, when there is no result, when the first result has no
    'words', or when vocabulary.txt cannot be opened: the exception goes
    to the caller, and neither a file nor the console has changed. *)
Theorem write_output_files_fails_early out all_results output_folder st e :
  fails_early all_results output_folder st e ->
  run (write_output_files out all_results output_folder) st = (Raise e, st).
Proof.
  unfold fails_early, write_output_files. rewrite run_and_then, run_os_makedirs.
  intros [->|[-> [[-> ->]|(k & r & rest & -> & H)]]]; [reflexivity..|].
  cbn [first_key getitem]. rewrite and_then_return, String.eqb_refl, and_then_return.
  unfold getitem_words at 1.
  destruct H as [[-> ->]|[[ws ->] Hopen]]; [reflexivity|].
  rewrite and_then_return. cbv zeta.
  rewrite run_and_then, (run_open_w_error _ _ _ Hopen). reflexivity.
Qed.

Lemma write_output_files_fails_early_witness :
  fails_early [] "output" (world0, disk0) (IndexError "list index out of range")
  /\ run (write_output_files console_ascii [] "output") (world0, disk0)
     = (Raise (IndexError "list index out of range"), (world0, disk0)).
Proof.
  assert (H : fails_early [] "output" (world0, disk0)
                (IndexError "list index out of range")).
  { right. split; [reflexivity|]. left. split; reflexivity. }
  split; [exact H|].
  exact (write_output_files_fails_early console_ascii [] "output"
           (world0, disk0) _ H).
Defined.

(** X15: when nothing stands in the way of writing the files and of
    printing the closing lines, vocabulary.txt holds one line per
    distinct word of the first result, in strictly ascending order, and
    vocabulary_stats.txt reports the number of words, the number of lines
    of vocabulary.txt, and the top-10 ranking numbered from 1. *)
Theorem write_output_files_vocabulary out all_results output_folder st ws :
  can_write_outputs out st output_folder ->
  results_with_words all_results ws ->
  exists st' vocabulary,
    run (write_output_files out all_results output_folder) st = (Return tt, st')
    /\ files st'.2 !! path_join output_folder "vocabulary.txt"
       = Some (vocabulary_lines vocabulary)
    /\ StronglySorted (fun a b => String.ltb a b = true) vocabulary
    /\ (forall w, w ∈ vocabulary <-> w ∈ ws)
    /\ files st'.2 !! path_join output_folder "vocabulary_stats.txt"
       = Some (stats_lines true (len ws) (len vocabulary)
                 (get_top_words (count_words_simple ws) 10))
    /\ length vocabulary = distinct_words ws.
Proof.
  intros (Hmk & Hv & Hs & Hc & Hlines) [(k & r & rest & Hall & Hws) Hwords].
  destruct (output_paths_distinct output_folder) as (Hvs & Hvc & Hsc).
  destruct (sorted_vocabulary ws) as (Hsorted & Hmem & Hlen).
  eexists _, (sorted_str (keys (count_words_simple ws))).
  split; [eapply run_write_output_files; eassumption|].
  rewrite !lookup_printed, !lookup_write_file.
  rewrite (decide_False (P := _ = path_join output_folder "vocabulary.txt"))
    by congruence.
  rewrite (decide_False (P := _ = path_join output_folder "vocabulary.txt"))
    by congruence.
  rewrite (decide_True (P := path_join output_folder "vocabulary.txt" = _))
    by reflexivity.
  rewrite (decide_False (P := _ = path_join output_folder "vocabulary_stats.txt"))
    by congruence.
  rewrite (decide_True (P := path_join output_folder "vocabulary_stats.txt" = _))
    by reflexivity.
  repeat split; try assumption; try reflexivity; apply Hmem.
Qed.

Lemma demo_can_write : can_write_outputs console0 (world0, disk0) "output".
Proof.
  repeat split. repeat (apply List.Forall_cons; [reflexivity|]).
  apply List.Forall_nil.
Qed.

Lemma demo_results_with_words :
  results_with_words demo_results ["to"; "be"; "or"; "not"; "to"; "be"].
Proof.
  split.
  - eexists _, _, _. split; reflexivity.
  - repeat (apply List.Forall_cons; [discriminate|]). apply List.Forall_nil.
Qed.

Lemma write_output_files_vocabulary_witness :
  can_write_outputs console0 (world0, disk0) "output"
  /\ results_with_words demo_results ["to"; "be"; "or"; "not"; "to"; "be"]
  /\ exists st' vocabulary,
    run (write_output_files console0 demo_results "output") (world0, disk0)
    = (Return tt, st')
    /\ files st'.2 !! path_join "output" "vocabulary.txt"
       = Some (vocabulary_lines vocabulary)
    /\ StronglySorted (fun a b => String.ltb a b = true) vocabulary
    /\ (forall w, w ∈ vocabulary <-> w ∈ ["to"; "be"; "or"; "not"; "to"; "be"])
    /\ files st'.2 !! path_join "output" "vocabulary_stats.txt"
       = Some (stats_lines true (len ["to"; "be"; "or"; "not"; "to"; "be"])
                 (len vocabulary)
                 (get_top_words
                    (count_words_simple ["to"; "be"; "or"; "not"; "to"; "be"]) 10))
    /\ length vocabulary = distinct_words ["to"; "be"; "or"; "not"; "to"; "be"].
Proof.
  split; [exact demo_can_write|]. split; [exact demo_results_with_words|].
  exact (write_output_files_vocabulary console0 demo_results "output" (world0, disk0) _
           demo_can_write demo_results_with_words).
Defined.

(** X16: the performance report lists every method once, by ascending total
    time, methods of equal time in the order of the dict and a method
    without a total time last; each block shows the number of words and
    the times the result has. *)
Theorem write_output_files_performance out all_results output_folder st ws :
  can_write_outputs out st output_folder ->
  results_with_words all_results ws ->
  exists st' entries,
    run (write_output_files out all_results output_folder) st = (Return tt, st')
    /\ files st'.2 !! path_join output_folder "performance_comparison.txt"
       = Some (performance_heading ++ concat (map method_block entries))
    /\ entries ≡ₚ all_results
    /\ StronglySorted
         (fun a b => time_leb (get_total_time a.2) (get_total_time b.2) = true)
         entries
    /\ (forall t, List.filter (fun y => bool_decide (get_total_time y.2 = t)) entries
                  = List.filter (fun y => bool_decide (get_total_time y.2 = t))
                                all_results).
Proof.
  intros (Hmk & Hv & Hs & Hc & Hlines) [(k & r & rest & Hall & Hws) Hwords].
  eexists _, (sorted_by_time all_results).
  split; [eapply run_write_output_files; eassumption|].
  rewrite !lookup_printed, !lookup_write_file.
  rewrite (decide_True (P := path_join output_folder "performance_comparison.txt" = _))
    by reflexivity.
  split; [reflexivity|]. split; [apply sorted_by_time_perm|].
  split; [apply sorted_by_time_sorted|]. intros t. apply sorted_by_time_stable.
Qed.

Lemma write_output_files_performance_witness :
  can_write_outputs console0 (world0, disk0) "output"
  /\ results_with_words demo_results ["to"; "be"; "or"; "not"; "to"; "be"]
  /\ exists st' entries,
    run (write_output_files console0 demo_results "output") (world0, disk0)
    = (Return tt, st')
    /\ files st'.2 !! path_join "output" "performance_comparison.txt"
       = Some (performance_heading ++ concat (map method_block entries))
    /\ entries ≡ₚ demo_results
    /\ StronglySorted
         (fun a b => time_leb (get_total_time a.2) (get_total_time b.2) = true)
         entries
    /\ (forall t, List.filter (fun y => bool_decide (get_total_time y.2 = t)) entries
                  = List.filter (fun y => bool_decide (get_total_time y.2 = t))
                                demo_results).
Proof.
  split; [exact demo_can_write|]. split; [exact demo_results_with_words|].
  exact (write_output_files_performance console0 demo_results "output" (world0, disk0) _
           demo_can_write demo_results_with_words).
Defined.

(** X17: a successful call touches the three files only, prints its five
    closing lines and never reads the clock. *)
Theorem write_output_files_frame out all_results output_folder st ws :
  can_write_outputs out st output_folder ->
  results_with_words all_results ws ->
  exists st',
    run (write_output_files out all_results output_folder) st = (Return tt, st')
    /\ (forall q, q <> path_join output_folder "vocabulary.txt" ->
                  q <> path_join output_folder "vocabulary_stats.txt" ->
                  q <> path_join output_folder "performance_comparison.txt" ->
                  files st'.2 !! q = files st.2 !! q)
    /\ stdout st'.1 = stdout st.1 ++ closing_lines output_folder
    /\ reads st'.1 = reads st.1 /\ clock st'.1 = clock st.1.
Proof.
  intros (Hmk & Hv & Hs & Hc & Hlines) [(k & r & rest & Hall & Hws) Hwords].
  eexists. split; [eapply run_write_output_files; eassumption|].
  split; [|repeat split].
  intros q Hqv Hqs Hqc. rewrite !lookup_printed, !lookup_write_file.
  rewrite !decide_False by congruence. reflexivity.
Qed.

Lemma write_output_files_frame_witness :
  can_write_outputs console0 (world0, disk0) "output"
  /\ results_with_words demo_results ["to"; "be"; "or"; "not"; "to"; "be"]
  /\ exists st',
    run (write_output_files console0 demo_results "output") (world0, disk0)
    = (Return tt, st')
    /\ (forall q, q <> path_join "output" "vocabulary.txt" ->
                  q <> path_join "output" "vocabulary_stats.txt" ->
                  q <> path_join "output" "performance_comparison.txt" ->
                  files st'.2 !! q = files (world0, disk0).2 !! q)
    /\ stdout st'.1 = stdout (world0, disk0).1 ++ closing_lines "output"
    /\ reads st'.1 = reads (world0, disk0).1
    /\ clock st'.1 = clock (world0, disk0).1.
Proof.
  split; [exact demo_can_write|]. split; [exact demo_results_with_words|].
  exact (write_output_files_frame console0 demo_results "output" (world0, disk0) _
           demo_can_write demo_results_with_words).
Defined.


(** ** The traditional files *)

Lemma run_write_traditional stats output_folder st :
  open_error st.2 (path_join output_folder "vocabulary.txt") = None ->
  open_error st.2 (path_join output_folder "vocabulary_stats.txt") = None ->
  run (write_traditional_output_files stats output_folder) st
  = (Return tt,
     write_file (path_join output_folder "vocabulary_stats.txt")
       (stats_lines false (total_words stats) (unique_words stats) (top_10 stats))
       (write_file (path_join output_folder "vocabulary.txt")
          (vocabulary_lines (sorted_str (keys (frequencies stats)))) st)).
Proof.
  intros Hv Hs. unfold write_traditional_output_files. cbv zeta.
  rewrite run_and_then, run_open_w by exact Hv.
  rewrite run_and_then,
    (run_for_each_write _ (fun word => [WLit word; WLit newline]))
    by reflexivity.
  rewrite run_and_then, run_open_w by exact Hs.
  repeat (rewrite (run_and_then (f_write _ _)), run_f_write).
  rewrite (run_for_each_write _ (ranking_line false))
    by (intros [i [word count]]; reflexivity).
  unfold stats_lines. rewrite app_nil_r. reflexivity.
Qed.

(** X18: when vocabulary_stats.txt cannot be opened the exception reaches the
    caller with vocabulary.txt already written in full: the output is left
    half done, and the statistics file is as it was. *)
Theorem write_traditional_output_files_partial stats output_folder st e :
  open_error st.2 (path_join output_folder "vocabulary.txt") = None ->
  open_error st.2 (path_join output_folder "vocabulary_stats.txt") = Some e ->
  exists st',
    run (write_traditional_output_files stats output_folder) st = (Raise e, st')
    /\ files st'.2 !! path_join output_folder "vocabulary.txt"
       = Some (vocabulary_lines (sorted_str (keys (frequencies stats))))
    /\ files st'.2 !! path_join output_folder "vocabulary_stats.txt"
       = files st.2 !! path_join output_folder "vocabulary_stats.txt"
    /\ st'.1 = st.1.
Proof.
  intros Hv Hs. unfold write_traditional_output_files. cbv zeta.
  rewrite run_and_then, run_open_w by exact Hv.
  rewrite run_and_then,
    (run_for_each_write _ (fun word => [WLit word; WLit newline]))
    by reflexivity.
  rewrite run_and_then, (run_open_w_error _ _ e) by exact Hs.
  eexists. split; [reflexivity|].
  destruct (output_paths_distinct output_folder) as (Hvs & _).
  rewrite !lookup_write_file, decide_True, decide_False by congruence.
  repeat split.
Qed.

Lemma write_traditional_output_files_partial_witness :
  open_error (world0, disk_no_stats).2 (path_join "output" "vocabulary.txt") = None
  /\ open_error (world0, disk_no_stats).2 (path_join "output" "vocabulary_stats.txt")
     = Some (Exn "PermissionError" "output/vocabulary_stats.txt")
  /\ exists st',
    run (write_traditional_output_files demo_stats "output") (world0, disk_no_stats)
    = (Raise (Exn "PermissionError" "output/vocabulary_stats.txt"), st')
    /\ files st'.2 !! path_join "output" "vocabulary.txt"
       = Some (vocabulary_lines (sorted_str (keys (frequencies demo_stats))))
    /\ files st'.2 !! path_join "output" "vocabulary_stats.txt"
       = files (world0, disk_no_stats).2 !! path_join "output" "vocabulary_stats.txt"
    /\ st'.1 = (world0, disk_no_stats).1.
Proof.
  split; [reflexivity|]. split; [reflexivity|].
  exact (write_traditional_output_files_partial demo_stats "output"
           (world0, disk_no_stats) _ eq_refl eq_refl).
Defined.

(** X19: for the statistics of a word list, the traditional vocabulary.txt is
    the strictly ascending list of its distinct words and
    vocabulary_stats.txt reports its length, the number of its distinct
    words and its top-10 ranking; no other file is touched and nothing
    is printed. *)
Theorem write_traditional_output_files_files W stats output_folder st :
  stats_of W (Return stats) ->
  open_error st.2 (path_join output_folder "vocabulary.txt") = None ->
  open_error st.2 (path_join output_folder "vocabulary_stats.txt") = None ->
  exists st' vocabulary,
    run (write_traditional_output_files stats output_folder) st = (Return tt, st')
    /\ files st'.2 !! path_join output_folder "vocabulary.txt"
       = Some (vocabulary_lines vocabulary)
    /\ StronglySorted (fun a b => String.ltb a b = true) vocabulary
    /\ (forall w, w ∈ vocabulary <-> w ∈ W)
    /\ files st'.2 !! path_join output_folder "vocabulary_stats.txt"
       = Some (stats_lines false (len W) (len vocabulary)
                 (get_top_words (count_words_simple W) 10))
    /\ (forall q, q <> path_join output_folder "vocabulary.txt" ->
                  q <> path_join output_folder "vocabulary_stats.txt" ->
                  files st'.2 !! q = files st.2 !! q)
    /\ st'.1 = st.1.
Proof.
  intros [t [= ->]] Hv Hs.
  destruct (output_paths_distinct output_folder) as (Hvs & _).
  destruct (sorted_vocabulary W) as (Hsorted & Hmem & Hlen).
  eexists _, (sorted_str (keys (count_words_simple W))).
  split; [apply run_write_traditional; assumption|]. simpl.
  rewrite !lookup_insert_ne, !lookup_insert_eq by congruence.
  split; [reflexivity|]. split; [exact Hsorted|]. split; [exact Hmem|].
  split; [|split; [|reflexivity]].
  - do 2 f_equal.
    + rewrite count_words_simple_count_into, sum_values_count_into.
      unfold sum; simpl. lia.
    + unfold len. rewrite Hlen, length_count_words_simple. reflexivity.
  - intros q Hqv Hqs. rewrite !lookup_insert_ne by congruence. reflexivity.
Qed.

Lemma write_traditional_output_files_files_witness :
  stats_of ["to"; "be"; "or"; "not"; "to"; "be"] (Return demo_stats)
  /\ open_error (world0, disk0).2 (path_join "output" "vocabulary.txt") = None
  /\ open_error (world0, disk0).2 (path_join "output" "vocabulary_stats.txt") = None
  /\ exists st' vocabulary,
    run (write_traditional_output_files demo_stats "output") (world0, disk0)
    = (Return tt, st')
    /\ files st'.2 !! path_join "output" "vocabulary.txt"
       = Some (vocabulary_lines vocabulary)
    /\ StronglySorted (fun a b => String.ltb a b = true) vocabulary
    /\ (forall w, w ∈ vocabulary <-> w ∈ ["to"; "be"; "or"; "not"; "to"; "be"])
    /\ files st'.2 !! path_join "output" "vocabulary_stats.txt"
       = Some (stats_lines false (len ["to"; "be"; "or"; "not"; "to"; "be"])
                 (len vocabulary)
                 (get_top_words
                    (count_words_simple ["to"; "be"; "or"; "not"; "to"; "be"]) 10))
    /\ (forall q, q <> path_join "output" "vocabulary.txt" ->
                  q <> path_join "output" "vocabulary_stats.txt" ->
                  files st'.2 !! q = files (world0, disk0).2 !! q)
    /\ st'.1 = (world0, disk0).1.
Proof.
  assert (H : stats_of ["to"; "be"; "or"; "not"; "to"; "be"] (Return demo_stats)).
  { exists 10. reflexivity. }
  split; [exact H|]. split; [reflexivity|]. split; [reflexivity|].
  exact (write_traditional_output_files_files _ demo_stats "output"
           (world0, disk0) H eq_refl eq_refl).
Defined.


(** ** What [main] leaves on disk *)

Lemma main_returns_results out fs sched_pool sched_threads filepaths :
  accepts_every_line out ->
  discover fs "data" = Return filepaths ->
  returns_only
    (fun r => exists v b1 b2 b3, r = Return v
        /\ all_results v = [("sequential", b1); ("multiprocessing", b2);
                            ("threading", b3)]
        /\ Forall (fun b => words b = concat (map (words_of_file fs) filepaths))
                  [b1; b2; b3]
        /\ stats_of (concat (map (words_of_file fs) filepaths))
                    (Return (stats_threading v)))
    (main out fs sched_pool sched_threads).
Proof.
  intros Hcon Hd. unfold main.
  apply (returns_only_and_then (batch_of fs filepaths "sequential"));
    [apply (process_with_sequential_returns out fs Hcon _ _ Hd)|
    |intros e (b & [=] & _)].
  intros b1 (b & [= <-] & Hb1 & _).
  apply (returns_only_and_then (batch_of fs filepaths "multiprocessing"));
    [apply (process_with_multiprocessing_returns out fs Hcon _ _ _ Hd)|
    |intros e (b & [=] & _)].
  intros b2 (b & [= <-] & Hb2 & _).
  apply (returns_only_and_then (batch_of fs filepaths "threading"));
    [apply (process_with_threading_returns out fs Hcon _ _ _ Hd)|
    |intros e (b & [=] & _)].
  intros b3 (b & [= <-] & Hb3 & _). rewrite Hb1.
  apply (returns_only_and_then
           (stats_of (concat (map (words_of_file fs) filepaths))));
    [apply compute_word_statistics_simple_returns, Hcon| |intros e [t [=]]].
  intros s1 Hs1.
  apply (returns_only_and_then
           (stats_of (concat (map (words_of_file fs) filepaths))));
    [apply compute_word_statistics_simple_returns, Hcon| |intros e [t [=]]].
  intros s2 Hs2. simpl. eexists _, b1, b2, b3.
  split; [reflexivity|]. split; [reflexivity|]. split; [|exact Hs1].
  repeat (apply List.Forall_cons; [assumption|]). apply List.Forall_nil.
Qed.

Lemma lookup_write_file_eq p ss st : files (write_file p ss st).2 !! p = Some ss.
Proof. rewrite lookup_write_file, decide_True by reflexivity. reflexivity. Qed.

Lemma lookup_write_file_ne p ss st q :
  p <> q -> files (write_file p ss st).2 !! q = files st.2 !! q.
Proof. intros H. rewrite lookup_write_file, decide_False by exact H. reflexivity. Qed.

(** X20: when the data folder can be listed, the console takes every line
    and nothing stands in the way of writing, a run of [main] followed by
    its two writer calls ends, under every schedule, with: vocabulary.txt holding the sorted distinct words
    of the discovered files; vocabulary_stats.txt in the traditional
    format, the detailed one that [write_output_files] wrote being
    overwritten; and a performance report with one block per method,
    each over the same words. *)
Theorem main_output_files out fs sched_pool sched_threads filepaths w disk :
  accepts_every_line out ->
  discover fs "data" = Return filepaths ->
  can_write_outputs out (w, disk) "output" ->
  let W := concat (map (words_of_file fs) filepaths) in
  exists v w' st' entries,
    run (main out fs sched_pool sched_threads) w = (Return v, w')
    /\ run (main_write_outputs out v) (w', disk) = (Return tt, st')
    /\ files st'.2 !! path_join "output" "vocabulary.txt"
       = Some (vocabulary_lines (sorted_str (keys (count_words_simple W))))
    /\ files st'.2 !! path_join "output" "vocabulary_stats.txt"
       = Some (stats_lines false (len W) (Z.of_nat (distinct_words W))
                 (get_top_words (count_words_simple W) 10))
    /\ files st'.2 !! path_join "output" "performance_comparison.txt"
       = Some (performance_heading ++ concat (map method_block entries))
    /\ map fst entries ≡ₚ ["sequential"; "multiprocessing"; "threading"]
    /\ Forall (fun entry => get_words entry.2 = Some W) entries
    /\ (forall q, q <> path_join "output" "vocabulary.txt" ->
                  q <> path_join "output" "vocabulary_stats.txt" ->
                  q <> path_join "output" "performance_comparison.txt" ->
                  files st'.2 !! q = files disk !! q).
Proof.
  intros Hcon Hd (Hmk & Hv & Hs & Hc & Hlines) W.
  pose proof (returns_only_run _ _ w
                (main_returns_results out fs sched_pool sched_threads filepaths
                   Hcon Hd))
    as (v & b1 & b2 & b3 & Hrun & Hall & Hwords & Hstats).
  destruct (run (main out fs sched_pool sched_threads) w) as [r w'] eqn:Hmain.
  simpl in Hrun. subst r.
  apply Forall_cons in Hwords as [Hb1 Hwords].
  apply Forall_cons in Hwords as [Hb2 Hwords].
  apply Forall_cons in Hwords as [Hb3 _].
  fold W in Hb1, Hb2, Hb3, Hstats.
  set (results := map (fun kb : string * BatchResult => (kb.1, result_dict kb.2))
                      (all_results v)).
  assert (Hresults : results = [("sequential", result_dict b1);
                                ("multiprocessing", result_dict b2);
                                ("threading", result_dict b3)]).
  { unfold results. rewrite Hall. reflexivity. }
  assert (Hget : Forall (fun entry : string * ResultDict =>
                           get_words entry.2 = Some W) results).
  { rewrite Hresults.
    repeat (apply List.Forall_cons; [simpl; congruence|]). apply List.Forall_nil. }
  assert (Hsome : Forall (fun entry : string * ResultDict =>
                            get_words entry.2 <> None) results).
  { eapply Forall_impl; [exact Hget|]. intros entry ->. discriminate. }
  destruct Hstats as [t Hstats]. injection Hstats as Hstats.
  exists v, w'. eexists. exists (sorted_by_time results).
  split; [reflexivity|]. split.
  - unfold main_write_outputs. cbv zeta. fold results.
    rewrite run_and_then.
    rewrite (run_write_output_files out results "output" (w', disk)
               "sequential" (result_dict b1) _ W Hlines Hmk Hresults
               (f_equal Some Hb1) Hsome Hv Hs Hc).
    apply run_write_traditional; [exact Hv|exact Hs].
  - destruct (output_paths_distinct "output") as (Hvs & Hvc & Hsc).
    rewrite Hstats. cbn [frequencies total_words unique_words top_10].
    split; [|split; [|split; [|split; [|split]]]].
    + rewrite lookup_write_file_ne, lookup_write_file_eq by congruence.
      reflexivity.
    + rewrite lookup_write_file_eq. do 2 f_equal.
      * rewrite count_words_simple_count_into, sum_values_count_into.
        unfold sum; simpl. lia.
      * unfold len. rewrite length_count_words_simple. reflexivity.
    + rewrite !lookup_write_file_ne, lookup_printed, lookup_write_file_eq
        by congruence.
      reflexivity.
    + rewrite sorted_by_time_perm, Hresults. reflexivity.
    + rewrite sorted_by_time_perm. exact Hget.
    + intros q Hqv Hqs Hqc.
      rewrite !lookup_write_file_ne, lookup_printed, !lookup_write_file_ne
        by congruence.
      reflexivity.
Qed.

Lemma main_output_files_witness :
  accepts_every_line console0
  /\ discover fs_demo "data"
     = Return ["data/a.txt"; "data/b.txt"; "data/gone.txt"]
  /\ can_write_outputs console0 (world0, disk0) "output"
  /\ let W := concat (map (words_of_file fs_demo)
                          ["data/a.txt"; "data/b.txt"; "data/gone.txt"]) in
     exists v w' st' entries,
       run (main console0 fs_demo [1; 0; 2]%nat [2; 2; 0]%nat) world0
       = (Return v, w')
       /\ run (main_write_outputs console0 v) (w', disk0) = (Return tt, st')
       /\ files st'.2 !! path_join "output" "vocabulary.txt"
          = Some (vocabulary_lines (sorted_str (keys (count_words_simple W))))
       /\ files st'.2 !! path_join "output" "vocabulary_stats.txt"
          = Some (stats_lines false (len W) (Z.of_nat (distinct_words W))
                    (get_top_words (count_words_simple W) 10))
       /\ files st'.2 !! path_join "output" "performance_comparison.txt"
          = Some (performance_heading ++ concat (map method_block entries))
       /\ map fst entries ≡ₚ ["sequential"; "multiprocessing"; "threading"]
       /\ Forall (fun entry => get_words entry.2 = Some W) entries
       /\ (forall q, q <> path_join "output" "vocabulary.txt" ->
                     q <> path_join "output" "vocabulary_stats.txt" ->
                     q <> path_join "output" "performance_comparison.txt" ->
                     files st'.2 !! q = files disk0 !! q).
Proof.
  split; [exact console0_accepts|]. split; [reflexivity|].
  split; [exact demo_can_write|].
  exact (main_output_files console0 fs_demo [1; 0; 2]%nat [2; 2; 0]%nat _
           world0 disk0 console0_accepts eq_refl demo_can_write).
Defined.

(** ** A line the console refuses *)

(** X22: when the file is read but the line about it cannot be printed,
    the handler takes the exception of [print] for a read failure: the
    clock is read a third time and the words of the file are dropped.
    If the line of the handler can be printed the call returns the path
    with no words; if not, the exception of that [print] leaves the
    function and nothing has been printed. *)
Theorem read_and_clean_file_print_failure out fs filepath contents e w :
  read_text fs filepath = Return contents ->
  write_error out
    [Lit "[INFO] Processed "; Lit (basename filepath); Lit ": ";
     Int (len (clean_words (lower contents))); Lit " words in ";
     Seconds4 (clock w (S (reads w)) - clock w (reads w)); Lit " seconds"]
  = Some e ->
  let error_line := [Lit "[ERROR] Error reading "; Lit filepath; Lit ": ";
                     Err e] in
  run (read_and_clean_file out fs filepath) w
  = match write_error out error_line with
    | None =>
        (Return (filepath, [], clock w (S (S (reads w))) - clock w (reads w)),
         mkWorld (clock w) (S (S (S (reads w)))) (stdout w ++ [error_line]))
    | Some e' =>
        (Raise e', mkWorld (clock w) (S (S (S (reads w)))) (stdout w))
    end.
Proof.
  intros Hread Hinfo error_line. subst error_line.
  pose proof (run_read_and_clean_file out fs filepath w) as Hrun.
  cbv zeta in Hrun. rewrite Hread, Hinfo in Hrun. exact Hrun.
Qed.

Lemma read_and_clean_file_print_failure_witness :
  read_text fs_accent ("data/" +:+ cafe_txt) = Return "To be, or not to be"
  /\ write_error console_ascii
       [Lit "[INFO] Processed "; Lit (basename ("data/" +:+ cafe_txt));
        Lit ": "; Int (len (clean_words (lower "To be, or not to be")));
        Lit " words in ";
        Seconds4 (clock world0 (S (reads world0)) - clock world0 (reads world0));
        Lit " seconds"]
     = Some UnicodeEncodeError
  /\ run (read_and_clean_file console_ascii fs_accent ("data/" +:+ cafe_txt))
         world0
     = (Raise UnicodeEncodeError, mkWorld (clock world0) 3 []).
Proof.
  split; [reflexivity|]. split; [reflexivity|].
  exact (read_and_clean_file_print_failure console_ascii fs_accent
           ("data/" +:+ cafe_txt) "To be, or not to be" UnicodeEncodeError
           world0 eq_refl eq_refl).
Defined.
